(** * Finance-Insights-UI: chat client state logic

    A shallow embedding of the state logic of the chat client:
    - the stream ingestion loop and the typing animator of [ChatApp]
      (App.jsx),
    - the message bubble's text selection and the table pagination
      (components/MessageBubble.jsx),
    - the localStorage storage service (services/storageService.js),
    - the conversation container (contexts/ConversationContext.jsx), in its
      synchronous variant and in its backend-proxied variant.

    React state is modelled by explicit state passing: a handler is a
    function from the state it runs against to the state after its queued
    updates are applied.  Values a handler closes over at render time
    ([currentConversationId], [conversations]) are explicit arguments of the
    handler, separate from the live state, because React does not refresh
    them while the handler runs. *)

From Stdlib Require Import ZArith Ascii String List Lia Permutation.
From stdpp Require Import base option list strings gmap.
Import ListNotations.

Local Open Scope string_scope.
Local Open Scope list_scope.
Set Warnings "-register-all".

(** ** JavaScript values and strings *)

(** A JSON value as [JSON.parse] returns it, plus [undefined] for absent
    properties.  Numbers are kept as integers: nothing below does
    arithmetic on a parsed number. *)
Inductive jsval : Type :=
| JUndefined
| JNull
| JBool (b : bool)
| JNum (n : Z)
| JStr (s : string)
| JArr (items : list jsval)
| JObj (props : list (string * jsval)).

(** What a JavaScript statement can throw; the code below never inspects
    the exception, it only catches it. *)
Inductive JsError : Type := TypeError | SyntaxError | NetworkError.

Inductive Result (A : Type) : Type :=
| Ok (a : A)
| Throw (e : JsError).
Arguments Ok {A} a.
Arguments Throw {A} e.

Definition rbind {A B} (r : Result A) (k : A -> Result B) : Result B :=
  match r with
  | Ok a => k a
  | Throw e => Throw e
  end.

Notation "'let!' x ':=' r 'in' k" := (rbind r (fun x => k))
  (at level 10, x name, r at level 200, k at level 200).

(** [try { body } catch (e) { handler }] *)
Definition tryCatch {A} (body : Result A) (handler : A) : A :=
  match body with
  | Ok a => a
  | Throw _ => handler
  end.

Module JsString.

(** [s.length] (a character of the embedding stands for one UTF-16 code
    unit of the JavaScript string). *)
Definition len (s : string) : nat := String.length s.

(** [s.substring(0, n)] and [s.slice(0, n)] for [n >= 0]. *)
Definition take (n : nat) (s : string) : string := String.substring 0 n s.

(** [s.slice(n)] for [n >= 0]. *)
Fixpoint drop (n : nat) (s : string) : string :=
  match n, s with
  | O, _ => s
  | S n', String _ rest => drop n' rest
  | S _, EmptyString => EmptyString
  end.

(** [s.startsWith(p)] *)
Definition startsWith (p s : string) : bool := String.prefix p s.

(** Truthiness of a string: the empty string is the only falsy one. *)
Definition truthy (s : string) : bool :=
  match s with
  | EmptyString => false
  | String _ _ => true
  end.

Definition newline : ascii := Ascii.ascii_of_nat 10.

(** [s.split('\n')] *)
Fixpoint splitLines (s : string) : list string :=
  match s with
  | EmptyString => [EmptyString]
  | String c rest =>
      if Ascii.eqb c newline then EmptyString :: splitLines rest
      else match splitLines rest with
           | h :: t => String c h :: t
           | [] => [String c EmptyString]
           end
  end.

End JsString.

(** [v[k]] for a property name [k] that no prototype defines ([type],
    [data]): reading it from [null] or [undefined] throws, an object gives
    its own property, every other value gives [undefined]. *)
Fixpoint ownProp (k : string) (props : list (string * jsval)) : jsval :=
  match props with
  | [] => JUndefined
  | (k', v) :: rest => if String.eqb k k' then v else ownProp k rest
  end.

Definition getProp (v : jsval) (k : string) : Result jsval :=
  match v with
  | JUndefined | JNull => Throw TypeError
  | JObj props => Ok (ownProp k props)
  | _ => Ok JUndefined
  end.

(** [v === s] for a string literal [s] *)
Definition isString (v : jsval) (s : string) : bool :=
  match v with
  | JStr s' => String.eqb s' s
  | _ => false
  end.

(** ** Messages *)

(** A chat message.  [content] is the user's text (empty on bot messages,
    where the property is absent and reads as falsy); [answer] and
    [displayedAnswer] are the bot's target and revealed text.  The text
    fields are typed as strings; [chart], [table] and [evidence] hold
    whatever JSON the server sent ([JNull] in the placeholder). *)
Record Message : Type := mkMessage {
  msg_id : string;
  msg_role : string;
  msg_content : string;
  msg_answer : string;
  msg_displayedAnswer : string;
  msg_chart : jsval;
  msg_table : jsval;
  msg_evidence : jsval;
  msg_isStreaming : bool;
  msg_isThinking : bool;
  msg_isError : bool;
  msg_timestamp : string
}.

(** The [updates] object passed to [updateMessage]: a property is either
    absent ([None]) or present with a value. *)
Record MessageUpdates : Type := mkUpdates {
  upd_answer : option string;
  upd_displayedAnswer : option string;
  upd_chart : option jsval;
  upd_table : option jsval;
  upd_evidence : option jsval;
  upd_isStreaming : option bool;
  upd_isThinking : option bool;
  upd_isError : option bool
}.

(** [{ ...m, ...updates }] *)
Definition spread (m : Message) (u : MessageUpdates) : Message :=
  {| msg_id := msg_id m;
     msg_role := msg_role m;
     msg_content := msg_content m;
     msg_answer := default (msg_answer m) (upd_answer u);
     msg_displayedAnswer := default (msg_displayedAnswer m) (upd_displayedAnswer u);
     msg_chart := default (msg_chart m) (upd_chart u);
     msg_table := default (msg_table m) (upd_table u);
     msg_evidence := default (msg_evidence m) (upd_evidence u);
     msg_isStreaming := default (msg_isStreaming m) (upd_isStreaming u);
     msg_isThinking := default (msg_isThinking m) (upd_isThinking u);
     msg_isError := default (msg_isError m) (upd_isError u);
     msg_timestamp := msg_timestamp m |}.

(** The in-memory part of [updateMessage]:
    [setMessages(prev => (prev || []).map(m => m.id === messageId ? { ...m, ...updates } : m))] *)
Definition updateMessage (messageId : string) (u : MessageUpdates)
    (prev : list Message) : list Message :=
  map (fun m => if String.eqb (msg_id m) messageId then spread m u else m) prev.

(** ** MessageBubble: the text that is rendered *)

(** [const displayText = role === 'user' ? content : (answer || '')] *)
Definition displayText (m : Message) : string :=
  if String.eqb (msg_role m) "user" then msg_content m
  else if JsString.truthy (msg_answer m) then msg_answer m else EmptyString.

(** ** Stream ingestion loop (sendMessage) *)

Definition ERROR_TEXT : string :=
  "Sorry, a connection error occurred. Please try again.".

(** The object literals [sendMessage] passes to [updateMessage]. *)
Definition textUpdates (data : string) : MessageUpdates :=
  {| upd_answer := Some data; upd_displayedAnswer := None;
     upd_chart := None; upd_table := None; upd_evidence := None;
     upd_isStreaming := Some true; upd_isThinking := Some false;
     upd_isError := None |}.

Definition tableUpdates (data : jsval) : MessageUpdates :=
  {| upd_answer := None; upd_displayedAnswer := None;
     upd_chart := None; upd_table := Some data; upd_evidence := None;
     upd_isStreaming := None; upd_isThinking := None; upd_isError := None |}.

Definition chartUpdates (data : jsval) : MessageUpdates :=
  {| upd_answer := None; upd_displayedAnswer := None;
     upd_chart := Some data; upd_table := None; upd_evidence := None;
     upd_isStreaming := None; upd_isThinking := None; upd_isError := None |}.

Definition evidenceUpdates (data : jsval) : MessageUpdates :=
  {| upd_answer := None; upd_displayedAnswer := None;
     upd_chart := None; upd_table := None; upd_evidence := Some data;
     upd_isStreaming := None; upd_isThinking := None; upd_isError := None |}.

Definition doneUpdates : MessageUpdates :=
  {| upd_answer := None; upd_displayedAnswer := None;
     upd_chart := None; upd_table := None; upd_evidence := None;
     upd_isStreaming := Some false; upd_isThinking := Some false;
     upd_isError := None |}.

Definition errorUpdates : MessageUpdates :=
  {| upd_answer := Some ERROR_TEXT; upd_displayedAnswer := Some ERROR_TEXT;
     upd_chart := None; upd_table := None; upd_evidence := None;
     upd_isStreaming := Some false; upd_isThinking := Some false;
     upd_isError := Some true |}.

(** What the [switch (data.type)] does with a parsed frame. *)
Inductive FrameAction : Type :=
| ActUpdate (u : MessageUpdates)  (* a [case] that calls [updateMessage] *)
| ActNothing                      (* [default: break] *)
| ActUntyped.                     (* [case 'text'] whose [data.data] is not a
                                     string: [answer] would leave the type
                                     [Message] gives it *)

(** The body of the inner [try]: [switch (data.type) { ... }].  Reading
    [data.type] throws when the parsed value is [null]. *)
Definition frameAction (data : jsval) : Result FrameAction :=
  let! ty := getProp data "type" in
  if isString ty "text" then
    let! payload := getProp data "data" in
    match payload with
    | JStr s => Ok (ActUpdate (textUpdates s))
    | _ => Ok ActUntyped
    end
  else if isString ty "table" then
    let! payload := getProp data "data" in Ok (ActUpdate (tableUpdates payload))
  else if isString ty "chart" then
    let! payload := getProp data "data" in Ok (ActUpdate (chartUpdates payload))
  else if isString ty "evidence" then
    let! payload := getProp data "data" in Ok (ActUpdate (evidenceUpdates payload))
  else if isString ty "done" then Ok (ActUpdate doneUpdates)
  else Ok ActNothing.

Section Ingestion.

(** [JSON.parse] is the platform's: [None] stands for the [SyntaxError]
    it throws. *)
Variable JSON_parse : string -> option jsval.

Definition parseJson (s : string) : Result jsval :=
  match JSON_parse s with
  | Some v => Ok v
  | None => Throw SyntaxError
  end.

(** One iteration of [for (const line of lines)].  [None]: the line is a
    text frame with a non-string payload ([ActUntyped]). *)
Definition processLine (botMessageId : string) (line : string)
    (msgs : list Message) : option (list Message) :=
  if JsString.startsWith "data: " line then
    tryCatch
      (let! data := parseJson (JsString.drop 6 line) in
       let! act := frameAction data in
       Ok (match act with
           | ActUpdate u => Some (updateMessage botMessageId u msgs)
           | ActNothing => Some msgs
           | ActUntyped => None
           end))
      (* catch (e) { Skip invalid JSON } *)
      (Some msgs)
  else Some msgs.

Fixpoint processLines (botMessageId : string) (lines : list string)
    (msgs : list Message) : option (list Message) :=
  match lines with
  | [] => Some msgs
  | line :: rest =>
      match processLine botMessageId line msgs with
      | Some msgs' => processLines botMessageId rest msgs'
      | None => None
      end
  end.

(** One iteration of [while (true)] after a successful [reader.read()]:
    [chunk.split('\n')] and the [for] loop. *)
Definition processChunk (botMessageId : string) (chunk : string)
    (msgs : list Message) : option (list Message) :=
  processLines botMessageId (JsString.splitLines chunk) msgs.

Fixpoint processChunks (botMessageId : string) (chunks : list string)
    (msgs : list Message) : option (list Message) :=
  match chunks with
  | [] => Some msgs
  | chunk :: rest =>
      match processChunk botMessageId chunk msgs with
      | Some msgs' => processChunks botMessageId rest msgs'
      | None => None
      end
  end.

(** What the network does to one [sendMessage]: [fetch] rejects, or it
    resolves with a response whose [ok] flag and decoded chunks are given;
    [readFails] says whether the [reader.read()] after the last chunk
    rejects instead of reporting [done]. *)
Inductive FetchOutcome : Type :=
| FetchRejects
| FetchResponse (ok : bool) (chunks : list string) (readFails : bool).

(** The [try { ... } catch (error) { ... }] of [sendMessage], from the
    [fetch] on, against the message list. *)
Definition streamResponse (botMessageId : string) (net : FetchOutcome)
    (msgs : list Message) : option (list Message) :=
  match net with
  | FetchRejects => Some (updateMessage botMessageId errorUpdates msgs)
  | FetchResponse false _ _ =>
      (* throw new Error('Network response was not ok') *)
      Some (updateMessage botMessageId errorUpdates msgs)
  | FetchResponse true chunks readFails =>
      match processChunks botMessageId chunks msgs with
      | Some msgs' =>
          if readFails then Some (updateMessage botMessageId errorUpdates msgs')
          else Some msgs'
      | None => None
      end
  end.

End Ingestion.

(** ** Typing animator (the effect of ChatApp) *)

(** What the [setInterval] callback closes over: the [answer] and [id] the
    effect destructured, and its mutable [currentIndex]. *)
Record Timer : Type := mkTimer {
  timer_answer : string;
  timer_id : string;
  currentIndex : nat
}.

(** The message list together with the one interval that can be live.
    [typingInterval] is [Some] while the interval created by the last
    effect run has not been cleared. *)
Record ChatState : Type := mkChat {
  messages : list Message;
  typingInterval : option Timer
}.

(** One run of the effect [useEffect(() => { ... }, [messages, updateMessage])].
    React runs the clean-up of the previous run first; the only live
    interval is the one that run created, so the run starts with none. *)
Definition typingEffect (st : ChatState) : ChatState :=
  let msgs := messages st in
  match last msgs with
  | None => mkChat msgs None
  | Some lastMessage =>
      if negb (String.eqb (msg_role lastMessage) "bot") then mkChat msgs None
      else
        let answer := msg_answer lastMessage in
        let displayedAnswer := msg_displayedAnswer lastMessage in
        let isStreaming := msg_isStreaming lastMessage in
        let id := msg_id lastMessage in
        if JsString.truthy answer && negb (String.eqb displayedAnswer answer)
           && isStreaming
        then
          let currentIndex :=
            if JsString.truthy displayedAnswer
            then JsString.len displayedAnswer else 0 in
          mkChat msgs (Some (mkTimer answer id currentIndex))
        else if negb isStreaming && JsString.truthy answer
                && negb (String.eqb displayedAnswer answer)
        then
          mkChat (updateMessage id
                    {| upd_answer := None; upd_displayedAnswer := Some answer;
                       upd_chart := None; upd_table := None;
                       upd_evidence := None; upd_isStreaming := None;
                       upd_isThinking := None; upd_isError := None |} msgs)
                 None
        else mkChat msgs None
  end.

Definition displayedUpdates (nextChars : string) : MessageUpdates :=
  {| upd_answer := None; upd_displayedAnswer := Some nextChars;
     upd_chart := None; upd_table := None; upd_evidence := None;
     upd_isStreaming := None; upd_isThinking := None; upd_isError := None |}.

(** One firing of the interval callback (nothing fires when no interval
    is live). *)
Definition tick (st : ChatState) : ChatState :=
  match typingInterval st with
  | None => st
  | Some t =>
      if Nat.ltb (currentIndex t) (JsString.len (timer_answer t)) then
        let nextChars := JsString.take (currentIndex t + 1) (timer_answer t) in
        mkChat (updateMessage (timer_id t) (displayedUpdates nextChars) (messages st))
               (Some (mkTimer (timer_answer t) (timer_id t) (currentIndex t + 1)))
      else
        (* clearInterval(typingIntervalRef.current) *)
        mkChat (messages st) None
  end.

(** A firing followed by the render it causes: when the callback called
    [updateMessage] the message list is a new array and the effect runs
    again; when it only cleared the interval nothing is rendered. *)
Definition tickAndRender (st : ChatState) : ChatState :=
  match typingInterval st with
  | None => st
  | Some t =>
      if Nat.ltb (currentIndex t) (JsString.len (timer_answer t))
      then typingEffect (tick st)
      else tick st
  end.

(** ** storageService.js: reading localStorage *)

(** The string keys of [STORAGE_KEYS]. *)
Definition KEY_CONVERSATIONS : string := "finance_chatbot_conversations".
Definition KEY_CURRENT_CONVERSATION : string :=
  "finance_chatbot_current_conversation_id".
Definition KEY_CONVERSATION_PREFIX : string := "finance_chatbot_conversation_".

Module RawStorage.
Section RawStorage.

Variable JSON_parse : string -> option jsval.

(** [localStorage.getItem(key)]: [None] is the [null] of an absent key. *)
Definition getItem (ls : gmap string string) (key : string) : option string :=
  ls !! key.

(** [JSON.parse(x)] converts its argument to a string before parsing:
    the [null] of an absent key becomes the text ["null"]. *)
Definition jsonParseArg (x : option string) : Result jsval :=
  parseJson JSON_parse (default "null" x).

(** [function safeJsonParse(str, fallback = null)] *)
Definition safeJsonParse (str : option string) (fallback : jsval) : jsval :=
  tryCatch (jsonParseArg str) fallback.

(** [export function getConversations()] *)
Definition getConversations (ls : gmap string string) : jsval :=
  safeJsonParse (getItem ls KEY_CONVERSATIONS) (JArr []).

(** [export function getMessages(conversationId)] *)
Definition getMessages (ls : gmap string string) (conversationId : string) : jsval :=
  safeJsonParse (getItem ls (KEY_CONVERSATION_PREFIX ++ conversationId)) (JArr []).

(** [items.find(c => c.id === id)] over the elements of an array:
    [undefined] when no element matches. *)
Fixpoint findById (id : string) (items : list jsval) : Result jsval :=
  match items with
  | [] => Ok JUndefined
  | c :: rest =>
      let! cid := getProp c "id" in
      if isString cid id then Ok c else findById id rest
  end.

(** [conversations.find(...)]: only an array has [find]; on [null] the
    property read throws, on any other value the call of [undefined]
    throws. *)
Definition arrayFind (id : string) (conversations : jsval) : Result jsval :=
  match conversations with
  | JArr items => findById id items
  | _ => Throw TypeError
  end.

Definition isArray (v : jsval) : bool :=
  match v with
  | JArr _ => true
  | _ => false
  end.

(** [export function getConversation(id)] *)
Definition getConversation (ls : gmap string string) (id : string) : Result jsval :=
  let conversations := getConversations ls in
  let! metadata := arrayFind id conversations in
  match metadata with
  | JObj props =>
      let messages := getMessages ls id in
      (* { ...metadata, messages } *)
      Ok (JObj (("messages", messages) :: props))
  | _ =>
      (* if (!metadata) return null *)
      Ok JNull
  end.

End RawStorage.
End RawStorage.

(** JSON source text is written with [dq] for the double quote. *)
Definition dq : string := String (Ascii.ascii_of_nat 34) EmptyString.

Definition jsonText (ty data : string) : string :=
  "{" ++ dq ++ "type" ++ dq ++ ":" ++ dq ++ ty ++ dq ++ ","
      ++ dq ++ "data" ++ dq ++ ":" ++ dq ++ data ++ dq ++ "}".

Definition jsonDone : string :=
  "{" ++ dq ++ "type" ++ dq ++ ":" ++ dq ++ "done" ++ dq ++ "}".

(** A parser that knows a few JSON texts, agreeing with [JSON.parse] on
    each of them and rejecting everything else; it instantiates the parser
    in the examples. *)
Definition sampleParse (s : string) : option jsval :=
  if String.eqb s "null" then Some JNull
  else if String.eqb s "[]" then Some (JArr [])
  else if String.eqb s "7" then Some (JNum 7)
  else if String.eqb s (jsonText "text" "Hi")
       then Some (JObj [("type", JStr "text"); ("data", JStr "Hi")])
  else if String.eqb s jsonDone
       then Some (JObj [("type", JStr "done")])
  else if String.eqb s (jsonText "status" "working")
       then Some (JObj [("type", JStr "status"); ("data", JStr "working")])
  else None.

(** The in-memory update of a message list, under a name that the
    storage service's own [updateMessage] does not hide. *)
Abbreviation updateMessageInMemory := updateMessage.

(** ** storageService.js over well-formed stored data *)

(** Conversation metadata.  Timestamps are the ISO strings
    [new Date().toISOString()] produces. *)
Record Conversation : Type := mkConversation {
  conv_id : string;
  conv_title : string;
  conv_createdAt : string;
  conv_updatedAt : string;
  conv_isPinned : bool;
  conv_messageCount : nat
}.

(** The [updates] object of [updateConversation]: the callers pass
    [{ title }] or [{ isPinned }]. *)
Record ConversationUpdates : Type := mkConvUpdates {
  cu_title : option string;
  cu_isPinned : option bool
}.

(** What one call reads from its environment: the ids [generateId()]
    returns and the time [new Date().toISOString()] returns. *)
Record Env : Type := mkEnv {
  env_conversationId : string;
  env_messageId : string;
  env_now : string
}.

(** [conversations.filter(c => c.id !== id)] *)
Definition withoutId (id : string) (convs : list Conversation) : list Conversation :=
  List.filter (fun c => negb (String.eqb (conv_id c) id)) convs.

Module LocalStorageService.

(** The three kinds of entries, decoded: every write is
    [JSON.stringify] of a list of records and every read is [JSON.parse]
    of what was written.  [None] is an absent key, which [safeJsonParse]
    turns into [null] (see [RawStorage.safeJsonParse]). *)
Record LocalStorage : Type := mkStorage {
  ls_conversations : option (list Conversation);
  ls_messages : gmap string (list Message);
  ls_current : option string
}.

Definition emptyStorage : LocalStorage := mkStorage None ∅ None.

Definition setConversationsItem (convs : list Conversation) (ls : LocalStorage)
    : LocalStorage :=
  mkStorage (Some convs) (ls_messages ls) (ls_current ls).

Definition setMessagesItem (id : string) (msgs : list Message) (ls : LocalStorage)
    : LocalStorage :=
  mkStorage (ls_conversations ls) (<[id := msgs]> (ls_messages ls)) (ls_current ls).

Definition removeMessagesItem (id : string) (ls : LocalStorage) : LocalStorage :=
  mkStorage (ls_conversations ls) (delete id (ls_messages ls)) (ls_current ls).

(** [export function getConversations()]: [None] is [null]. *)
Definition getConversations (ls : LocalStorage) : option (list Conversation) :=
  ls_conversations ls.

(** [getConversations() || []] *)
Definition getConversationsOrEmpty (ls : LocalStorage) : list Conversation :=
  default [] (getConversations ls).

(** [export function getMessages(conversationId)]: [None] is [null]. *)
Definition getMessages (ls : LocalStorage) (conversationId : string)
    : option (list Message) :=
  ls_messages ls !! conversationId.

(** [conversations.find(c => c.id === id)] *)
Definition findConversation (id : string) (convs : list Conversation)
    : option Conversation :=
  List.find (fun c => String.eqb (conv_id c) id) convs.

(** [export function getConversation(id)]: the metadata with the
    [messages] property.  [conversations.find] throws on [null]. *)
Definition getConversation (ls : LocalStorage) (id : string)
    : Result (option (Conversation * option (list Message))) :=
  match getConversations ls with
  | None => Throw TypeError
  | Some conversations =>
      match findConversation id conversations with
      | None => Ok None
      | Some metadata => Ok (Some (metadata, getMessages ls id))
      end
  end.

(** [export function getCurrentConversationId()]:
    [localStorage.getItem(...) || null] *)
Definition getCurrentConversationId (ls : LocalStorage) : option string :=
  match ls_current ls with
  | Some id => if JsString.truthy id then Some id else None
  | None => None
  end.

(** [export function setCurrentConversationId(id)] *)
Definition setCurrentConversationId (id : option string) (ls : LocalStorage)
    : LocalStorage :=
  match id with
  | Some i =>
      if JsString.truthy i
      then mkStorage (ls_conversations ls) (ls_messages ls) (Some i)
      else mkStorage (ls_conversations ls) (ls_messages ls) None
  | None => mkStorage (ls_conversations ls) (ls_messages ls) None
  end.

(** [export function createConversation(title = 'New Chat')] *)
Definition createConversation (title : string) (env : Env) (ls : LocalStorage)
    : Conversation * LocalStorage :=
  let conversations := getConversationsOrEmpty ls in
  let newConversation :=
    {| conv_id := env_conversationId env;
       conv_title := JsString.take 50 title;
       conv_createdAt := env_now env;
       conv_updatedAt := env_now env;
       conv_isPinned := false;
       conv_messageCount := 0 |} in
  let ls1 := setConversationsItem (newConversation :: conversations) ls in
  let ls2 := setMessagesItem (conv_id newConversation) [] ls1 in
  (newConversation, ls2).

(** [{ ...conversations[index], ...updates, updatedAt: ... }] *)
Definition applyConversationUpdates (c : Conversation)
    (updates : ConversationUpdates) (now : string) : Conversation :=
  {| conv_id := conv_id c;
     conv_title := default (conv_title c) (cu_title updates);
     conv_createdAt := conv_createdAt c;
     conv_updatedAt := now;
     conv_isPinned := default (conv_isPinned c) (cu_isPinned updates);
     conv_messageCount := conv_messageCount c |}.

(** [conversations.findIndex(c => c.id === id)]: [None] is [-1]. *)
Fixpoint findIndex (id : string) (convs : list Conversation) : option nat :=
  match convs with
  | [] => None
  | c :: rest =>
      if String.eqb (conv_id c) id then Some 0
      else option_map S (findIndex id rest)
  end.

(** [export function updateConversation(id, updates)] *)
Definition updateConversation (id : string) (updates : ConversationUpdates)
    (env : Env) (ls : LocalStorage) : option Conversation * LocalStorage :=
  let conversations := getConversationsOrEmpty ls in
  match findIndex id conversations with
  | None => (None, ls)
  | Some index =>
      match conversations !! index with
      | None => (None, ls)
      | Some c =>
          let updated := applyConversationUpdates c updates (env_now env) in
          (Some updated,
           setConversationsItem (<[index := updated]> conversations) ls)
      end
  end.

(** [export function deleteConversation(id)] *)
Definition deleteConversation (id : string) (ls : LocalStorage)
    : bool * LocalStorage :=
  let conversations := getConversationsOrEmpty ls in
  let filtered := withoutId id conversations in
  if Nat.eqb (length filtered) (length conversations) then (false, ls)
  else
    let ls1 := setConversationsItem filtered ls in
    let ls2 := removeMessagesItem id ls1 in
    let ls3 :=
      match getCurrentConversationId ls2 with
      | Some cur =>
          if String.eqb cur id then setCurrentConversationId None ls2 else ls2
      | None => ls2
      end in
    (true, ls3).

(** [message.content.substring(0, 50) + (message.content.length > 50 ? '...' : '')] *)
Definition autoTitle (content : string) : string :=
  JsString.take 50 content
  ++ (if Nat.ltb 50 (JsString.len content) then "..." else EmptyString).

(** The [if (convIndex !== -1) { ... }] block of [addMessage], applied to
    [conversations[convIndex]]. *)
Definition touchConversation (c : Conversation) (message : Message)
    (messageCount : nat) (now : string) : Conversation :=
  {| conv_id := conv_id c;
     conv_title :=
       if String.eqb (conv_title c) "New Chat"
          && String.eqb (msg_role message) "user"
          && JsString.truthy (msg_content message)
       then autoTitle (msg_content message)
       else conv_title c;
     conv_createdAt := conv_createdAt c;
     conv_updatedAt := now;
     conv_isPinned := conv_isPinned c;
     conv_messageCount := messageCount |}.

(** [export function addMessage(conversationId, message)].
    [messages.push] throws when the messages key is absent, before
    anything is written. *)
Definition addMessage (conversationId : string) (message : Message)
    (env : Env) (ls : LocalStorage) : Result (Message * LocalStorage) :=
  match getMessages ls conversationId with
  | None => Throw TypeError
  | Some messages =>
      let newMessage :=
        {| msg_id := if JsString.truthy (msg_id message)
                     then msg_id message else env_messageId env;
           msg_role := msg_role message;
           msg_content := msg_content message;
           msg_answer := msg_answer message;
           msg_displayedAnswer := msg_displayedAnswer message;
           msg_chart := msg_chart message;
           msg_table := msg_table message;
           msg_evidence := msg_evidence message;
           msg_isStreaming := msg_isStreaming message;
           msg_isThinking := msg_isThinking message;
           msg_isError := msg_isError message;
           msg_timestamp := if JsString.truthy (msg_timestamp message)
                            then msg_timestamp message else env_now env |} in
      let messages' := messages ++ [newMessage] in
      let ls1 := setMessagesItem conversationId messages' ls in
      let conversations := getConversationsOrEmpty ls1 in
      let ls2 :=
        match findIndex conversationId conversations with
        | None => ls1
        | Some convIndex =>
            match conversations !! convIndex with
            | None => ls1
            | Some c =>
                setConversationsItem
                  (<[convIndex :=
                       touchConversation c message (length messages') (env_now env)]>
                     conversations)
                  ls1
            end
        end in
      Ok (newMessage, ls2)
  end.

(** [messages.findIndex(m => m.id === messageId)]: [None] is [-1]. *)
Fixpoint findMessageIndex (messageId : string) (msgs : list Message) : option nat :=
  match msgs with
  | [] => None
  | m :: rest =>
      if String.eqb (msg_id m) messageId then Some 0
      else option_map S (findMessageIndex messageId rest)
  end.

(** [export function updateMessage(conversationId, messageId, updates)].
    [messages.findIndex] throws when the messages key is absent. *)
Definition updateMessage (conversationId messageId : string)
    (updates : MessageUpdates) (ls : LocalStorage)
    : Result (option Message * LocalStorage) :=
  match getMessages ls conversationId with
  | None => Throw TypeError
  | Some messages =>
      match findMessageIndex messageId messages with
      | None => Ok (None, ls)
      | Some index =>
          match messages !! index with
          | None => Ok (None, ls)
          | Some m =>
              let updated := spread m updates in
              Ok (Some updated,
                  setMessagesItem conversationId (<[index := updated]> messages) ls)
          end
      end
  end.

(** [export function clearAllData()].  [conversations.forEach] throws when
    the conversations key is absent, before anything is removed. *)
Definition clearAllData (ls : LocalStorage) : Result LocalStorage :=
  match getConversations ls with
  | None => Throw TypeError
  | Some conversations =>
      Ok (mkStorage None
            (fold_left (fun entries c => delete (conv_id c) entries)
                       conversations (ls_messages ls))
            None)
  end.

End LocalStorageService.

(** ** groupConversationsByDate *)

Inductive GroupKey : Type :=
| Pinned | Today | Yesterday | LastWeek | LastMonth | Older.

Definition GroupKey_eqb (a b : GroupKey) : bool :=
  match a, b with
  | Pinned, Pinned | Today, Today | Yesterday, Yesterday
  | LastWeek, LastWeek | LastMonth, LastMonth | Older, Older => true
  | _, _ => false
  end.

(** The object [groups]. *)
Record Groups : Type := mkGroups {
  pinned : list Conversation;
  today : list Conversation;
  yesterday : list Conversation;
  lastWeek : list Conversation;
  lastMonth : list Conversation;
  older : list Conversation
}.

Definition emptyGroups : Groups := mkGroups [] [] [] [] [] [].

(** [groups[k].push(conv)] *)
Definition pushGroup (k : GroupKey) (conv : Conversation) (g : Groups) : Groups :=
  match k with
  | Pinned => mkGroups (pinned g ++ [conv]) (today g) (yesterday g) (lastWeek g) (lastMonth g) (older g)
  | Today => mkGroups (pinned g) (today g ++ [conv]) (yesterday g) (lastWeek g) (lastMonth g) (older g)
  | Yesterday => mkGroups (pinned g) (today g) (yesterday g ++ [conv]) (lastWeek g) (lastMonth g) (older g)
  | LastWeek => mkGroups (pinned g) (today g) (yesterday g) (lastWeek g ++ [conv]) (lastMonth g) (older g)
  | LastMonth => mkGroups (pinned g) (today g) (yesterday g) (lastWeek g) (lastMonth g ++ [conv]) (older g)
  | Older => mkGroups (pinned g) (today g) (yesterday g) (lastWeek g) (lastMonth g) (older g ++ [conv])
  end.

Definition group (k : GroupKey) (g : Groups) : list Conversation :=
  match k with
  | Pinned => pinned g
  | Today => today g
  | Yesterday => yesterday g
  | LastWeek => lastWeek g
  | LastMonth => lastMonth g
  | Older => older g
  end.

Section Grouping.

(** The time value of [new Date(s)]; [None] is the [NaN] of an invalid
    date, for which every comparison is false. *)
Variable dateValue : string -> option Z.

(** The time values of the local midnights [today], [yesterday],
    [lastWeek] and [lastMonth] computed from [new Date()]. *)
Variables todayStart yesterdayStart lastWeekStart lastMonthStart : Z.

(** [date >= bound] *)
Definition dateGe (date : option Z) (bound : Z) : bool :=
  match date with
  | Some t => Z.leb bound t
  | None => false
  end.

(** The branch the [forEach] callback takes for [conv]. *)
Definition groupOf (conv : Conversation) : GroupKey :=
  if conv_isPinned conv then Pinned
  else
    let date := dateValue (conv_updatedAt conv) in
    if dateGe date todayStart then Today
    else if dateGe date yesterdayStart then Yesterday
    else if dateGe date lastWeekStart then LastWeek
    else if dateGe date lastMonthStart then LastMonth
    else Older.

(** [conversations.forEach(conv => { ... })] starting from the empty
    [groups]. *)
Definition groupConversationsByDate (conversations : list Conversation) : Groups :=
  fold_left (fun g conv => pushGroup (groupOf conv) conv g) conversations emptyGroups.

End Grouping.

(** ** PaginatedTable *)

Definition ROWS_PER_PAGE : nat := 10.

(** [rows.slice(start, end)] for [0 <= start <= end]. *)
Definition sliceRows {A} (startIdx endIdx : nat) (rows : list A) : list A :=
  take (endIdx - startIdx) (drop startIdx rows).

(** [Math.ceil(totalRows / ROWS_PER_PAGE)] *)
Definition totalPages (totalRows : nat) : nat :=
  (totalRows + (ROWS_PER_PAGE - 1)) / ROWS_PER_PAGE.

(** The rows rendered when the state [currentPage] is [page] (a page
    number, starting at 1). *)
Definition currentRows {A} (rows : list A) (currentPage : nat) : list A :=
  let startIdx := (currentPage - 1) * ROWS_PER_PAGE in
  let endIdx := startIdx + ROWS_PER_PAGE in
  sliceRows startIdx endIdx rows.

(** [goToPage(page)]: the new value of the state [currentPage]. *)
Definition goToPage {A} (rows : list A) (page : nat) (currentPage : nat) : nat :=
  if Nat.leb 1 page && Nat.leb page (totalPages (length rows)) then page
  else currentPage.

(** ** Handlers: state passing with exceptions *)

(** A handler runs against a state and either returns or throws; what it
    wrote or queued before throwing stays. *)
Definition Eff (S A : Type) : Type := S -> S * Result A.

Definition eret {S A} (a : A) : Eff S A := fun s => (s, Ok a).

Definition ebind {S A B} (m : Eff S A) (k : A -> Eff S B) : Eff S B :=
  fun s =>
    match m s with
    | (s', Ok a) => k a s'
    | (s', Throw e) => (s', Throw e)
    end.

Definition modify {S} (f : S -> S) : Eff S unit := fun s => (f s, Ok tt).

Definition gets {S A} (f : S -> A) : Eff S A := fun s => (s, Ok (f s)).

Notation "'do!' x ':=' m 'in' k" := (ebind m (fun x => k))
  (at level 10, x name, m at level 200, k at level 200).
Notation "m ';;!' k" := (ebind m (fun _ => k))
  (at level 60, k at level 200, right associativity).

Definition WELCOME_TEXT : string :=
  "Hello! I'm your intelligent financial assistant. I can help you query financial data and loans information. How can I help you today?".

Definition welcomeMessage (now : string) : Message :=
  {| msg_id := "welcome";
     msg_role := "bot";
     msg_content := EmptyString;
     msg_answer := WELCOME_TEXT;
     msg_displayedAnswer := WELCOME_TEXT;
     msg_chart := JNull;
     msg_table := JNull;
     msg_evidence := JNull;
     msg_isStreaming := false;
     msg_isThinking := false;
     msg_isError := false;
     msg_timestamp := now |}.

(** [!currentConversationId] is false exactly for a non-empty id. *)
Definition isSet (id : option string) : bool :=
  match id with
  | Some i => JsString.truthy i
  | None => false
  end.

(** [a === b] on ids that may be [null]. *)
Definition sameId (a : string) (b : option string) : bool :=
  match b with
  | Some i => String.eqb a i
  | None => false
  end.

(** ** ConversationContext over localStorage (synchronous handlers) *)

Module ConversationContext.
Import LocalStorageService.

(** The provider's state and the localStorage it writes through.
    [messages] is [None] when the state holds [null], which
    [switchConversation] can put there. *)
Record AppState : Type := mkApp {
  conversations : list Conversation;
  currentConversationId : option string;
  messages : option (list Message);
  localStorage : LocalStorage
}.

Definition setConversations (f : list Conversation -> list Conversation)
    : Eff AppState unit :=
  modify (fun s => mkApp (f (conversations s)) (currentConversationId s)
                         (messages s) (localStorage s)).

Definition setCurrentConversationId (id : option string) : Eff AppState unit :=
  modify (fun s => mkApp (conversations s) id (messages s) (localStorage s)).

Definition setMessages (f : option (list Message) -> option (list Message))
    : Eff AppState unit :=
  modify (fun s => mkApp (conversations s) (currentConversationId s)
                         (f (messages s)) (localStorage s)).

(** A call into the storage service that cannot throw. *)
Definition storageCall {A} (f : LocalStorage -> A * LocalStorage)
    : Eff AppState A :=
  fun s =>
    let '(a, ls) := f (localStorage s) in
    (mkApp (conversations s) (currentConversationId s) (messages s) ls, Ok a).

(** A call into the storage service that can throw. *)
Definition storageTry {A} (f : LocalStorage -> Result (A * LocalStorage))
    : Eff AppState A :=
  fun s =>
    match f (localStorage s) with
    | Ok (a, ls) =>
        (mkApp (conversations s) (currentConversationId s) (messages s) ls, Ok a)
    | Throw e => (s, Throw e)
    end.

(** [const createConversation = useCallback((title = 'New Chat') => ..., [])] *)
Definition createConversation (title : string) (env : Env)
    : Eff AppState Conversation :=
  do! newConv := storageCall (LocalStorageService.createConversation title env) in
  setConversations (fun prev => newConv :: prev) ;;!
  setCurrentConversationId (Some (conv_id newConv)) ;;!
  storageCall (fun ls =>
    (tt, LocalStorageService.setCurrentConversationId (Some (conv_id newConv)) ls)) ;;!
  let welcome := welcomeMessage (env_now env) in
  storageTry (LocalStorageService.addMessage (conv_id newConv) welcome env) ;;!
  setMessages (fun _ => Some [welcome]) ;;!
  eret newConv.

(** [const switchConversation = useCallback((id) => ..., [currentConversationId])];
    [closureCurrent] is the [currentConversationId] of the render that
    made the callback.  [setMessages(conv.messages)] has no guard: a
    [null] [conv.messages] becomes the state. *)
Definition switchConversation (closureCurrent : option string) (id : string)
    : Eff AppState unit :=
  if sameId id closureCurrent then eret tt
  else
    do! conv := storageTry (fun ls =>
                  let! r := LocalStorageService.getConversation ls id in
                  Ok (r, ls)) in
    match conv with
    | Some (_, convMessages) =>
        setCurrentConversationId (Some id) ;;!
        storageCall (fun ls =>
          (tt, LocalStorageService.setCurrentConversationId (Some id) ls)) ;;!
        setMessages (fun _ => convMessages)
    | None => eret tt
    end.

(** [const deleteConversation = useCallback((id) => ...,
     [currentConversationId, conversations, switchConversation])] *)
Definition deleteConversation (closureCurrent : option string)
    (closureConversations : list Conversation) (id : string)
    : Eff AppState unit :=
  storageCall (LocalStorageService.deleteConversation id) ;;!
  setConversations (withoutId id) ;;!
  if sameId id closureCurrent then
    let remaining := withoutId id closureConversations in
    match remaining with
    | first :: _ => switchConversation closureCurrent (conv_id first)
    | [] =>
        setCurrentConversationId None ;;!
        setMessages (fun _ => Some [])
    end
  else eret tt.

(** [const addMessage = useCallback((message) => ...,
     [currentConversationId, createConversation])].  The conversation
    list state holds no [null]: a [null] from [storage.getConversations()]
    is stored as the empty list in both branches.  The first branch
    appends to [prev || []]; the second spreads [prev] itself, and on
    [null] that updater throws when React applies it, so that the message
    state stays [null]. *)
Definition addMessage (closureCurrent : option string) (message : Message)
    (env : Env) : Eff AppState unit :=
  if negb (isSet closureCurrent) then
    do! newConv := createConversation "New Chat" env in
    storageTry (LocalStorageService.addMessage (conv_id newConv) message env) ;;!
    setMessages (fun prev => Some (default [] prev ++ [message])) ;;!
    if String.eqb (msg_role message) "user" && JsString.truthy (msg_content message)
    then
      do! stored := gets (fun s => getConversationsOrEmpty (localStorage s)) in
      setConversations (fun _ => stored)
    else eret tt
  else
    storageTry (LocalStorageService.addMessage
                  (default EmptyString closureCurrent) message env) ;;!
    setMessages (fun prev => (fun l => l ++ [message]) <$> prev) ;;!
    if String.eqb (msg_role message) "user" && JsString.truthy (msg_content message)
    then
      do! stored := gets (fun s => getConversationsOrEmpty (localStorage s)) in
      setConversations (fun _ => stored)
    else eret tt.

(** [const updateConversation = useCallback((id, updates) => ..., [])] *)
Definition updateConversation (id : string) (updates : ConversationUpdates)
    (env : Env) : Eff AppState (option Conversation) :=
  do! updated := storageCall (LocalStorageService.updateConversation id updates env) in
  match updated with
  | Some u =>
      setConversations
        (map (fun c => if String.eqb (conv_id c) id then u else c)) ;;!
      eret (Some u)
  | None => eret None
  end.

(** [const updateMessage = useCallback((messageId, updates) => ...,
     [currentConversationId])]: the store first, then the list in memory. *)
Definition updateMessageHandler (closureCurrent : option string)
    (messageId : string) (updates : MessageUpdates) : Eff AppState unit :=
  (if isSet closureCurrent then
     storageTry (fun ls =>
       let! r := LocalStorageService.updateMessage
                   (default EmptyString closureCurrent) messageId updates ls in
       Ok (tt, snd r))
   else eret tt) ;;!
  setMessages (fun prev =>
    Some (updateMessageInMemory messageId updates (default [] prev))).

(** The effect that runs once on mount: the stored list is loaded and the
    stored current conversation is restored when the list has it.
    [setIsLoading] is not part of [AppState]. *)
Definition loadOnMount : Eff AppState unit :=
  do! loadedConversations := gets (fun s => getConversationsOrEmpty (localStorage s)) in
  setConversations (fun _ => loadedConversations) ;;!
  do! currentId := gets (fun s => getCurrentConversationId (localStorage s)) in
  match currentId with
  | Some cid =>
      match findConversation cid loadedConversations with
      | Some _ =>
          setCurrentConversationId (Some cid) ;;!
          do! conv := storageTry (fun ls =>
                        let! r := LocalStorageService.getConversation ls cid in
                        Ok (r, ls)) in
          match conv with
          | Some (_, Some convMessages) => setMessages (fun _ => Some convMessages)
          | _ => eret tt
          end
      | None => eret tt
      end
  | None => eret tt
  end.

(** The state the provider starts from: [useState([])], [useState(null)],
    [useState([])], over the browser's localStorage. *)
Definition initialState (ls : LocalStorage) : AppState :=
  mkApp [] None (Some []) ls.

End ConversationContext.

(** ** ChatApp.sendMessage up to the request, over the synchronous context *)

Module ChatApp.
Import ConversationContext.

Definition userMessage (userId content now : string) : Message :=
  {| msg_id := userId;
     msg_role := "user";
     msg_content := content;
     msg_answer := EmptyString;
     msg_displayedAnswer := EmptyString;
     msg_chart := JNull;
     msg_table := JNull;
     msg_evidence := JNull;
     msg_isStreaming := false;
     msg_isThinking := false;
     msg_isError := false;
     msg_timestamp := now |}.

(** The placeholder: the bot message in its thinking state. *)
Definition botMessage (botMessageId now : string) : Message :=
  {| msg_id := botMessageId;
     msg_role := "bot";
     msg_content := EmptyString;
     msg_answer := EmptyString;
     msg_displayedAnswer := EmptyString;
     msg_chart := JNull;
     msg_table := JNull;
     msg_evidence := JNull;
     msg_isStreaming := false;
     msg_isThinking := true;
     msg_isError := false;
     msg_timestamp := now |}.

(** [sendMessage(content)] from its first line to [addMessage(botMessage)].
    [content] is the trimmed text [content.trim()]; [closureCurrent] is
    the [currentConversationId] of the render that made [sendMessage]
    and the [addMessage] it calls; [userId] and [botMessageId] are the
    ids built from [Date.now()]; [envCreate], [envUser] and [envBot] are
    what the three calls read from their environment.  Returns the
    placeholder's id, or [None] after the early [return]. *)
Definition sendMessageStart (closureCurrent : option string)
    (isLoading : bool) (content : string) (userId botMessageId : string)
    (envCreate envUser envBot : Env) : Eff AppState (option string) :=
  if negb (JsString.truthy content) || isLoading then eret None
  else
    (if negb (isSet closureCurrent)
     then (createConversation "New Chat" envCreate ;;! eret tt)
     else eret tt) ;;!
    addMessage closureCurrent (userMessage userId content (env_now envUser)) envUser ;;!
    addMessage closureCurrent (botMessage botMessageId (env_now envBot)) envBot ;;!
    eret (Some botMessageId).

(** [messages.slice(-20)] *)
Definition lastTwenty (msgs : list Message) : list Message :=
  drop (length msgs - 20) msgs.

(** The [conversationHistory] sent with the request: pairs of [role] and
    [content], built from the [messages] of the render that made
    [sendMessage]. *)
Definition conversationHistory (msgs : list Message) : list (string * string) :=
  map (fun msg =>
         (if String.eqb (msg_role msg) "user" then "user" else "assistant",
          if String.eqb (msg_role msg) "user" then msg_content msg
          else msg_answer msg))
      (List.filter
         (fun msg => String.eqb (msg_role msg) "user"
                     || (String.eqb (msg_role msg) "bot"
                         && JsString.truthy (msg_answer msg)))
         (lastTwenty msgs)).

End ChatApp.

(** ** ConversationContext over the backend (asynchronous handlers) *)

(** The backend's answers are inputs of each handler; a handler is run to
    completion with the answers it is given. *)
Module BackendContext.

(** The state of the provider, and the one localStorage entry the
    backend variant of the storage service keeps (the current id). *)
Record AppState : Type := mkApp {
  conversations : list Conversation;
  currentConversationId : option string;
  messages : list Message;
  storedCurrentId : option string
}.

(** [storage.createConversation(title)]: the server's conversation, or
    the local fallback with a temporary id when the request fails. *)
Definition storageCreateConversation (title : string)
    (reply : option Conversation) (env : Env) : Conversation :=
  match reply with
  | Some data => data
  | None =>
      {| conv_id := "temp-" ++ env_conversationId env;
         conv_title := JsString.take 50 title;
         conv_createdAt := env_now env;
         conv_updatedAt := env_now env;
         conv_isPinned := false;
         conv_messageCount := 0 |}
  end.

(** [storage.setCurrentConversationId(id)] *)
Definition storeCurrentId (id : option string) (s : AppState) : AppState :=
  mkApp (conversations s) (currentConversationId s) (messages s)
        (if isSet id then id else None).

(** [const createNewConversation = useCallback(async (title = 'New Chat') => ..., [])] *)
Definition createNewConversation (title : string) (reply : option Conversation)
    (env : Env) (s : AppState) : Conversation * AppState :=
  let newConv := storageCreateConversation title reply env in
  let s1 := mkApp (newConv :: conversations s) (Some (conv_id newConv))
                  (messages s) (storedCurrentId s) in
  let s2 := storeCurrentId (Some (conv_id newConv)) s1 in
  let welcome := welcomeMessage (env_now env) in
  (newConv,
   mkApp (conversations s2) (currentConversationId s2) [welcome]
         (storedCurrentId s2)).

(** [const switchConversation = useCallback(async (id) => ..., [currentConversationId])];
    [reply] is what [storage.getConversation(id)] resolves to ([None]
    is [null]: the request failed or the server has no such
    conversation). *)
Definition switchConversation (closureCurrent : option string) (id : string)
    (reply : option (Conversation * option (list Message))) (s : AppState)
    : AppState :=
  if sameId id closureCurrent then s
  else
    match reply with
    | Some (_, convMessages) =>
        let s1 := mkApp (conversations s) (Some id) (messages s)
                        (storedCurrentId s) in
        let s2 := storeCurrentId (Some id) s1 in
        mkApp (conversations s2) (currentConversationId s2)
              (default [] convMessages) (storedCurrentId s2)
    | None => s
    end.

(** [const deleteConversationHandler = useCallback(async (id) => ...,
     [currentConversationId, conversations, switchConversation])] *)
Definition deleteConversationHandler (closureCurrent : option string)
    (closureConversations : list Conversation) (id : string)
    (switchReply : option (Conversation * option (list Message)))
    (s : AppState) : AppState :=
  let s1 := mkApp (withoutId id (conversations s))
                  (currentConversationId s) (messages s) (storedCurrentId s) in
  if sameId id closureCurrent then
    let remaining := withoutId id closureConversations in
    match remaining with
    | first :: _ => switchConversation closureCurrent (conv_id first) switchReply s1
    | [] => mkApp (conversations s1) None [] (storedCurrentId s1)
    end
  else s1.

(** [const addMessage = useCallback(async (message) => ...,
     [currentConversationId, createNewConversation])]; [createReply]
    and [listReply] are what [storage.createConversation] and
    [storage.getConversations] get from the server.  Returns the id
    the message was posted to. *)
Definition addMessage (closureCurrent : option string) (message : Message)
    (createReply : option Conversation) (listReply : list Conversation)
    (env : Env) (s : AppState) : string * AppState :=
  let '(convId, s1) :=
    if negb (isSet closureCurrent) then
      let '(newConv, s') := createNewConversation "New Chat" createReply env s in
      (conv_id newConv, s')
    else (default EmptyString closureCurrent, s) in
  let s2 := mkApp (conversations s1) (currentConversationId s1)
                  (messages s1 ++ [message]) (storedCurrentId s1) in
  if String.eqb (msg_role message) "user" && JsString.truthy (msg_content message)
  then (convId, mkApp listReply (currentConversationId s2) (messages s2)
                      (storedCurrentId s2))
  else (convId, s2).

End BackendContext.

(** ** Frames and traces of the chat screen *)

(** Whether [switch (data.type)] has a [case] for the parsed value. *)
Definition hasRecognisedType (data : jsval) : bool :=
  match getProp data "type" with
  | Ok ty =>
      isString ty "text" || isString ty "table" || isString ty "chart"
      || isString ty "evidence" || isString ty "done"
  | Throw _ => false
  end.

(** The well-formed event frames [{ type, data }] of the stream. *)
Inductive Frame : Type :=
| TextFrame (data : string)
| TableFrame (data : jsval)
| ChartFrame (data : jsval)
| EvidenceFrame (data : jsval)
| DoneFrame.

Definition frameType (f : Frame) : string :=
  match f with
  | TextFrame _ => "text"
  | TableFrame _ => "table"
  | ChartFrame _ => "chart"
  | EvidenceFrame _ => "evidence"
  | DoneFrame => "done"
  end.

(** The parsed value [v] is the frame [f]: its [type] and [data]
    properties are those of [f]. *)
Definition decodes (v : jsval) (f : Frame) : Prop :=
  getProp v "type" = Ok (JStr (frameType f)) /\
  match f with
  | TextFrame d => getProp v "data" = Ok (JStr d)
  | TableFrame d | ChartFrame d | EvidenceFrame d => getProp v "data" = Ok d
  | DoneFrame => True
  end.

(** The line [line] of the stream is the frame [f]. *)
Definition carries (JSON_parse : string -> option jsval) (line : string)
    (f : Frame) : Prop :=
  JsString.startsWith "data: " line = true /\
  exists v, JSON_parse (JsString.drop 6 line) = Some v /\ decodes v f.

(** The line [line] is one the loop passes over: it has no "data: "
    prefix, or its payload is not JSON, or the parsed value has none of
    the five types. *)
Definition skipped (JSON_parse : string -> option jsval) (line : string) : Prop :=
  JsString.startsWith "data: " line = false
  \/ JSON_parse (JsString.drop 6 line) = None
  \/ (exists v, JSON_parse (JsString.drop 6 line) = Some v
                /\ hasRecognisedType v = false).

Definition frameUpdates (f : Frame) : MessageUpdates :=
  match f with
  | TextFrame d => textUpdates d
  | TableFrame d => tableUpdates d
  | ChartFrame d => chartUpdates d
  | EvidenceFrame d => evidenceUpdates d
  | DoneFrame => doneUpdates
  end.

(** The [data] of the last [text] frame, if there is one. *)
Fixpoint lastText (frames : list Frame) : option string :=
  match frames with
  | [] => None
  | f :: rest =>
      match lastText rest with
      | Some d => Some d
      | None => match f with
                | TextFrame d => Some d
                | _ => None
                end
      end
  end.

(** What happens on the chat screen while a response streams in: a line
    of the stream is ingested, the typing interval fires, or React runs
    the typing effect. *)
Inductive Event : Type :=
| EvLine (line : string)
| EvTick
| EvEffect.

Definition step (JSON_parse : string -> option jsval) (botMessageId : string)
    (ev : Event) (st : ChatState) : option ChatState :=
  match ev with
  | EvLine line =>
      match processLine JSON_parse botMessageId line (messages st) with
      | Some msgs => Some (mkChat msgs (typingInterval st))
      | None => None
      end
  | EvTick => Some (tick st)
  | EvEffect => Some (typingEffect st)
  end.

Fixpoint run (JSON_parse : string -> option jsval) (botMessageId : string)
    (evs : list Event) (st : ChatState) : option ChatState :=
  match evs with
  | [] => Some st
  | ev :: rest =>
      match step JSON_parse botMessageId ev st with
      | Some st' => run JSON_parse botMessageId rest st'
      | None => None
      end
  end.

(** The frames a trace ingests, in order: every line of the trace
    either is a well-formed frame or is passed over. *)
Inductive traceFrames (JSON_parse : string -> option jsval)
    : list Event -> list Frame -> Prop :=
| trace_nil : traceFrames JSON_parse [] []
| trace_frame (line : string) (f : Frame) (evs : list Event) (fs : list Frame) :
    carries JSON_parse line f -> traceFrames JSON_parse evs fs ->
    traceFrames JSON_parse (EvLine line :: evs) (f :: fs)
| trace_skip (line : string) (evs : list Event) (fs : list Frame) :
    skipped JSON_parse line -> traceFrames JSON_parse evs fs ->
    traceFrames JSON_parse (EvLine line :: evs) fs
| trace_tick (evs : list Event) (fs : list Frame) :
    traceFrames JSON_parse evs fs -> traceFrames JSON_parse (EvTick :: evs) fs
| trace_effect (evs : list Event) (fs : list Frame) :
    traceFrames JSON_parse evs fs -> traceFrames JSON_parse (EvEffect :: evs) fs.

(** The same for the lines of a chunk. *)
Inductive linesFrames (JSON_parse : string -> option jsval)
    : list string -> list Frame -> Prop :=
| lines_nil : linesFrames JSON_parse [] []
| lines_frame (line : string) (f : Frame) (lines : list string) (fs : list Frame) :
    carries JSON_parse line f -> linesFrames JSON_parse lines fs ->
    linesFrames JSON_parse (line :: lines) (f :: fs)
| lines_skip (line : string) (lines : list string) (fs : list Frame) :
    skipped JSON_parse line -> linesFrames JSON_parse lines fs ->
    linesFrames JSON_parse (line :: lines) fs.

(** The request of [sendMessage] ends in its [catch]: [fetch] rejected,
    the response was not ok, or a [reader.read()] rejected. *)
Definition requestFails (net : FetchOutcome) : Prop :=
  match net with
  | FetchRejects => True
  | FetchResponse ok _ readFails => ok = false \/ readFails = true
  end.

(** The part of a message the typing animator never writes. *)
Definition core (m : Message) : string * string * string * bool :=
  (msg_id m, msg_role m, msg_answer m, msg_isStreaming m).

(** [spread] seen on [core]. *)
Definition coreSpread (messageId : string) (u : MessageUpdates)
    (c : string * string * string * bool) : string * string * string * bool :=
  let '(id, role, answer, streaming) := c in
  if String.eqb id messageId
  then (id, role, default answer (upd_answer u), default streaming (upd_isStreaming u))
  else c.

(** A message list and the ids of a sample conversation, for the examples. *)
Definition sampleMessages : list Message :=
  [ welcomeMessage "2024-01-01T00:00:00.000Z";
    ChatApp.userMessage "user-1" "How much did we lend?" "2024-01-01T00:00:01.000Z";
    ChatApp.botMessage "bot-1" "2024-01-01T00:00:01.000Z" ].

(** The message list after the frames [frames] have been ingested in
    order. *)
Definition applyFrames (botMessageId : string) (frames : list Frame)
    (msgs : list Message) : list Message :=
  fold_left (fun ms f => updateMessage botMessageId (frameUpdates f) ms) frames msgs.

Definition coreFrames (botMessageId : string) (frames : list Frame)
    (c : string * string * string * bool) : string * string * string * bool :=
  fold_left (fun c f => coreSpread botMessageId (frameUpdates f) c) frames c.

Definition doneChunk : string :=
  ("data: " ++ jsonDone ++ String JsString.newline EmptyString)%string.

(** A sample run of the chat screen: a text frame, some animation, the
    done frame. *)
Definition sampleChat : ChatState := mkChat sampleMessages None.

Definition sampleTrace : list Event :=
  [ EvLine ("data: " ++ jsonText "text" "Hi"); EvLine EmptyString;
    EvEffect; EvTick; EvEffect;
    EvLine ("data: " ++ jsonDone) ].

(** A stretch of animation: the interval fires once per element of
    [renders]; [true] means React renders (and runs the effect) before the
    next firing, [false] that the interval is left alone. *)
Definition animate (renders : list bool) (st : ChatState) : ChatState :=
  fold_left (fun s (render : bool) => if render then tickAndRender s else tick s)
            renders st.

(** Sample states of the animator: the answer was replaced by a shorter
    text while streaming; the stream finished on an empty text. *)
Definition shrunkChat : ChatState :=
  mkChat [ mkMessage "bot-1" "bot" EmptyString "Hi" "Hello" JNull JNull JNull
                     true false false "2024-01-01T00:00:01.000Z" ] None.

Definition emptiedChat : ChatState :=
  mkChat [ mkMessage "bot-1" "bot" EmptyString EmptyString "ab" JNull JNull JNull
                     false false false "2024-01-01T00:00:01.000Z" ] None.

(** A streaming state in the middle of the animation, and a finished one
    that has not caught up. *)
Definition typingChat : ChatState :=
  mkChat [ mkMessage "bot-1" "bot" EmptyString "Hello" "He" JNull JNull JNull
                     true false false "2024-01-01T00:00:01.000Z" ] None.

Definition finishedChat : ChatState :=
  mkChat [ mkMessage "bot-1" "bot" EmptyString "Hello" "He" JNull JNull JNull
                     false false false "2024-01-01T00:00:01.000Z" ] None.

(** The state of a running animation towards [a] after [k] characters
    beyond the first [n0] have been revealed. *)
Definition animating (a id : string) (n0 k : nat) (s : ChatState) : Prop :=
  exists mk,
    last (messages s) = Some mk
    /\ msg_id mk = id /\ msg_role mk = "bot" /\ msg_isStreaming mk = true
    /\ msg_answer mk = a
    /\ msg_displayedAnswer mk = JsString.take (n0 + k) a
    /\ (typingInterval s = Some (mkTimer a id (n0 + k))
        \/ (n0 + k = JsString.len a /\ typingInterval s = None)).

(** One chunk of a response: a text frame and the newline after it. *)
Definition sampleChunk : string :=
  ("data: " ++ jsonText "text" "Hi" ++ String JsString.newline EmptyString)%string.

(** What the animation keeps true while the answer [a] of the streaming
    last message is left alone: what is shown is a prefix of [a], and a
    live interval reveals [a] on that message. *)
Definition showsPrefix (a id : string) (s : ChatState) : Prop :=
  exists mk,
    last (messages s) = Some mk
    /\ msg_id mk = id /\ msg_role mk = "bot" /\ msg_isStreaming mk = true
    /\ msg_answer mk = a
    /\ String.prefix (msg_displayedAnswer mk) a = true
    /\ (forall t, typingInterval s = Some t -> timer_answer t = a /\ timer_id t = id).

(** Sample data of the storage service. *)
Definition sampleEnv : Env :=
  mkEnv "c1" "m1" "2024-01-01T00:00:00.000Z".

Definition longQuestion : string :=
  "What was the total amount of loans issued in the last quarter?".

Definition longTitle : string :=
  "Quarterly lending review with the regional credit committee team".

(** localStorage after [createConversation()] on an empty store. *)
Definition storedAfterCreate : LocalStorageService.LocalStorage :=
  snd (LocalStorageService.createConversation "New Chat" sampleEnv
         LocalStorageService.emptyStorage).

(** How [addMessage] may change a stored conversation's title. *)
Definition titleKeptOrGenerated (message : Message) (c c' : Conversation) : Prop :=
  conv_id c' = conv_id c
  /\ (conv_title c' = conv_title c
      \/ (conv_title c = "New Chat"
          /\ conv_title c' = LocalStorageService.autoTitle (msg_content message))).

(** The six groups one after the other. *)
Definition allGroups (g : Groups) : list Conversation :=
  pinned g ++ today g ++ yesterday g ++ lastWeek g ++ lastMonth g ++ older g.

(** The pages of a table, first to last. *)
Definition allPages {A} (rows : list A) : list (list A) :=
  map (currentRows rows) (seq 1 (totalPages (length rows))).

(** Sample states of the two conversation containers. *)
Definition sampleConv1 : Conversation :=
  mkConversation "c1" "Loans in Q1" "2024-01-01T00:00:00.000Z"
                 "2024-01-01T00:00:00.000Z" false 3.

Definition sampleConv2 : Conversation :=
  mkConversation "c2" "Overdue accounts" "2024-01-02T00:00:00.000Z"
                 "2024-01-02T00:00:00.000Z" false 2.

(** The backend container showing conversation c1 of two. *)
Definition backendState : BackendContext.AppState :=
  BackendContext.mkApp [sampleConv1; sampleConv2] (Some "c1") sampleMessages (Some "c1").

Definition emptyApp : ConversationContext.AppState :=
  ConversationContext.mkApp [] None (Some []) LocalStorageService.emptyStorage.

(** The localStorage container after two conversations were created:
    c2 is current, c1 is behind it. *)
Definition twoConversations : ConversationContext.AppState :=
  fst (ConversationContext.createConversation "New Chat"
         (mkEnv "c2" "m2" "2024-01-02T00:00:00.000Z")
         (fst (ConversationContext.createConversation "New Chat" sampleEnv emptyApp))).

(** The list in memory and the stored list name the same conversations in
    the same order (their message counts and dates may differ: the list
    in memory is refreshed only after a user message). *)
Definition sameConversations (s : ConversationContext.AppState) : Prop :=
  map conv_id (LocalStorageService.getConversationsOrEmpty
                 (ConversationContext.localStorage s))
  = map conv_id (ConversationContext.conversations s).

(** The first message of a fresh session: [sendMessage("hi")] with no
    current conversation, an empty list and an empty localStorage.  The
    three environments give the ids [generateId()] returns to the three
    handlers that run. *)
Definition firstMessage : ConversationContext.AppState * Result (option string) :=
  ChatApp.sendMessageStart None false "hi" "user-1" "bot-1"
    (mkEnv "c1" "m1" "2024-01-01T00:00:00.000Z")
    (mkEnv "c2" "m2" "2024-01-01T00:00:00.001Z")
    (mkEnv "c3" "m3" "2024-01-01T00:00:00.002Z")
    emptyApp.

(** The ids of the messages stored for a conversation. *)
Definition storedMessageIds (s : ConversationContext.AppState) (id : string)
    : option (list string) :=
  map msg_id <$> LocalStorageService.getMessages (ConversationContext.localStorage s) id.

(** Splits a goal that is a conjunction into its parts. *)
Ltac split_conj := repeat match goal with |- _ /\ _ => split end.

(** ** Header: the title shown and the export file name *)

(** Whether [/[^a-z0-9]/gi] leaves the character alone: a letter of
    either case or a digit. *)
Definition isAlnum (c : ascii) : bool :=
  let n := Ascii.nat_of_ascii c in
  (Nat.leb 48 n && Nat.leb n 57)
  || (Nat.leb 65 n && Nat.leb n 90)
  || (Nat.leb 97 n && Nat.leb n 122).

Definition underscore : ascii := Ascii.ascii_of_nat 95.

(** [title.replace(/[^a-z0-9]/gi, '_')] *)
Fixpoint replaceNonAlnum (s : string) : string :=
  match s with
  | EmptyString => EmptyString
  | String c rest =>
      String (if isAlnum c then c else underscore) (replaceNonAlnum rest)
  end.

(** [currentConversation?.title || 'Finance Chatbot'] with
    [currentConversation = conversations?.find(c => c.id === currentConversationId) || null] *)
Definition headerTitle (conversations : list Conversation)
    (currentConversationId : option string) : string :=
  match List.find (fun c => sameId (conv_id c) currentConversationId) conversations with
  | Some c => if JsString.truthy (conv_title c) then conv_title c else "Finance Chatbot"
  | None => "Finance Chatbot"
  end.

(** The [download] name of [handleExport]. *)
Definition exportFileName (title : string) : string :=
  replaceNonAlnum title ++ "_export.json".

(** Every character is a letter, a digit or an underscore. *)
Fixpoint fileNameSafe (s : string) : bool :=
  match s with
  | EmptyString => true
  | String c rest => (isAlnum c || Ascii.eqb c underscore) && fileNameSafe rest
  end.

(** ** GroupedTable: the set of expanded groups *)

Module GroupedTable.

(** The updater of [toggleGroup(groupKey)] on the [Set] of expanded keys. *)
Definition toggleGroup (groupKey : string) (expandedGroups : gset string)
    : gset string :=
  if decide (groupKey ∈ expandedGroups)
  then expandedGroups ∖ {[ groupKey ]}
  else expandedGroups ∪ {[ groupKey ]}.

(** [expandAll]: [new Set(groupedData.map(g => g.groupKey))] *)
Definition expandAll (groupKeys : list string) : gset string :=
  list_to_set groupKeys.

(** [collapseAll]: [new Set()] *)
Definition collapseAll : gset string := ∅.

(** [expandedGroups.has(group.groupKey)] *)
Definition isExpanded (groupKey : string) (expandedGroups : gset string) : bool :=
  bool_decide (groupKey ∈ expandedGroups).

End GroupedTable.

(** ** Auxiliary notions of the further properties *)

(** How old a date group is: the order of the [else if] chain. *)
Definition groupRank (k : GroupKey) : nat :=
  match k with
  | Pinned => 0
  | Today => 1
  | Yesterday => 2
  | LastWeek => 3
  | LastMonth => 4
  | Older => 5
  end.

(** The payload of the last frame of one kind, if there is one. *)
Fixpoint lastPayload (select : Frame -> option jsval) (frames : list Frame)
    : option jsval :=
  match frames with
  | [] => None
  | f :: rest =>
      match lastPayload select rest with
      | Some d => Some d
      | None => select f
      end
  end.

Definition tableOf (f : Frame) : option jsval :=
  match f with TableFrame d => Some d | _ => None end.

Definition chartOf (f : Frame) : option jsval :=
  match f with ChartFrame d => Some d | _ => None end.

Definition evidenceOf (f : Frame) : option jsval :=
  match f with EvidenceFrame d => Some d | _ => None end.

(** A frame that carries a payload only: table, chart or evidence. *)
Definition isPayloadFrame (f : Frame) : bool :=
  match f with
  | TableFrame _ | ChartFrame _ | EvidenceFrame _ => true
  | _ => false
  end.

(** A message with its animated text blanked: what is left is what the
    typing animator must not touch. *)
Definition withoutDisplayed (m : Message) : Message :=
  mkMessage (msg_id m) (msg_role m) (msg_content m) (msg_answer m) EmptyString
            (msg_chart m) (msg_table m) (msg_evidence m) (msg_isStreaming m)
            (msg_isThinking m) (msg_isError m) (msg_timestamp m).

(** The pages a user asks for, one [goToPage] after the other. *)
Definition visitPages {A} (rows : list A) (requests : list nat) (currentPage : nat)
    : nat :=
  fold_left (fun page request => goToPage rows request page) requests currentPage.

(** The localStorage of [twoConversations]: c2 and c1, each with its
    welcome message, c2 current. *)
Definition twoStored : LocalStorageService.LocalStorage :=
  ConversationContext.localStorage twoConversations.

(** One message after the frames [frames] have been applied to it. *)
Definition applyToMessage (frames : list Frame) (m : Message) : Message :=
  fold_left (fun m f => spread m (frameUpdates f)) frames m.

(** What the ingestion loop may do to a message: one with another id than
    the placeholder's is left as it is; the placeholder keeps its id,
    role, content and timestamp. *)
Definition touchesOnly (botMessageId : string) (m m' : Message) : Prop :=
  (msg_id m <> botMessageId -> m' = m)
  /\ msg_id m' = msg_id m
  /\ msg_role m' = msg_role m
  /\ msg_content m' = msg_content m
  /\ msg_timestamp m' = msg_timestamp m.

(** The JSON text of a table frame with an empty payload, and a parser
    that knows it besides the texts [sampleParse] knows. *)
Definition jsonEmptyTable : string :=
  "{" ++ dq ++ "type" ++ dq ++ ":" ++ dq ++ "table" ++ dq ++ ","
      ++ dq ++ "data" ++ dq ++ ":[]}".

Definition sampleParseTables (s : string) : option jsval :=
  if String.eqb s jsonEmptyTable
  then Some (JObj [("type", JStr "table"); ("data", JArr [])])
  else sampleParse s.

(** The lines of a response: a table frame, a blank line, a text frame. *)
Definition sampleLines : list string :=
  [ ("data: " ++ jsonEmptyTable)%string; EmptyString;
    ("data: " ++ jsonText "text" "Hi")%string ].

(** The lines of a response that has sent only a table so far. *)
Definition tableOnlyLines : list string :=
  [ ("data: " ++ jsonEmptyTable)%string; EmptyString ].

(** [handleTitleSave] of the Header; [editedTitle] is the trimmed text
    [editedTitle.trim()], [closureCurrent] the [currentConversationId]
    of the render. *)
Definition handleTitleSave (editedTitle : string) (closureCurrent : option string)
    (env : Env) : Eff ConversationContext.AppState unit :=
  if JsString.truthy editedTitle && isSet closureCurrent
  then ConversationContext.updateConversation (default EmptyString closureCurrent)
         (mkConvUpdates (Some editedTitle) None) env ;;! eret tt
  else eret tt.

(** The localStorage container showing c1 of two listed conversations,
    over a store that holds a message list for c1 and none for c2. *)
Definition unevenApp : ConversationContext.AppState :=
  ConversationContext.mkApp [sampleConv1; sampleConv2] (Some "c1")
    (Some sampleMessages)
    (LocalStorageService.mkStorage (Some [sampleConv1; sampleConv2])
       {[ "c1" := sampleMessages ]} (Some "c1")).

(** * Properties *)

(** ** Strings *)

Lemma take_len (n : nat) (s : string) :
  JsString.len (JsString.take n s) = Nat.min n (JsString.len s).
Proof.
  unfold JsString.take, JsString.len.
  revert n; induction s as [|c s IH]; intros [|n]; simpl; auto.
Qed.

Lemma take_all (n : nat) (s : string) :
  JsString.len s <= n -> JsString.take n s = s.
Proof.
  unfold JsString.take, JsString.len.
  revert n; induction s as [|c s IH]; intros [|n] H; simpl in *; auto; try lia.
  rewrite IH by lia. reflexivity.
Qed.

Lemma take_prefix (n : nat) (s : string) :
  String.prefix (JsString.take n s) s = true.
Proof.
  unfold JsString.take.
  revert n; induction s as [|c s IH]; intros [|n]; simpl; auto.
  destruct (ascii_dec c c) as [_|Hne]; [apply IH | congruence].
Qed.

Lemma prefix_take (p s : string) :
  String.prefix p s = true -> JsString.take (JsString.len p) s = p.
Proof.
  unfold JsString.take, JsString.len.
  revert s; induction p as [|c p IH]; intros [|d s] H; simpl in *;
    try reflexivity; try discriminate.
  destruct (ascii_dec c d) as [->|]; [|discriminate].
  rewrite (IH s H). reflexivity.
Qed.

Lemma prefix_len (p s : string) :
  String.prefix p s = true -> JsString.len p <= JsString.len s.
Proof.
  unfold JsString.len.
  revert s; induction p as [|c p IH]; intros [|d s] H; simpl in *;
    try lia; try discriminate.
  destruct (ascii_dec c d); [|discriminate].
  specialize (IH s H). lia.
Qed.

Lemma take_take_succ (n : nat) (s : string) :
  String.prefix (JsString.take n s) (JsString.take (n + 1) s) = true.
Proof.
  unfold JsString.take.
  revert n; induction s as [|c s IH]; intros [|n]; simpl; auto.
  destruct (ascii_dec c c) as [_|Hne]; [apply IH | congruence].
Qed.

Lemma truthy_len (s : string) :
  JsString.truthy s = true <-> 0 < JsString.len s.
Proof. destruct s; simpl; split; intros; try lia; auto; discriminate. Qed.

(** ** updateMessage *)

Lemma updateMessage_lookup (messageId : string) (u : MessageUpdates)
    (msgs : list Message) (i : nat) :
  updateMessage messageId u msgs !! i =
  (fun m => if String.eqb (msg_id m) messageId then spread m u else m) <$> msgs !! i.
Proof. unfold updateMessage. apply list_lookup_fmap. Qed.

Lemma updateMessage_length (messageId : string) (u : MessageUpdates)
    (msgs : list Message) :
  length (updateMessage messageId u msgs) = length msgs.
Proof. unfold updateMessage. apply length_map. Qed.

Lemma updateMessage_ids (messageId : string) (u : MessageUpdates)
    (msgs : list Message) :
  map msg_id (updateMessage messageId u msgs) = map msg_id msgs.
Proof.
  unfold updateMessage. rewrite map_map. apply map_ext.
  intros m. destruct (String.eqb (msg_id m) messageId); reflexivity.
Qed.

Lemma updateMessage_hit (messageId : string) (u : MessageUpdates)
    (msgs : list Message) (i : nat) (m : Message) :
  msgs !! i = Some m -> msg_id m = messageId ->
  updateMessage messageId u msgs !! i = Some (spread m u).
Proof.
  intros Hi Hid. rewrite updateMessage_lookup, Hi. simpl.
  rewrite Hid, String.eqb_refl. reflexivity.
Qed.

Lemma updateMessage_miss (messageId : string) (u : MessageUpdates)
    (msgs : list Message) (i : nat) (m : Message) :
  msgs !! i = Some m -> msg_id m <> messageId ->
  updateMessage messageId u msgs !! i = Some m.
Proof.
  intros Hi Hid. rewrite updateMessage_lookup, Hi. simpl.
  apply String.eqb_neq in Hid. rewrite Hid. reflexivity.
Qed.

(** ** Ingestion: skipped lines *)

Lemma frameAction_unrecognised (data : jsval) :
  hasRecognisedType data = false ->
  frameAction data = Ok ActNothing \/ exists e, frameAction data = Throw e.
Proof.
  unfold hasRecognisedType, frameAction.
  destruct (getProp data "type") as [ty|e]; simpl; [|eauto].
  intros H.
  repeat (apply orb_false_elim in H; destruct H as [H ?]).
  left. repeat match goal with Hx : isString ty _ = false |- _ => rewrite Hx; clear Hx end.
  reflexivity.
Qed.

Lemma processLine_skipped (JSON_parse : string -> option jsval)
    (botMessageId line : string) (msgs : list Message) :
  skipped JSON_parse line ->
  processLine JSON_parse botMessageId line msgs = Some msgs.
Proof.
  unfold processLine, parseJson.
  intros [H | [H | (v & Hv & Hty)]].
  - rewrite H. reflexivity.
  - rewrite H. destruct (JsString.startsWith _ _); reflexivity.
  - rewrite Hv. destruct (JsString.startsWith _ _); [|reflexivity].
    simpl. destruct (frameAction_unrecognised v Hty) as [-> | [e ->]]; reflexivity.
Qed.

(** C6. In the ingestion loop a line that does not begin with "data: ",
    a line whose payload [JSON.parse] rejects, and a line whose parsed
    frame has a type other than text, table, chart, evidence or done
    (or no readable type at all) leave the message list as it was, and
    the loop goes on: nothing is thrown out of the iteration. *)
Theorem malformed_lines_are_skipped (JSON_parse : string -> option jsval)
    (botMessageId line : string) (msgs : list Message) :
  JsString.startsWith "data: " line = false
  \/ JSON_parse (JsString.drop 6 line) = None
  \/ (exists v, JSON_parse (JsString.drop 6 line) = Some v
                /\ hasRecognisedType v = false) ->
  processLine JSON_parse botMessageId line msgs = Some msgs.
Proof. exact (processLine_skipped JSON_parse botMessageId line msgs). Qed.

Lemma malformed_lines_are_skipped_witness :
  processLine sampleParse "bot-1" "event: ping" sampleMessages = Some sampleMessages
  /\ processLine sampleParse "bot-1" "data: {oops" sampleMessages = Some sampleMessages
  /\ processLine sampleParse "bot-1" ("data: " ++ jsonText "status" "working")
       sampleMessages = Some sampleMessages
  /\ processLine sampleParse "bot-1" "data: null" sampleMessages = Some sampleMessages.
Proof.
  split; [|split; [|split]]; apply malformed_lines_are_skipped.
  - left; reflexivity.
  - right; left; reflexivity.
  - right; right; eexists; split; reflexivity.
  - right; right; eexists; split; reflexivity.
Defined.

(** A recognised frame does change the placeholder. *)
Example text_line_is_ingested :
  processLine sampleParse "bot-1" ("data: " ++ jsonText "text" "Hi") sampleMessages
  = Some (updateMessage "bot-1" (textUpdates "Hi") sampleMessages)
  /\ updateMessage "bot-1" (textUpdates "Hi") sampleMessages <> sampleMessages.
Proof. split; [reflexivity | discriminate]. Qed.

(** ** Ingestion: well-formed frames *)

Lemma frameAction_decodes (v : jsval) (f : Frame) :
  decodes v f -> frameAction v = Ok (ActUpdate (frameUpdates f)).
Proof.
  unfold decodes, frameAction. intros [Hty Hdata].
  rewrite Hty. destruct f; simpl in *; rewrite ?Hdata; reflexivity.
Qed.

Lemma processLine_carries (JSON_parse : string -> option jsval)
    (botMessageId line : string) (f : Frame) (msgs : list Message) :
  carries JSON_parse line f ->
  processLine JSON_parse botMessageId line msgs
  = Some (updateMessage botMessageId (frameUpdates f) msgs).
Proof.
  intros [Hstart (v & Hv & Hdec)]. unfold processLine, parseJson.
  rewrite Hstart, Hv. simpl. rewrite (frameAction_decodes v f Hdec). reflexivity.
Qed.

Lemma core_updateMessage (messageId : string) (u : MessageUpdates)
    (msgs : list Message) :
  map core (updateMessage messageId u msgs)
  = map (coreSpread messageId u) (map core msgs).
Proof.
  unfold updateMessage. rewrite !map_map. apply map_ext. intros m.
  unfold core, coreSpread.
  destruct (String.eqb (msg_id m) messageId); reflexivity.
Qed.

Lemma core_updateMessage_display (messageId : string) (u : MessageUpdates)
    (msgs : list Message) :
  upd_answer u = None -> upd_isStreaming u = None ->
  map core (updateMessage messageId u msgs) = map core msgs.
Proof.
  intros Ha Hs. rewrite core_updateMessage.
  rewrite <- (map_id (map core msgs)) at 2. apply map_ext.
  intros [[[id role] answer] streaming]. unfold coreSpread.
  rewrite Ha, Hs. destruct (String.eqb id messageId); reflexivity.
Qed.

Lemma tick_core (st : ChatState) :
  map core (messages (tick st)) = map core (messages st).
Proof.
  unfold tick. destruct (typingInterval st) as [t|]; [|reflexivity].
  destruct (Nat.ltb _ _); simpl; [|reflexivity].
  apply core_updateMessage_display; reflexivity.
Qed.

Lemma typingEffect_core (st : ChatState) :
  map core (messages (typingEffect st)) = map core (messages st).
Proof.
  unfold typingEffect. destruct (last (messages st)) as [m|]; [|reflexivity].
  destruct (negb (String.eqb (msg_role m) "bot")); [reflexivity|].
  destruct (_ && _ && msg_isStreaming m); [reflexivity|].
  destruct (negb (msg_isStreaming m) && _ && _); [|reflexivity].
  simpl. apply core_updateMessage_display; reflexivity.
Qed.

Lemma core_applyFrames (botMessageId : string) (frames : list Frame)
    (msgs : list Message) :
  map core (applyFrames botMessageId frames msgs)
  = map (coreFrames botMessageId frames) (map core msgs).
Proof.
  unfold applyFrames, coreFrames. revert msgs.
  induction frames as [|f frames IH]; intros msgs; simpl.
  - rewrite map_id. reflexivity.
  - rewrite IH, core_updateMessage, map_map. reflexivity.
Qed.

Lemma run_app (JSON_parse : string -> option jsval) (botMessageId : string)
    (evs1 evs2 : list Event) (st : ChatState) :
  run JSON_parse botMessageId (evs1 ++ evs2) st
  = match run JSON_parse botMessageId evs1 st with
    | Some st' => run JSON_parse botMessageId evs2 st'
    | None => None
    end.
Proof.
  revert st. induction evs1 as [|ev evs1 IH]; intros st; simpl; [reflexivity|].
  destruct (step JSON_parse botMessageId ev st); [apply IH | reflexivity].
Qed.

(** Whatever the animator does in between, the answer and the streaming
    flag after a trace are those the ingested frames produce. *)
Lemma run_core (JSON_parse : string -> option jsval) (botMessageId : string)
    (evs : list Event) (frames : list Frame) :
  traceFrames JSON_parse evs frames ->
  forall (st0 : ChatState) (msgs0 : list Message),
    map core (messages st0) = map core msgs0 ->
    exists st, run JSON_parse botMessageId evs st0 = Some st
               /\ map core (messages st)
                  = map core (applyFrames botMessageId frames msgs0).
Proof.
  induction 1 as [|line f evs fs Hc _ IH|line evs fs Hs _ IH|evs fs _ IH|evs fs _ IH];
    intros st0 msgs0 Hcore; simpl.
  - exists st0. split; [reflexivity | exact Hcore].
  - rewrite (processLine_carries _ _ _ f _ Hc).
    apply (IH _ (updateMessage botMessageId (frameUpdates f) msgs0)).
    simpl. rewrite !core_updateMessage, Hcore. reflexivity.
  - rewrite (processLine_skipped _ _ _ _ Hs).
    apply (IH _ msgs0). exact Hcore.
  - apply (IH _ msgs0). rewrite tick_core. exact Hcore.
  - apply (IH _ msgs0). rewrite typingEffect_core. exact Hcore.
Qed.

(** The loop over the lines of a chunk computes [applyFrames]. *)
Lemma processLines_frames (JSON_parse : string -> option jsval)
    (botMessageId : string) (lines : list string) (frames : list Frame) :
  linesFrames JSON_parse lines frames ->
  forall msgs : list Message,
    processLines JSON_parse botMessageId lines msgs
    = Some (applyFrames botMessageId frames msgs).
Proof.
  induction 1 as [|line f lines fs Hc _ IH|line lines fs Hs _ IH]; intros msgs; simpl.
  - reflexivity.
  - rewrite (processLine_carries _ _ _ f _ Hc). apply IH.
  - rewrite (processLine_skipped _ _ _ _ Hs). apply IH.
Qed.

Lemma processChunks_frames (JSON_parse : string -> option jsval)
    (botMessageId : string) (chunks : list string) (framess : list (list Frame)) :
  Forall2 (fun chunk fs => linesFrames JSON_parse (JsString.splitLines chunk) fs)
          chunks framess ->
  forall msgs : list Message,
    processChunks JSON_parse botMessageId chunks msgs
    = Some (applyFrames botMessageId (concat framess) msgs).
Proof.
  induction 1 as [|chunk fs chunks framess Hc _ IH]; intros msgs; simpl.
  - reflexivity.
  - unfold processChunk. rewrite (processLines_frames _ _ _ _ Hc).
    rewrite IH. unfold applyFrames. rewrite fold_left_app. reflexivity.
Qed.

Lemma coreFrames_shape (botMessageId : string) (frames : list Frame) :
  forall (role answer : string) (streaming : bool),
  exists answer' streaming',
    coreFrames botMessageId frames (botMessageId, role, answer, streaming)
    = (botMessageId, role, answer', streaming')
    /\ answer' = default answer (lastText frames).
Proof.
  unfold coreFrames.
  induction frames as [|f frames IH]; intros role answer streaming; simpl.
  - eauto.
  - rewrite String.eqb_refl.
    destruct (IH role (default answer (upd_answer (frameUpdates f)))
                 (default streaming (upd_isStreaming (frameUpdates f))))
      as (a' & s' & Heq & Ha).
    exists a', s'. split; [exact Heq|].
    rewrite Ha. destruct (lastText frames); [reflexivity|].
    destruct f; reflexivity.
Qed.

Lemma coreFrames_done (botMessageId : string) (frames : list Frame)
    (role answer : string) (streaming : bool) :
  coreFrames botMessageId (frames ++ [DoneFrame]) (botMessageId, role, answer, streaming)
  = (botMessageId, role, default answer (lastText frames), false).
Proof.
  destruct (coreFrames_shape botMessageId frames role answer streaming)
    as (a' & s' & Heq & ->).
  unfold coreFrames in *. rewrite fold_left_app, Heq.
  simpl. rewrite String.eqb_refl. reflexivity.
Qed.

Lemma core_lookup (msgs1 msgs2 : list Message) (i : nat) (m : Message) :
  map core msgs1 = map core msgs2 -> msgs2 !! i = Some m ->
  exists m', msgs1 !! i = Some m' /\ core m' = core m.
Proof.
  intros Hcore Hi.
  assert (H : map core msgs1 !! i = Some (core m)).
  { rewrite Hcore. change (map core msgs2) with (core <$> msgs2).
    rewrite list_lookup_fmap, Hi. reflexivity. }
  change (map core msgs1) with (core <$> msgs1) in H.
  rewrite list_lookup_fmap in H.
  destruct (msgs1 !! i) as [m'|]; [|discriminate].
  exists m'. split; [reflexivity|]. simpl in H. congruence.
Qed.

Lemma applyFrames_length (botMessageId : string) (frames : list Frame)
    (msgs : list Message) :
  length (applyFrames botMessageId frames msgs) = length msgs.
Proof.
  unfold applyFrames. revert msgs.
  induction frames as [|f frames IH]; intros msgs; simpl; [reflexivity|].
  rewrite IH. apply updateMessage_length.
Qed.

(** After the effect has run on a finished bot message with a non-empty
    answer, the last message shows the whole answer. *)
Lemma typingEffect_snaps (st : ChatState) (i : nat) (m : Message) :
  messages st !! i = Some m -> S i = length (messages st) ->
  msg_role m = "bot" -> msg_isStreaming m = false ->
  JsString.truthy (msg_answer m) = true ->
  exists m', messages (typingEffect st) !! i = Some m'
             /\ msg_displayedAnswer m' = msg_answer m
             /\ typingInterval (typingEffect st) = None.
Proof.
  intros Hi Hlast Hrole Hstream Htruthy.
  assert (Hl : last (messages st) = Some m).
  { rewrite last_lookup. rewrite <- Hlast. simpl. exact Hi. }
  unfold typingEffect. rewrite Hl, Hrole, Hstream, Htruthy. simpl.
  rewrite andb_false_r. simpl.
  destruct (String.eqb (msg_displayedAnswer m) (msg_answer m)) eqn:E; simpl.
  - apply String.eqb_eq in E. exists m. auto.
  - eexists. split; [apply (updateMessage_hit _ _ _ _ m Hi eq_refl)|].
    split; reflexivity.
Qed.

(** C1. A stream whose frames are well-formed, with at least one text
    frame and a done frame at the end, leaves the bot message showing
    the data of the last text frame: whatever the typing interval and the
    effect did in between, once the effect has run after the last line the
    message's answer is that data, the bubble renders it, streaming is
    off, and for the last message of the list with a non-empty text the
    animated copy has been snapped to it too. *)
Theorem final_text_is_last_text_frame (JSON_parse : string -> option jsval)
    (botMessageId : string) (evs : list Event) (frames : list Frame)
    (d : string) (st0 : ChatState) :
  traceFrames JSON_parse evs (frames ++ [DoneFrame]) ->
  lastText frames = Some d ->
  exists st,
    run JSON_parse botMessageId (evs ++ [EvEffect]) st0 = Some st
    /\ forall (i : nat) (m : Message),
         messages st0 !! i = Some m -> msg_id m = botMessageId ->
         msg_role m = "bot" ->
         exists m', messages st !! i = Some m'
                    /\ msg_answer m' = d
                    /\ displayText m' = d
                    /\ msg_isStreaming m' = false
                    /\ (S i = length (messages st0) -> d <> EmptyString ->
                        msg_displayedAnswer m' = d).
Proof.
  intros Hfr Hlast.
  destruct (run_core JSON_parse botMessageId evs _ Hfr st0 (messages st0) eq_refl)
    as (st1 & Hrun & Hcore).
  exists (typingEffect st1). split.
  { rewrite run_app, Hrun. reflexivity. }
  intros i m Hi Hid Hrole.
  assert (Hlen : length (messages st1) = length (messages st0)).
  { rewrite <- (length_map core (messages st1)), Hcore, length_map.
    apply applyFrames_length. }
  (* the message at [i] before the last effect run *)
  assert (H1 : exists m1, messages st1 !! i = Some m1
                          /\ core m1 = (botMessageId, "bot", d, false)).
  { rewrite core_applyFrames in Hcore.
    assert (Hc : map (coreFrames botMessageId (frames ++ [DoneFrame]))
                     (map core (messages st0)) !! i
                 = Some (botMessageId, "bot", d, false)).
    { rewrite map_map.
      change (map ?f (messages st0)) with (f <$> messages st0).
      rewrite list_lookup_fmap, Hi. simpl. unfold core at 1.
      rewrite Hid, Hrole, coreFrames_done, Hlast. reflexivity. }
    rewrite <- Hcore in Hc.
    change (map core (messages st1)) with (core <$> messages st1) in Hc.
    rewrite list_lookup_fmap in Hc.
    destruct (messages st1 !! i) as [m1|]; [|discriminate].
    exists m1. split; [reflexivity|]. simpl in Hc. congruence. }
  destruct H1 as (m1 & Hi1 & Hc1).
  destruct (core_lookup (messages (typingEffect st1)) (messages st1) i m1
              (typingEffect_core st1) Hi1) as (m' & Hi' & Hc').
  rewrite Hc1 in Hc'. unfold core in Hc', Hc1.
  injection Hc' as Hid' Hrole' Hans' Hstr'.
  injection Hc1 as Hid1 Hrole1 Hans1 Hstr1.
  exists m'. split; [exact Hi'|]. split; [exact Hans'|].
  split.
  { unfold displayText. rewrite Hrole', Hans'. simpl. destruct d; reflexivity. }
  split; [exact Hstr'|].
  intros Hlast_i Hne.
  assert (Htruthy : JsString.truthy (msg_answer m1) = true).
  { rewrite Hans1. destruct d; [congruence | reflexivity]. }
  rewrite <- Hlen in Hlast_i.
  destruct (typingEffect_snaps st1 i m1 Hi1 Hlast_i Hrole1 Hstr1 Htruthy)
    as (m2 & Hi2 & Hdisp & _).
  rewrite Hi2 in Hi'. injection Hi' as <-. rewrite Hdisp. exact Hans1.
Qed.

Lemma final_text_is_last_text_frame_witness :
  exists st,
    run sampleParse "bot-1" (sampleTrace ++ [EvEffect]) sampleChat = Some st
    /\ forall (i : nat) (m : Message),
         messages sampleChat !! i = Some m -> msg_id m = "bot-1" ->
         msg_role m = "bot" ->
         exists m', messages st !! i = Some m'
                    /\ msg_answer m' = "Hi"
                    /\ displayText m' = "Hi"
                    /\ msg_isStreaming m' = false
                    /\ (S i = length (messages sampleChat) -> "Hi" <> EmptyString ->
                        msg_displayedAnswer m' = "Hi").
Proof.
  apply (final_text_is_last_text_frame sampleParse "bot-1" sampleTrace
           [TextFrame "Hi"] "Hi" sampleChat).
  - unfold sampleTrace.
    apply trace_frame.
    { split; [reflexivity|]. eexists. split; [reflexivity|]. split; reflexivity. }
    apply trace_skip; [left; reflexivity|].
    apply trace_effect, trace_tick, trace_effect.
    apply trace_frame; [|apply trace_nil].
    split; [reflexivity|]. eexists. split; [reflexivity|]. split; [reflexivity | exact I].
  - reflexivity.
Defined.

(** The sample run, evaluated: one character is revealed by the tick and
    the done frame snaps the rest. *)
Example sample_run_shows_Hi :
  (fun st => (msg_answer <$> last (messages st),
              msg_displayedAnswer <$> last (messages st),
              typingInterval st))
    <$> run sampleParse "bot-1" (sampleTrace ++ [EvEffect]) sampleChat
  = Some (Some "Hi", Some "Hi", None)
  /\ (fun st => msg_displayedAnswer <$> last (messages st))
       <$> run sampleParse "bot-1" (take 4 sampleTrace) sampleChat
     = Some (Some "H").
Proof. split; vm_compute; reflexivity. Qed.

(** A whole response read chunk by chunk: the text frame, then the done
    frame; the blank line after each newline is passed over. *)
Example sample_response_is_ingested :
  (fun msgs => (msg_answer <$> last msgs, msg_isStreaming <$> last msgs,
                msg_isThinking <$> last msgs))
    <$> streamResponse sampleParse "bot-1"
          (FetchResponse true [sampleChunk; doneChunk] false) sampleMessages
  = Some (Some "Hi", Some false, Some false)
  /\ JsString.splitLines sampleChunk
     = [("data: " ++ jsonText "text" "Hi")%string; EmptyString].
Proof. split; vm_compute; reflexivity. Qed.

(** ** Ingestion: the error path *)

Lemma processLine_ids (JSON_parse : string -> option jsval)
    (botMessageId line : string) (msgs msgs' : list Message) :
  processLine JSON_parse botMessageId line msgs = Some msgs' ->
  map msg_id msgs' = map msg_id msgs.
Proof.
  unfold processLine.
  destruct (JsString.startsWith _ _); [|intros [= <-]; reflexivity].
  destruct (parseJson JSON_parse _) as [v|e]; simpl; [|intros [= <-]; reflexivity].
  destruct (frameAction v) as [[u| |]|e]; simpl; intros [= <-];
    auto using updateMessage_ids.
Qed.

Lemma processLines_ids (JSON_parse : string -> option jsval)
    (botMessageId : string) (lines : list string) :
  forall msgs msgs' : list Message,
    processLines JSON_parse botMessageId lines msgs = Some msgs' ->
    map msg_id msgs' = map msg_id msgs.
Proof.
  induction lines as [|line lines IH]; intros msgs msgs'; simpl.
  - intros [= <-]. reflexivity.
  - destruct (processLine _ _ line msgs) as [msgs1|] eqn:E; [|discriminate].
    intros H. rewrite (IH _ _ H). eapply processLine_ids; eauto.
Qed.

Lemma processChunks_ids (JSON_parse : string -> option jsval)
    (botMessageId : string) (chunks : list string) :
  forall msgs msgs' : list Message,
    processChunks JSON_parse botMessageId chunks msgs = Some msgs' ->
    map msg_id msgs' = map msg_id msgs.
Proof.
  induction chunks as [|chunk chunks IH]; intros msgs msgs'; simpl.
  - intros [= <-]. reflexivity.
  - destruct (processChunk _ _ chunk msgs) as [msgs1|] eqn:E; [|discriminate].
    intros H. rewrite (IH _ _ H). eapply processLines_ids; eauto.
Qed.

Lemma ids_lookup (msgs1 msgs2 : list Message) (i : nat) (m : Message) :
  map msg_id msgs1 = map msg_id msgs2 -> msgs2 !! i = Some m ->
  exists m', msgs1 !! i = Some m' /\ msg_id m' = msg_id m.
Proof.
  intros Hids Hi.
  assert (H : map msg_id msgs1 !! i = Some (msg_id m)).
  { rewrite Hids. change (map msg_id msgs2) with (msg_id <$> msgs2).
    rewrite list_lookup_fmap, Hi. reflexivity. }
  change (map msg_id msgs1) with (msg_id <$> msgs1) in H.
  rewrite list_lookup_fmap in H.
  destruct (msgs1 !! i) as [m'|]; [|discriminate].
  exists m'. split; [reflexivity|]. simpl in H. congruence.
Qed.

(** C7. When the request fails (fetch rejects, the response is not ok, or
    reading the stream rejects) the placeholder is rewritten: answer and
    displayedAnswer are the fixed apology, isStreaming and isThinking are
    false and isError is true. *)
Theorem connection_error_rewrites_placeholder
    (JSON_parse : string -> option jsval) (botMessageId : string)
    (net : FetchOutcome) (msgs : list Message) (i : nat) (m : Message) :
  requestFails net ->
  (forall chunks, net = FetchResponse true chunks true ->
                  is_Some (processChunks JSON_parse botMessageId chunks msgs)) ->
  msgs !! i = Some m -> msg_id m = botMessageId ->
  exists msgs' m',
    streamResponse JSON_parse botMessageId net msgs = Some msgs'
    /\ msgs' !! i = Some m'
    /\ msg_answer m' = "Sorry, a connection error occurred. Please try again."
    /\ msg_displayedAnswer m' = "Sorry, a connection error occurred. Please try again."
    /\ msg_isStreaming m' = false
    /\ msg_isThinking m' = false
    /\ msg_isError m' = true.
Proof.
  intros Hfail Htyped Hi Hid.
  assert (Herr : forall msgs1 : list Message,
             map msg_id msgs1 = map msg_id msgs ->
             exists m', updateMessage botMessageId errorUpdates msgs1 !! i = Some m'
               /\ msg_answer m' = ERROR_TEXT /\ msg_displayedAnswer m' = ERROR_TEXT
               /\ msg_isStreaming m' = false /\ msg_isThinking m' = false
               /\ msg_isError m' = true).
  { intros msgs1 Hids.
    destruct (ids_lookup msgs1 msgs i m Hids Hi) as (m1 & Hi1 & Hid1).
    exists (spread m1 errorUpdates). split.
    - apply updateMessage_hit; congruence.
    - repeat split. }
  destruct net as [|[|] chunks readFails]; simpl in *.
  - destruct (Herr msgs eq_refl) as (m' & H). eauto.
  - destruct Hfail as [Hf | ->]; [discriminate|].
    destruct (Htyped chunks eq_refl) as [msgs1 Hproc]. rewrite Hproc.
    destruct (Herr msgs1 (processChunks_ids _ _ _ _ _ Hproc)) as (m' & H). eauto.
  - destruct (Herr msgs eq_refl) as (m' & H). eauto.
Qed.

Lemma connection_error_rewrites_placeholder_witness :
  exists msgs' m',
    streamResponse sampleParse "bot-1"
      (FetchResponse true [sampleChunk] true)
      sampleMessages = Some msgs'
    /\ msgs' !! 2 = Some m'
    /\ msg_answer m' = "Sorry, a connection error occurred. Please try again."
    /\ msg_displayedAnswer m' = "Sorry, a connection error occurred. Please try again."
    /\ msg_isStreaming m' = false
    /\ msg_isThinking m' = false
    /\ msg_isError m' = true.
Proof.
  apply (connection_error_rewrites_placeholder sampleParse "bot-1" _ sampleMessages 2
           (ChatApp.botMessage "bot-1" "2024-01-01T00:00:01.000Z")).
  - right; reflexivity.
  - intros chunks [= <-]. vm_compute. eauto.
  - reflexivity.
  - reflexivity.
Defined.

(** ** The typing animator *)

Lemma prefix_refl (s : string) : String.prefix s s = true.
Proof.
  induction s as [|c s IH]; simpl; [reflexivity|].
  destruct (ascii_dec c c); [exact IH | congruence].
Qed.

Lemma prefix_proper_len (d a : string) :
  String.prefix d a = true -> d <> a -> JsString.len d < JsString.len a.
Proof.
  intros Hp Hne. pose proof (prefix_len d a Hp) as Hle.
  destruct (Nat.eq_dec (JsString.len d) (JsString.len a)) as [E|E]; [|lia].
  exfalso. apply Hne. rewrite <- (prefix_take d a Hp). apply take_all. lia.
Qed.

Lemma last_updateMessage (messageId : string) (u : MessageUpdates)
    (msgs : list Message) :
  last (updateMessage messageId u msgs)
  = (fun m => if String.eqb (msg_id m) messageId then spread m u else m) <$> last msgs.
Proof. unfold updateMessage. apply fmap_last. Qed.

Lemma eqb_neq_false (a b : string) : a <> b -> String.eqb a b = false.
Proof. apply String.eqb_neq. Qed.

Lemma truthy_of_prefix (d a : string) :
  String.prefix d a = true -> d <> a -> JsString.truthy a = true.
Proof.
  intros Hp Hne. apply truthy_len. pose proof (prefix_proper_len d a Hp Hne). lia.
Qed.

Lemma take_neq_len (n : nat) (a : string) :
  n < JsString.len a -> JsString.take n a <> a.
Proof.
  intros Hlt Heq. pose proof (take_len n a) as Hl. rewrite Heq in Hl. lia.
Qed.

(** The effect on a streaming bot message that still has text to reveal
    starts an interval at the length of what is shown. *)
Lemma typingEffect_starts (st : ChatState) (m : Message) :
  last (messages st) = Some m -> msg_role m = "bot" ->
  msg_isStreaming m = true -> JsString.truthy (msg_answer m) = true ->
  msg_displayedAnswer m <> msg_answer m ->
  typingEffect st
  = mkChat (messages st)
      (Some (mkTimer (msg_answer m) (msg_id m) (JsString.len (msg_displayedAnswer m)))).
Proof.
  intros Hl Hrole Hstr Htr Hne. unfold typingEffect.
  rewrite Hl, Hrole, Hstr, Htr, (eqb_neq_false _ _ Hne). simpl.
  destruct (msg_displayedAnswer m); reflexivity.
Qed.

(** The effect on a streaming bot message that shows its whole answer
    leaves no interval. *)
Lemma typingEffect_caught_up (st : ChatState) (m : Message) :
  last (messages st) = Some m -> msg_role m = "bot" ->
  msg_isStreaming m = true -> msg_displayedAnswer m = msg_answer m ->
  typingEffect st = mkChat (messages st) None.
Proof.
  intros Hl Hrole Hstr Heq. unfold typingEffect.
  rewrite Hl, Hrole, Hstr, Heq. simpl. rewrite String.eqb_refl.
  destruct (JsString.truthy (msg_answer m)); reflexivity.
Qed.

Lemma tick_reveals (a id : string) (n0 k : nat) (s : ChatState) :
  animating a id n0 k s -> n0 + k < JsString.len a ->
  animating a id n0 (S k) (tick s).
Proof.
  intros (mk & Hl & Hid & Hrole & Hstr & Hans & Hdisp & Htimer) Hlt.
  destruct Htimer as [Ht | [Heq _]]; [|lia].
  unfold tick. rewrite Ht. simpl.
  apply Nat.ltb_lt in Hlt. rewrite Hlt.
  exists (spread mk (displayedUpdates (JsString.take (n0 + k + 1) a))).
  simpl. rewrite last_updateMessage, Hl. simpl. rewrite Hid, String.eqb_refl.
  replace (n0 + S k) with (n0 + k + 1) by lia.
  repeat split; auto.
Qed.

Lemma tickAndRender_reveals (a id : string) (n0 k : nat) (s : ChatState) :
  animating a id n0 k s -> n0 + k < JsString.len a ->
  animating a id n0 (S k) (tickAndRender s).
Proof.
  intros Hs Hlt. pose proof (tick_reveals a id n0 k s Hs Hlt) as Ht.
  destruct Hs as (mk & _ & _ & _ & _ & _ & _ & Htimer).
  destruct Htimer as [Htm | [Heq _]]; [|lia].
  unfold tickAndRender. rewrite Htm. simpl.
  pose proof Hlt as Hlt'. apply Nat.ltb_lt in Hlt'. rewrite Hlt'.
  destruct Ht as (m1 & Hl & Hid & Hrole & Hstr & Hans & Hdisp & _).
  destruct (Nat.eq_dec (n0 + S k) (JsString.len a)) as [E|E].
  - assert (Hfull : msg_displayedAnswer m1 = msg_answer m1).
    { rewrite Hdisp, Hans. apply take_all. lia. }
    rewrite (typingEffect_caught_up _ m1 Hl Hrole Hstr Hfull).
    exists m1. simpl. repeat split; auto.
  - assert (Hne : msg_displayedAnswer m1 <> msg_answer m1).
    { rewrite Hdisp, Hans. apply take_neq_len. lia. }
    assert (Htr : JsString.truthy (msg_answer m1) = true).
    { rewrite Hans. apply truthy_len. lia. }
    rewrite (typingEffect_starts _ m1 Hl Hrole Hstr Htr Hne).
    exists m1. simpl. repeat split; auto.
    left. rewrite Hans, Hid, Hdisp, take_len. f_equal. f_equal. lia.
Qed.

Lemma animate_reveals (a id : string) (n0 : nat) (renders : list bool) :
  forall (k : nat) (s : ChatState),
    animating a id n0 k s -> n0 + k + length renders <= JsString.len a ->
    animating a id n0 (k + length renders) (animate renders s).
Proof.
  unfold animate.
  induction renders as [|r renders IH]; intros k s Hs Hle; simpl in *.
  - rewrite Nat.add_0_r. exact Hs.
  - replace (k + S (length renders)) with (S k + length renders) by lia.
    apply IH; [|lia].
    destruct r; [apply tickAndRender_reveals | apply tick_reveals]; auto; lia.
Qed.

(** Once everything is shown, the next firing only clears the interval. *)
Lemma animate_stops (a id : string) (n0 k : nat) (s : ChatState) (r : bool) :
  animating a id n0 k s -> n0 + k = JsString.len a ->
  messages (animate [r] s) = messages s /\ typingInterval (animate [r] s) = None.
Proof.
  intros (mk & _ & _ & _ & _ & _ & _ & Htimer) Heq.
  unfold animate, tickAndRender, tick. simpl.
  destruct Htimer as [Ht | [_ Ht]]; rewrite Ht; simpl.
  - rewrite Heq, Nat.ltb_irrefl. destruct r; simpl; rewrite ?Ht; simpl;
      rewrite ?Nat.ltb_irrefl; auto.
  - destruct r; rewrite ?Ht; auto.
Qed.

Lemma animate_app (r1 r2 : list bool) (s : ChatState) :
  animate (r1 ++ r2) s = animate r2 (animate r1 s).
Proof. unfold animate. apply fold_left_app. Qed.

Lemma animate_idle (renders : list bool) (s : ChatState) :
  typingInterval s = None -> animate renders s = s.
Proof.
  intros Hnone. unfold animate.
  induction renders as [|r renders IH]; simpl; [reflexivity|].
  assert (Hstep : (if r then tickAndRender s else tick s) = s).
  { unfold tickAndRender, tick. rewrite Hnone. destruct r; reflexivity. }
  rewrite Hstep. exact IH.
Qed.

(** C5, as the code has it.  For a bot message at the end of the list
    whose displayedAnswer differs from its answer: while it streams and
    displayedAnswer is a prefix of answer, the effect starts one interval
    at the length shown; every firing, rendered or not, reveals exactly one
    more character of answer; when all of it is shown the next firing
    changes nothing and leaves no interval.  When it does not stream and
    answer is not empty, the effect sets displayedAnswer to the whole
    answer in one update and leaves no interval. *)
Theorem typing_animation_reveals_answer (st : ChatState) (m : Message) :
  last (messages st) = Some m ->
  msg_role m = "bot" ->
  msg_displayedAnswer m <> msg_answer m ->
  (msg_isStreaming m = true ->
   String.prefix (msg_displayedAnswer m) (msg_answer m) = true ->
   typingEffect st
   = mkChat (messages st)
       (Some (mkTimer (msg_answer m) (msg_id m) (JsString.len (msg_displayedAnswer m))))
   /\ (forall renders : list bool,
         JsString.len (msg_displayedAnswer m) + length renders
           <= JsString.len (msg_answer m) ->
         exists mk,
           last (messages (animate renders (typingEffect st))) = Some mk
           /\ msg_answer mk = msg_answer m
           /\ msg_displayedAnswer mk
              = JsString.take (JsString.len (msg_displayedAnswer m) + length renders)
                              (msg_answer m)
           /\ JsString.len (msg_displayedAnswer mk)
              = JsString.len (msg_displayedAnswer m) + length renders)
   /\ (forall (renders : list bool) (r : bool),
         JsString.len (msg_displayedAnswer m) + length renders
           = JsString.len (msg_answer m) ->
         (exists mk,
            last (messages (animate renders (typingEffect st))) = Some mk
            /\ msg_displayedAnswer mk = msg_answer m)
         /\ messages (animate (renders ++ [r]) (typingEffect st))
            = messages (animate renders (typingEffect st))
         /\ typingInterval (animate (renders ++ [r]) (typingEffect st)) = None))
  /\ (msg_isStreaming m = false ->
      JsString.truthy (msg_answer m) = true ->
      typingEffect st
      = mkChat (updateMessage (msg_id m) (displayedUpdates (msg_answer m)) (messages st))
               None
      /\ exists m', last (messages (typingEffect st)) = Some m'
                    /\ msg_displayedAnswer m' = msg_answer m).
Proof.
  intros Hl Hrole Hne. split.
  - intros Hstr Hpre.
    pose proof (truthy_of_prefix _ _ Hpre Hne) as Htr.
    pose proof (typingEffect_starts st m Hl Hrole Hstr Htr Hne) as Hstart.
    assert (H0 : animating (msg_answer m) (msg_id m)
                   (JsString.len (msg_displayedAnswer m)) 0 (typingEffect st)).
    { rewrite Hstart. exists m. simpl. rewrite Nat.add_0_r.
      repeat split; auto. symmetry. apply prefix_take. exact Hpre. }
    split; [exact Hstart|]. split.
    + intros renders Hle.
      destruct (animate_reveals _ _ _ renders 0 _ H0) as
        (mk & Hlk & _ & _ & _ & Hans & Hdisp & _); [lia|].
      simpl in Hdisp. exists mk. repeat split; auto.
      rewrite Hdisp, take_len. lia.
    + intros renders r Heq.
      pose proof (animate_reveals _ _ _ renders 0 _ H0) as Hn.
      simpl in Hn. specialize (Hn ltac:(lia)).
      destruct (animate_stops _ _ _ _ _ r Hn Heq) as [Hm Ht].
      rewrite animate_app. split; [|split; assumption].
      destruct Hn as (mk & Hlk & _ & _ & _ & Hans & Hdisp & _).
      exists mk. split; [exact Hlk|]. rewrite Hdisp. apply take_all. lia.
  - intros Hstr Htr.
    assert (Heff : typingEffect st
                   = mkChat (updateMessage (msg_id m) (displayedUpdates (msg_answer m))
                                           (messages st)) None).
    { unfold typingEffect.
      rewrite Hl, Hrole, Hstr, Htr, (eqb_neq_false _ _ Hne). reflexivity. }
    split; [exact Heff|]. rewrite Heff. simpl.
    rewrite last_updateMessage, Hl. simpl. rewrite String.eqb_refl.
    eexists. split; reflexivity.
Qed.

Lemma typing_animation_reveals_answer_witness :
  (exists mk,
     last (messages (animate [true; false; true] (typingEffect typingChat))) = Some mk
     /\ msg_displayedAnswer mk = "Hello")
  /\ (exists m', last (messages (typingEffect finishedChat)) = Some m'
                 /\ msg_displayedAnswer m' = "Hello").
Proof.
  split.
  - destruct (typing_animation_reveals_answer typingChat
                (mkMessage "bot-1" "bot" EmptyString "Hello" "He" JNull JNull JNull
                           true false false "2024-01-01T00:00:01.000Z"))
      as [Hstream _]; [reflexivity | reflexivity | discriminate |].
    destruct (Hstream eq_refl eq_refl) as (_ & _ & Hend).
    destruct (Hend [true; false; true] true eq_refl) as [Hshown _].
    exact Hshown.
  - destruct (typing_animation_reveals_answer finishedChat
                (mkMessage "bot-1" "bot" EmptyString "Hello" "He" JNull JNull JNull
                           false false false "2024-01-01T00:00:01.000Z"))
      as [_ Hsnap]; [reflexivity | reflexivity | discriminate |].
    destruct (Hsnap eq_refl eq_refl) as [_ Hshown]. exact Hshown.
Defined.

(** The animation step by step on the sample state. *)
Example typing_steps :
  map (fun n => msg_displayedAnswer <$> last (messages (animate (repeat true n)
                                                         (typingEffect typingChat))))
      [0; 1; 2; 3; 4]
  = [Some "He"; Some "Hel"; Some "Hell"; Some "Hello"; Some "Hello"]
  /\ typingInterval (animate (repeat true 3) (typingEffect typingChat)) = None
  /\ typingInterval (animate (repeat false 3) (typingEffect typingChat))
     = Some (mkTimer "Hello" "bot-1" 5)
  /\ typingInterval (animate (repeat false 4) (typingEffect typingChat)) = None.
Proof. repeat split. Qed.

(** C5 as stated fails in two states the stream can produce.  A streaming
    bot message whose answer was replaced by the shorter text "Hi" while
    "Hello" was shown: the interval the effect starts clears itself at its
    first firing and "Hello" stays, however often it fires.  A finished bot
    message whose last text was empty while "ab" was shown: the effect does
    not touch it. *)
Lemma typing_animation_counterexample :
  (msg_role <$> last (messages shrunkChat) = Some "bot"
   /\ msg_isStreaming <$> last (messages shrunkChat) = Some true
   /\ msg_answer <$> last (messages shrunkChat) = Some "Hi"
   /\ msg_displayedAnswer <$> last (messages shrunkChat) = Some "Hello"
   /\ ~ (exists renders : list bool,
           msg_displayedAnswer
             <$> last (messages (animate renders (typingEffect shrunkChat)))
           = Some "Hi"))
  /\ (msg_role <$> last (messages emptiedChat) = Some "bot"
      /\ msg_isStreaming <$> last (messages emptiedChat) = Some false
      /\ msg_answer <$> last (messages emptiedChat) = Some EmptyString
      /\ msg_displayedAnswer <$> last (messages (typingEffect emptiedChat))
         = Some "ab").
Proof.
  split; [|repeat split].
  do 4 (split; [reflexivity|]).
  intros [renders H].
  destruct renders as [|r renders].
  - vm_compute in H. discriminate.
  - change (animate (r :: renders) (typingEffect shrunkChat))
      with (animate renders (animate [r] (typingEffect shrunkChat))) in H.
    rewrite animate_idle in H by (destruct r; reflexivity).
    destruct r; vm_compute in H; discriminate.
Qed.

(** ** The displayed text is a prefix of the answer *)

Lemma tick_sets_slice (s : ChatState) (t : Timer) (i : nat) (m : Message) :
  typingInterval s = Some t ->
  currentIndex t < JsString.len (timer_answer t) ->
  messages s !! i = Some m -> msg_id m = timer_id t ->
  exists m', messages (tick s) !! i = Some m'
             /\ msg_displayedAnswer m'
                = JsString.take (currentIndex t + 1) (timer_answer t)
             /\ msg_answer m' = msg_answer m.
Proof.
  intros Ht Hlt Hi Hid. unfold tick. rewrite Ht.
  apply Nat.ltb_lt in Hlt. rewrite Hlt. simpl.
  eexists. split; [apply (updateMessage_hit _ _ _ _ m Hi Hid)|].
  split; reflexivity.
Qed.

Lemma tick_showsPrefix (a id : string) (s : ChatState) :
  showsPrefix a id s -> showsPrefix a id (tick s).
Proof.
  intros (mk & Hl & Hid & Hrole & Hstr & Hans & Hpre & Htimer).
  unfold tick. destruct (typingInterval s) as [t|] eqn:Ht.
  - destruct (Htimer t eq_refl) as [Hta Hti].
    destruct (Nat.ltb _ _).
    + exists (spread mk (displayedUpdates (JsString.take (currentIndex t + 1) (timer_answer t)))).
      simpl. rewrite last_updateMessage, Hl. simpl.
      rewrite Hti, Hid, String.eqb_refl, Hta.
      split_conj; auto using take_prefix.
      intros t' [= <-]. auto.
    + exists mk. simpl. split_conj; auto; intros t' [=].
  - exists mk. rewrite Ht. split_conj; auto; intros t' [=].
Qed.

Lemma typingEffect_showsPrefix (a id : string) (s : ChatState) :
  showsPrefix a id s -> showsPrefix a id (typingEffect s).
Proof.
  intros (mk & Hl & Hid & Hrole & Hstr & Hans & Hpre & _).
  unfold typingEffect. rewrite Hl, Hrole, Hstr. simpl.
  rewrite andb_true_r.
  destruct (JsString.truthy (msg_answer mk)
            && negb (String.eqb (msg_displayedAnswer mk) (msg_answer mk))).
  - exists mk. simpl. split_conj; auto. intros t' [= <-]. simpl. auto.
  - exists mk. simpl. split_conj; auto; intros t' [=].
Qed.

Lemma animate_showsPrefix (a id : string) (renders : list bool) :
  forall s : ChatState, showsPrefix a id s -> showsPrefix a id (animate renders s).
Proof.
  unfold animate. induction renders as [|r renders IH]; intros s Hs; simpl; [exact Hs|].
  apply IH. destruct r; [|apply tick_showsPrefix; exact Hs].
  unfold tickAndRender. destruct (typingInterval s) as [t|] eqn:Ht; [|exact Hs].
  pose proof (tick_showsPrefix a id s Hs) as Htick.
  destruct (Nat.ltb (currentIndex t) (JsString.len (timer_answer t))).
  - apply typingEffect_showsPrefix. exact Htick.
  - exact Htick.
Qed.

(** C9. A firing of the interval that finds text left sets
    displayedAnswer to answer.slice(0, currentIndex + 1) of the answer it
    captured.  Hence, when the animation starts on a streaming bot message
    whose displayedAnswer is a prefix of its answer and the answer is left
    alone, displayedAnswer is a prefix of answer after every firing,
    rendered or not. *)
Theorem displayed_stays_prefix (st : ChatState) (m : Message) (renders : list bool) :
  last (messages st) = Some m ->
  msg_role m = "bot" ->
  msg_isStreaming m = true ->
  String.prefix (msg_displayedAnswer m) (msg_answer m) = true ->
  (forall (s : ChatState) (t : Timer) (i : nat) (mi : Message),
     typingInterval s = Some t ->
     currentIndex t < JsString.len (timer_answer t) ->
     messages s !! i = Some mi -> msg_id mi = timer_id t ->
     exists m', messages (tick s) !! i = Some m'
                /\ msg_displayedAnswer m'
                   = JsString.take (currentIndex t + 1) (timer_answer t))
  /\ exists m',
       last (messages (animate renders (typingEffect st))) = Some m'
       /\ msg_answer m' = msg_answer m
       /\ String.prefix (msg_displayedAnswer m') (msg_answer m') = true.
Proof.
  intros Hl Hrole Hstr Hpre. split.
  - intros s t i mi Ht Hlt Hi Hid.
    destruct (tick_sets_slice s t i mi Ht Hlt Hi Hid) as (m' & H1 & H2 & _). eauto.
  - assert (H0 : showsPrefix (msg_answer m) (msg_id m) (mkChat (messages st) None)).
    { exists m. simpl. split_conj; auto; intros t [=]. }
    assert (H1 : showsPrefix (msg_answer m) (msg_id m) (typingEffect st)).
    { apply (typingEffect_showsPrefix _ _ (mkChat (messages st) None)) in H0.
      exact H0. }
    destruct (animate_showsPrefix _ _ renders _ H1)
      as (mk & Hlk & _ & _ & _ & Hans & Hp & _).
    exists mk. rewrite Hans. auto.
Qed.

Lemma displayed_stays_prefix_witness :
  exists m',
    last (messages (animate [false; true; false; false; true] (typingEffect typingChat)))
    = Some m'
    /\ msg_answer m' = "Hello"
    /\ String.prefix (msg_displayedAnswer m') (msg_answer m') = true.
Proof.
  destruct (displayed_stays_prefix typingChat
              (mkMessage "bot-1" "bot" EmptyString "Hello" "He" JNull JNull JNull
                         true false false "2024-01-01T00:00:01.000Z")
              [false; true; false; false; true])
    as [_ H]; [reflexivity | reflexivity | reflexivity | reflexivity |].
  exact H.
Defined.

(** ** Conversation titles *)

Lemma append_len (s1 s2 : string) :
  JsString.len (s1 ++ s2) = JsString.len s1 + JsString.len s2.
Proof.
  unfold JsString.len. induction s1 as [|c s1 IH]; simpl; [reflexivity|].
  rewrite IH. reflexivity.
Qed.

Lemma autoTitle_len (content : string) :
  JsString.len (LocalStorageService.autoTitle content)
  = if Nat.ltb 50 (JsString.len content) then 53 else JsString.len content.
Proof.
  unfold LocalStorageService.autoTitle. rewrite append_len, take_len.
  destruct (Nat.ltb 50 (JsString.len content)) eqn:E.
  - apply Nat.ltb_lt in E. rewrite Nat.min_l by lia. reflexivity.
  - apply Nat.ltb_ge in E. rewrite Nat.min_r by lia. apply Nat.add_0_r.
Qed.

Lemma findIndex_spec (id : string) (convs : list Conversation) (i : nat) :
  LocalStorageService.findIndex id convs = Some i ->
  exists c, convs !! i = Some c
            /\ LocalStorageService.findConversation id convs = Some c
            /\ conv_id c = id.
Proof.
  unfold LocalStorageService.findConversation.
  revert i. induction convs as [|c convs IH]; intros i; simpl; [discriminate|].
  destruct (String.eqb (conv_id c) id) eqn:E.
  - intros [= <-]. exists c. apply String.eqb_eq in E. auto.
  - destruct (LocalStorageService.findIndex id convs) as [j|]; [|discriminate].
    simpl. intros [= <-]. destruct (IH j eq_refl) as (c' & H1 & H2 & H3).
    exists c'. auto.
Qed.

Lemma titleKeptOrGenerated_refl (message : Message) (convs : list Conversation) :
  Forall2 (titleKeptOrGenerated message) convs convs.
Proof.
  induction convs; constructor; auto. split; auto.
Qed.

Lemma touchConversation_title (c : Conversation) (message : Message)
    (n : nat) (now : string) :
  titleKeptOrGenerated message c
    (LocalStorageService.touchConversation c message n now).
Proof.
  split; [reflexivity|]. simpl.
  destruct (String.eqb (conv_title c) "New Chat") eqn:E; simpl; [|auto].
  apply String.eqb_eq in E.
  destruct (String.eqb (msg_role message) "user" && JsString.truthy (msg_content message));
    auto.
Qed.

(** [storage.addMessage] on a conversation whose messages entry exists:
    it returns, appends the message to that entry, leaves the other
    entries alone and keeps every stored conversation, changing at most
    titles. *)
Lemma storage_addMessage_result (conversationId : string) (message : Message)
    (env : Env) (ls : LocalStorageService.LocalStorage) (stored : list Message) :
  LocalStorageService.getMessages ls conversationId = Some stored ->
  exists newMessage ls',
    LocalStorageService.addMessage conversationId message env ls
    = Ok (newMessage, ls')
    /\ Forall2 (titleKeptOrGenerated message)
         (LocalStorageService.getConversationsOrEmpty ls)
         (LocalStorageService.getConversationsOrEmpty ls')
    /\ msg_id newMessage
       = (if JsString.truthy (msg_id message) then msg_id message
          else env_messageId env)
    /\ LocalStorageService.getMessages ls' conversationId
       = Some (stored ++ [newMessage])
    /\ (forall k, k <> conversationId ->
          LocalStorageService.getMessages ls' k
          = LocalStorageService.getMessages ls k).
Proof.
  intros Hstored.
  unfold LocalStorageService.addMessage. rewrite Hstored.
  eexists _, _. split; [reflexivity|].
  set (convs := LocalStorageService.getConversationsOrEmpty ls).
  change (LocalStorageService.getConversationsOrEmpty
            (LocalStorageService.setMessagesItem conversationId _ ls)) with convs.
  assert (Hmsgs : forall l x k,
            LocalStorageService.getMessages
              (LocalStorageService.setConversationsItem l x) k
            = LocalStorageService.getMessages x k) by reflexivity.
  destruct (LocalStorageService.findIndex conversationId convs) as [i|] eqn:Ei.
  - destruct (findIndex_spec _ _ _ Ei) as (c & Hc & _ & _). rewrite Hc.
    change (LocalStorageService.getConversationsOrEmpty
              (LocalStorageService.setConversationsItem ?l _)) with l.
    rewrite !Hmsgs. split; [|split; [reflexivity|split]].
    + rewrite <- (list_insert_id convs i c Hc) at 1.
      apply Forall2_insert; [apply titleKeptOrGenerated_refl|].
      apply touchConversation_title.
    + unfold LocalStorageService.getMessages. simpl. apply lookup_insert_eq.
    + intros k Hk. unfold LocalStorageService.getMessages. simpl.
      apply lookup_insert_ne. congruence.
  - split; [apply titleKeptOrGenerated_refl|]. split; [reflexivity|]. split.
    + unfold LocalStorageService.getMessages. simpl. apply lookup_insert_eq.
    + intros k Hk. unfold LocalStorageService.getMessages. simpl.
      apply lookup_insert_ne. congruence.
Qed.

Lemma titleKeptOrGenerated_ids (message : Message) (convs convs' : list Conversation) :
  Forall2 (titleKeptOrGenerated message) convs convs' ->
  map conv_id convs' = map conv_id convs.
Proof.
  induction 1 as [|c c' convs convs' [Hid _] _ IH]; simpl; [reflexivity|].
  rewrite Hid, IH. reflexivity.
Qed.

Lemma findConversation_insert (id : string) (convs : list Conversation)
    (i : nat) (c' : Conversation) :
  LocalStorageService.findIndex id convs = Some i -> conv_id c' = id ->
  LocalStorageService.findConversation id (<[i := c']> convs) = Some c'.
Proof.
  unfold LocalStorageService.findConversation.
  revert i. induction convs as [|c convs IH]; intros i; simpl; [discriminate|].
  destruct (String.eqb (conv_id c) id) eqn:E.
  - intros [= <-] Hid. simpl. rewrite Hid, String.eqb_refl. reflexivity.
  - destruct (LocalStorageService.findIndex id convs) as [j|]; [|discriminate].
    simpl. intros [= <-] Hid. simpl. rewrite E. apply IH; auto.
Qed.

Lemma append_empty (s : string) : (s ++ EmptyString)%string = s.
Proof.
  induction s as [|c s IH]; [reflexivity|].
  change (String c (s ++ EmptyString)%string = String c s). f_equal. exact IH.
Qed.

(** The generated title, spelled out. *)
Lemma autoTitle_cases (content : string) :
  LocalStorageService.autoTitle content
  = if Nat.leb (JsString.len content) 50 then content
    else (JsString.take 50 content ++ "...")%string.
Proof.
  unfold LocalStorageService.autoTitle.
  destruct (Nat.leb (JsString.len content) 50) eqn:E.
  - apply Nat.leb_le in E.
    assert (H : Nat.ltb 50 (JsString.len content) = false) by (apply Nat.ltb_ge; lia).
    rewrite H, take_all by lia. apply append_empty.
  - apply Nat.leb_gt in E.
    assert (H : Nat.ltb 50 (JsString.len content) = true) by (apply Nat.ltb_lt; lia).
    rewrite H. reflexivity.
Qed.

Lemma truthy_nonempty (s : string) : JsString.truthy s = true <-> s <> EmptyString.
Proof. destruct s; simpl; split; intros; congruence. Qed.

(** The title [touchConversation] leaves: the generated one exactly when
    the conversation is still titled 'New Chat' and the message is a user
    message with content. *)
Lemma touchConversation_title_cases (c : Conversation) (message : Message)
    (n : nat) (now : string) :
  (conv_title c = "New Chat" -> msg_role message = "user" ->
   msg_content message <> EmptyString ->
   conv_title (LocalStorageService.touchConversation c message n now)
   = if Nat.leb (JsString.len (msg_content message)) 50 then msg_content message
     else (JsString.take 50 (msg_content message) ++ "...")%string)
  /\ (conv_title c <> "New Chat" \/ msg_role message <> "user"
      \/ msg_content message = EmptyString ->
      conv_title (LocalStorageService.touchConversation c message n now)
      = conv_title c).
Proof.
  simpl. split.
  - intros Ht Hr Hc. apply truthy_nonempty in Hc.
    rewrite Ht, Hr, Hc. simpl. apply autoTitle_cases.
  - intros [Ht|[Hr|Hc]].
    + apply String.eqb_neq in Ht. rewrite Ht. reflexivity.
    + apply String.eqb_neq in Hr. rewrite Hr, andb_false_r. reflexivity.
    + rewrite Hc, andb_false_r. reflexivity.
Qed.

(** The stored titles after [storage.addMessage], conversation by
    conversation. *)
Lemma storage_addMessage_titles (conversationId : string) (message : Message)
    (env : Env) (ls ls' : LocalStorageService.LocalStorage) (newMessage : Message)
    (j : nat) (c : Conversation) :
  LocalStorageService.addMessage conversationId message env ls
    = Ok (newMessage, ls') ->
  LocalStorageService.getConversationsOrEmpty ls !! j = Some c ->
  exists c',
    LocalStorageService.getConversationsOrEmpty ls' !! j = Some c'
    /\ (LocalStorageService.findIndex conversationId
          (LocalStorageService.getConversationsOrEmpty ls) = Some j ->
        conv_title c = "New Chat" -> msg_role message = "user" ->
        msg_content message <> EmptyString ->
        conv_title c'
        = if Nat.leb (JsString.len (msg_content message)) 50
          then msg_content message
          else (JsString.take 50 (msg_content message) ++ "...")%string)
    /\ (LocalStorageService.findIndex conversationId
          (LocalStorageService.getConversationsOrEmpty ls) <> Some j
        \/ conv_title c <> "New Chat" \/ msg_role message <> "user"
        \/ msg_content message = EmptyString ->
        conv_title c' = conv_title c).
Proof.
  unfold LocalStorageService.addMessage.
  destruct (LocalStorageService.getMessages ls conversationId) as [stored|];
    [|discriminate].
  set (convs := LocalStorageService.getConversationsOrEmpty ls).
  change (LocalStorageService.getConversationsOrEmpty
            (LocalStorageService.setMessagesItem conversationId _ ls)) with convs.
  destruct (LocalStorageService.findIndex conversationId convs) as [i|] eqn:Ei.
  - destruct (findIndex_spec _ _ _ Ei) as (ci & Hci & _ & _). rewrite Hci.
    intros [= _ <-] Hj.
    change (LocalStorageService.getConversationsOrEmpty
              (LocalStorageService.setConversationsItem ?l _)) with l.
    destruct (decide (i = j)) as [->|Hij].
    + assert (ci = c) by congruence. subst ci.
      eexists. split; [apply list_lookup_insert_eq; eapply lookup_lt_Some; exact Hj|].
      split.
      * intros _. apply touchConversation_title_cases.
      * intros [Hne|H]; [congruence|]. apply touchConversation_title_cases. exact H.
    + exists c. split; [rewrite list_lookup_insert_ne by exact Hij; exact Hj|].
      split; [intros [= H]; congruence | reflexivity].
  - intros [= _ <-] Hj. exists c. split; [exact Hj|].
    split; [discriminate | reflexivity].
Qed.

(** C2, as the code has it.  createConversation stores the first 50
    characters of the title it is given.  addMessage retitles one
    conversation at most: the first stored conversation with the id it is
    given, when that one is still titled 'New Chat' and the message is a
    user message with content.  Its title is then the content itself when
    the content has at most 50 characters, and otherwise the first 50
    characters of the content followed by '...', 53 characters in all.
    Every other stored title is left as it was.  updateConversation stores
    the title it is given as it is, whatever its length. *)
Theorem titles_as_stored :
  (forall (title : string) (env : Env) (ls : LocalStorageService.LocalStorage),
     conv_title (fst (LocalStorageService.createConversation title env ls))
       = JsString.take 50 title
     /\ JsString.len (conv_title (fst (LocalStorageService.createConversation title env ls)))
        <= 50
     /\ LocalStorageService.getConversations
          (snd (LocalStorageService.createConversation title env ls))
        = Some (fst (LocalStorageService.createConversation title env ls)
                  :: LocalStorageService.getConversationsOrEmpty ls))
  /\ (forall (conversationId : string) (message : Message) (env : Env)
             (ls : LocalStorageService.LocalStorage) (stored : list Message),
        LocalStorageService.getMessages ls conversationId = Some stored ->
        exists newMessage ls',
          LocalStorageService.addMessage conversationId message env ls
          = Ok (newMessage, ls')
          /\ Forall2 (titleKeptOrGenerated message)
               (LocalStorageService.getConversationsOrEmpty ls)
               (LocalStorageService.getConversationsOrEmpty ls')
          /\ (forall (j : nat) (c : Conversation),
                LocalStorageService.getConversationsOrEmpty ls !! j = Some c ->
                exists c',
                  LocalStorageService.getConversationsOrEmpty ls' !! j = Some c'
                  /\ (LocalStorageService.findIndex conversationId
                        (LocalStorageService.getConversationsOrEmpty ls) = Some j ->
                      conv_title c = "New Chat" -> msg_role message = "user" ->
                      msg_content message <> EmptyString ->
                      conv_title c'
                      = if Nat.leb (JsString.len (msg_content message)) 50
                        then msg_content message
                        else (JsString.take 50 (msg_content message) ++ "...")%string)
                  /\ (LocalStorageService.findIndex conversationId
                        (LocalStorageService.getConversationsOrEmpty ls) <> Some j
                      \/ conv_title c <> "New Chat" \/ msg_role message <> "user"
                      \/ msg_content message = EmptyString ->
                      conv_title c' = conv_title c)))
  /\ (forall content : string,
        JsString.len (LocalStorageService.autoTitle content)
        = (if Nat.ltb 50 (JsString.len content) then 53 else JsString.len content)
        /\ (50 < JsString.len content ->
            JsString.len (JsString.take 50 content ++ "...") = 53))
  /\ (forall (id : string) (updates : ConversationUpdates) (env : Env)
             (ls : LocalStorageService.LocalStorage) (updated : Conversation),
        fst (LocalStorageService.updateConversation id updates env ls) = Some updated ->
        exists old,
          LocalStorageService.findConversation id
            (LocalStorageService.getConversationsOrEmpty ls) = Some old
          /\ conv_title updated = default (conv_title old) (cu_title updates)
          /\ LocalStorageService.findConversation id
               (LocalStorageService.getConversationsOrEmpty
                  (snd (LocalStorageService.updateConversation id updates env ls)))
             = Some updated).
Proof.
  split; [|split; [|split]].
  - intros title env ls. simpl. split; [reflexivity|]. split; [|reflexivity].
    rewrite take_len. lia.
  - intros conversationId message env ls stored Hstored.
    destruct (storage_addMessage_result conversationId message env ls stored Hstored)
      as (newMessage & ls' & Hadd & Htitles & _).
    exists newMessage, ls'. split; [exact Hadd|]. split; [exact Htitles|].
    intros j c Hj. exact (storage_addMessage_titles _ _ _ _ _ _ _ _ Hadd Hj).
  - intros content. split; [apply autoTitle_len|].
    intros Hlong. rewrite append_len, take_len, Nat.min_l by lia. reflexivity.
  - intros id updates env ls updated. unfold LocalStorageService.updateConversation.
    destruct (LocalStorageService.findIndex id _) as [i|] eqn:Ei; [|discriminate].
    destruct (findIndex_spec _ _ _ Ei) as (c & Hc & Hfind & Hid). rewrite Hc. simpl.
    intros [= <-]. exists c. split; [exact Hfind|]. split; [reflexivity|].
    change (LocalStorageService.getConversationsOrEmpty
              (LocalStorageService.setConversationsItem ?l _)) with l.
    apply findConversation_insert; [exact Ei | exact Hid].
Qed.

Lemma titles_as_stored_witness :
  (exists newMessage ls' c',
     LocalStorageService.addMessage "c1"
       (ChatApp.userMessage "user-1" longQuestion "2024-01-01T00:00:01.000Z")
       sampleEnv storedAfterCreate
     = Ok (newMessage, ls')
     /\ LocalStorageService.getConversationsOrEmpty ls' !! 0 = Some c'
     /\ conv_title c' = "What was the total amount of loans issued in the l...")
  /\ (exists old,
        LocalStorageService.findConversation "c1"
          (LocalStorageService.getConversationsOrEmpty storedAfterCreate) = Some old
        /\ longTitle = default (conv_title old) (Some longTitle)).
Proof.
  destruct titles_as_stored as (_ & Hadd & _ & Hrename). split.
  - destruct (Hadd "c1"
                (ChatApp.userMessage "user-1" longQuestion "2024-01-01T00:00:01.000Z")
                sampleEnv storedAfterCreate [] eq_refl)
      as (newMessage & ls' & Hrun & _ & Htitles).
    destruct (Htitles 0 (mkConversation "c1" "New Chat" "2024-01-01T00:00:00.000Z"
                                        "2024-01-01T00:00:00.000Z" false 0) eq_refl)
      as (c' & Hc' & Hgen & _).
    exists newMessage, ls', c'. split; [exact Hrun|]. split; [exact Hc'|].
    apply Hgen; [reflexivity | reflexivity | reflexivity | discriminate].
  - destruct (Hrename "c1" (mkConvUpdates (Some longTitle) None) sampleEnv
                storedAfterCreate
                (mkConversation "c1" longTitle "2024-01-01T00:00:00.000Z"
                                "2024-01-01T00:00:00.000Z" false 0) eq_refl)
      as (old & Hold & Htitle & _).
    exists old. auto.
Defined.

(** C2 as stated fails: the generated title of a 62-character question
    has 53 characters, and a rename to a 64-character title is stored
    whole. *)
Lemma title_limit_counterexample :
  match LocalStorageService.addMessage "c1"
          (ChatApp.userMessage "user-1" longQuestion "2024-01-01T00:00:01.000Z")
          sampleEnv storedAfterCreate with
  | Ok (_, ls') =>
      map (fun c => (conv_title c, JsString.len (conv_title c)))
          (LocalStorageService.getConversationsOrEmpty ls')
  | Throw _ => []
  end
  = [("What was the total amount of loans issued in the l...", 53)]
  /\ option_map (fun c => JsString.len (conv_title c))
       (fst (LocalStorageService.updateConversation "c1"
               (mkConvUpdates (Some longTitle) None) sampleEnv storedAfterCreate))
     = Some 64.
Proof. split; vm_compute; reflexivity. Qed.

(** ** Reading localStorage *)

(** Text that is not JSON gives the fallback. *)
Lemma safeJsonParse_invalid (JSON_parse : string -> option jsval)
    (s : string) (fallback : jsval) :
  JSON_parse s = None ->
  RawStorage.safeJsonParse JSON_parse (Some s) fallback = fallback.
Proof.
  intros H. unfold RawStorage.safeJsonParse, RawStorage.jsonParseArg, parseJson.
  simpl. rewrite H. reflexivity.
Qed.

(** Text that is JSON gives its value, array or not. *)
Lemma safeJsonParse_valid (JSON_parse : string -> option jsval)
    (s : string) (v fallback : jsval) :
  JSON_parse s = Some v ->
  RawStorage.safeJsonParse JSON_parse (Some s) fallback = v.
Proof.
  intros H. unfold RawStorage.safeJsonParse, RawStorage.jsonParseArg, parseJson.
  simpl. rewrite H. reflexivity.
Qed.

(** With a stored array, [getConversation] returns [null] for an id no
    element has. *)
Lemma getConversation_unknown (JSON_parse : string -> option jsval)
    (ls : gmap string string) (id : string) (items : list jsval) :
  RawStorage.getConversations JSON_parse ls = JArr items ->
  RawStorage.findById id items = Ok JUndefined ->
  RawStorage.getConversation JSON_parse ls id = Ok JNull.
Proof.
  intros Hc Hf. unfold RawStorage.getConversation. rewrite Hc. simpl.
  rewrite Hf. reflexivity.
Qed.

(** C10, at the input where the code departs from it.  [JSON.parse(null)]
    is [null], so on a store without the key [safeJsonParse] returns
    [null] and not the fallback: [getConversations] and [getMessages]
    return [null] instead of an array, and [getConversation] throws a
    TypeError at [conversations.find] instead of returning [null]. *)
Theorem missing_data_breaks_reads (JSON_parse : string -> option jsval)
    (id : string) (fallback : jsval) :
  JSON_parse "null" = Some JNull ->
  RawStorage.safeJsonParse JSON_parse None fallback = JNull
  /\ RawStorage.getConversations JSON_parse ∅ = JNull
  /\ RawStorage.isArray (RawStorage.getConversations JSON_parse ∅) = false
  /\ RawStorage.getMessages JSON_parse ∅ id = JNull
  /\ RawStorage.isArray (RawStorage.getMessages JSON_parse ∅ id) = false
  /\ RawStorage.getConversation JSON_parse ∅ id = Throw TypeError.
Proof.
  intros Hnull.
  assert (H : forall fb, RawStorage.safeJsonParse JSON_parse None fb = JNull).
  { intros fb. unfold RawStorage.safeJsonParse, RawStorage.jsonParseArg, parseJson.
    simpl. rewrite Hnull. reflexivity. }
  assert (Hc : RawStorage.getConversations JSON_parse ∅ = JNull).
  { unfold RawStorage.getConversations, RawStorage.getItem.
    rewrite lookup_empty. apply H. }
  assert (Hm : RawStorage.getMessages JSON_parse ∅ id = JNull).
  { unfold RawStorage.getMessages, RawStorage.getItem. rewrite lookup_empty. apply H. }
  split; [apply H|]. split; [exact Hc|]. split; [rewrite Hc; reflexivity|].
  split; [exact Hm|]. split; [rewrite Hm; reflexivity|].
  unfold RawStorage.getConversation. rewrite Hc. reflexivity.
Qed.

Lemma missing_data_breaks_reads_witness :
  RawStorage.safeJsonParse sampleParse None (JArr []) = JNull
  /\ RawStorage.getConversations sampleParse ∅ = JNull
  /\ RawStorage.isArray (RawStorage.getConversations sampleParse ∅) = false
  /\ RawStorage.getMessages sampleParse ∅ "c1" = JNull
  /\ RawStorage.isArray (RawStorage.getMessages sampleParse ∅ "c1") = false
  /\ RawStorage.getConversation sampleParse ∅ "c1" = Throw TypeError.
Proof.
  apply (missing_data_breaks_reads sampleParse "c1" (JArr [])). reflexivity.
Defined.

(** The same on the decoded store, and a stored value that is JSON but not
    an array. *)
Example reads_on_odd_stores :
  LocalStorageService.getConversation LocalStorageService.emptyStorage "c1"
  = Throw TypeError
  /\ RawStorage.getConversations sampleParse {[ KEY_CONVERSATIONS := "7" ]} = JNum 7
  /\ RawStorage.getConversation sampleParse {[ KEY_CONVERSATIONS := "7" ]} "c1"
     = Throw TypeError
  /\ RawStorage.getConversations sampleParse {[ KEY_CONVERSATIONS := "{oops" ]} = JArr []
  /\ RawStorage.getConversation sampleParse {[ KEY_CONVERSATIONS := "[]" ]} "c1"
     = Ok JNull.
Proof. repeat split. Qed.

(** ** Grouping and pagination *)

Lemma group_pushGroup (k k' : GroupKey) (conv : Conversation) (g : Groups) :
  group k (pushGroup k' conv g)
  = group k g ++ (if GroupKey_eqb k' k then [conv] else []).
Proof. destruct k, k'; simpl; rewrite ?app_nil_r; reflexivity. Qed.

Lemma allGroups_pushGroup (k : GroupKey) (conv : Conversation) (g : Groups) :
  Permutation (allGroups (pushGroup k conv g)) (conv :: allGroups g).
Proof.
  unfold allGroups. destruct k; simpl; rewrite <- ?app_assoc; simpl;
    repeat rewrite <- Permutation_middle; rewrite ?app_nil_r; reflexivity.
Qed.

Section GroupingProperties.

Variable dateValue : string -> option Z.
Variables todayStart yesterdayStart lastWeekStart lastMonthStart : Z.

Abbreviation groupOf' :=
  (groupOf dateValue todayStart yesterdayStart lastWeekStart lastMonthStart).

Lemma fold_group (k : GroupKey) (convs : list Conversation) :
  forall g : Groups,
    group k (fold_left (fun g conv => pushGroup (groupOf' conv) conv g) convs g)
    = group k g ++ List.filter (fun c => GroupKey_eqb (groupOf' c) k) convs.
Proof.
  induction convs as [|c convs IH]; intros g; simpl.
  - rewrite app_nil_r. reflexivity.
  - rewrite IH, group_pushGroup.
    rewrite <- app_assoc. destruct (GroupKey_eqb (groupOf' c) k); reflexivity.
Qed.

Lemma fold_allGroups (convs : list Conversation) :
  forall g : Groups,
    Permutation
      (allGroups (fold_left (fun g conv => pushGroup (groupOf' conv) conv g) convs g))
      (allGroups g ++ convs).
Proof.
  induction convs as [|c convs IH]; intros g; simpl.
  - rewrite app_nil_r. reflexivity.
  - rewrite IH, allGroups_pushGroup.
    simpl. apply Permutation_middle.
Qed.

End GroupingProperties.

Lemma pages_cover_prefix {A} (rows : list A) (k : nat) :
  concat (map (currentRows rows) (seq 1 k)) = take (k * ROWS_PER_PAGE) rows.
Proof.
  induction k as [|k IH]; [reflexivity|].
  rewrite seq_S, map_app, concat_app, IH.
  cbn [map concat]. rewrite app_nil_r.
  unfold currentRows, sliceRows.
  replace (1 + k - 1) with k by lia.
  replace (k * ROWS_PER_PAGE + ROWS_PER_PAGE - k * ROWS_PER_PAGE)
    with ROWS_PER_PAGE by lia.
  rewrite take_take_drop. f_equal. unfold ROWS_PER_PAGE. lia.
Qed.

Lemma totalPages_cover (n : nat) : n <= totalPages n * ROWS_PER_PAGE.
Proof.
  unfold totalPages, ROWS_PER_PAGE.
  pose proof (Nat.div_mod_eq (n + (10 - 1)) 10) as H.
  pose proof (Nat.mod_upper_bound (n + (10 - 1)) 10) as Hm.
  lia.
Qed.

(** C3. groupConversationsByDate puts every conversation in the one group
    its pin flag and date select: each group is the input filtered by that
    choice, in input order, and the six groups together are a permutation
    of the input.  PaginatedTable on page p shows rows[(p-1)*10 .. p*10),
    and the pages 1 .. ceil(rows/10) one after the other are the row
    list. *)
Theorem grouping_and_pages_partition :
  (forall (dateValue : string -> option Z)
          (todayStart yesterdayStart lastWeekStart lastMonthStart : Z)
          (conversations : list Conversation),
     (forall k : GroupKey,
        group k (groupConversationsByDate dateValue todayStart yesterdayStart
                   lastWeekStart lastMonthStart conversations)
        = List.filter
            (fun c => GroupKey_eqb
                        (groupOf dateValue todayStart yesterdayStart
                                 lastWeekStart lastMonthStart c) k)
            conversations)
     /\ Permutation
          (allGroups (groupConversationsByDate dateValue todayStart yesterdayStart
                        lastWeekStart lastMonthStart conversations))
          conversations)
  /\ (forall (A : Type) (rows : list A),
        concat (allPages rows) = rows
        /\ forall q i : nat,
             currentRows rows (S q) !! i
             = if Nat.ltb i ROWS_PER_PAGE
               then rows !! (q * ROWS_PER_PAGE + i) else None).
Proof.
  split.
  - intros dateValue t y w mo conversations. unfold groupConversationsByDate. split.
    + intros k. rewrite fold_group. destruct k; reflexivity.
    + rewrite fold_allGroups. reflexivity.
  - intros A rows. split.
    + unfold allPages. rewrite pages_cover_prefix. apply take_ge.
      apply totalPages_cover.
    + intros q i. unfold currentRows, sliceRows.
      replace (S q - 1) with q by lia.
      replace (q * ROWS_PER_PAGE + ROWS_PER_PAGE - q * ROWS_PER_PAGE)
        with ROWS_PER_PAGE by lia.
      destruct (Nat.ltb i ROWS_PER_PAGE) eqn:E.
      * apply Nat.ltb_lt in E. rewrite lookup_take_lt by exact E.
        apply lookup_drop.
      * apply Nat.ltb_ge in E. apply lookup_take_ge. exact E.
Qed.

(** The pager never leaves the pages that exist. *)
Lemma goToPage_in_range {A} (rows : list A) (page currentPage : nat) :
  1 <= currentPage <= totalPages (length rows) ->
  1 <= goToPage rows page currentPage <= totalPages (length rows).
Proof.
  intros H. unfold goToPage.
  destruct (Nat.leb 1 page) eqn:E1; simpl; [|exact H].
  destruct (Nat.leb page (totalPages (length rows))) eqn:E2; [|exact H].
  apply Nat.leb_le in E1, E2. lia.
Qed.

(** Twenty-three rows make three pages of ten, ten and three rows; a
    pinned conversation goes to the pinned group whatever its date. *)
Example pages_of_23 :
  map length (allPages (seq 0 23)) = [10; 10; 3]
  /\ currentRows (seq 0 23) 3 = [20; 21; 22].
Proof. split; reflexivity. Qed.

(** ** Deleting a conversation *)

Lemma sameId_true (id : string) (cur : option string) :
  sameId id cur = true -> cur = Some id.
Proof.
  destruct cur as [c|]; simpl; [|discriminate].
  intros H. apply String.eqb_eq in H. congruence.
Qed.

Lemma withoutId_head (id : string) (convs : list Conversation)
    (first : Conversation) (rest : list Conversation) :
  withoutId id convs = first :: rest ->
  conv_id first <> id /\ In first convs.
Proof.
  intros H.
  assert (Hin : In first (withoutId id convs)) by (rewrite H; left; reflexivity).
  unfold withoutId in Hin. apply filter_In in Hin. destruct Hin as [Hin Hne].
  split; [|exact Hin].
  apply negb_true_iff, String.eqb_neq in Hne. exact Hne.
Qed.

Lemma sync_delete_other (cur : option string) (convs : list Conversation)
    (id : string) (s : ConversationContext.AppState) :
  sameId id cur = false ->
  fst (ConversationContext.deleteConversation cur convs id s)
  = ConversationContext.mkApp
      (withoutId id (ConversationContext.conversations s))
      (ConversationContext.currentConversationId s)
      (ConversationContext.messages s)
      (snd (LocalStorageService.deleteConversation id (ConversationContext.localStorage s))).
Proof.
  intros H. unfold ConversationContext.deleteConversation, ebind,
    ConversationContext.storageCall, ConversationContext.setConversations, modify.
  destruct (LocalStorageService.deleteConversation id _) as [b ls1]. simpl.
  rewrite H. reflexivity.
Qed.

Lemma sync_delete_last (cur : option string) (convs : list Conversation)
    (id : string) (s : ConversationContext.AppState) :
  sameId id cur = true -> withoutId id convs = [] ->
  fst (ConversationContext.deleteConversation cur convs id s)
  = ConversationContext.mkApp
      (withoutId id (ConversationContext.conversations s)) None (Some [])
      (snd (LocalStorageService.deleteConversation id (ConversationContext.localStorage s))).
Proof.
  intros H Hrem. unfold ConversationContext.deleteConversation, ebind,
    ConversationContext.storageCall, ConversationContext.setConversations, modify.
  destruct (LocalStorageService.deleteConversation id _) as [b ls1]. simpl.
  rewrite H, Hrem. reflexivity.
Qed.

Lemma sync_delete_switch (cur : option string) (convs : list Conversation)
    (id : string) (s : ConversationContext.AppState)
    (first : Conversation) (rest : list Conversation) :
  sameId id cur = true -> withoutId id convs = first :: rest ->
  let stored :=
    snd (LocalStorageService.deleteConversation id (ConversationContext.localStorage s)) in
  fst (ConversationContext.deleteConversation cur convs id s)
  = match LocalStorageService.getConversation stored (conv_id first) with
    | Ok (Some (_, convMessages)) =>
        ConversationContext.mkApp
          (withoutId id (ConversationContext.conversations s))
          (Some (conv_id first)) convMessages
          (LocalStorageService.setCurrentConversationId (Some (conv_id first)) stored)
    | _ =>
        ConversationContext.mkApp
          (withoutId id (ConversationContext.conversations s))
          (ConversationContext.currentConversationId s)
          (ConversationContext.messages s) stored
    end.
Proof.
  intros H Hrem stored. subst stored.
  destruct (withoutId_head _ _ _ _ Hrem) as [Hne _].
  pose proof (sameId_true _ _ H) as ->.
  assert (Hother : sameId (conv_id first) (Some id) = false).
  { simpl. apply String.eqb_neq. exact Hne. }
  unfold ConversationContext.deleteConversation, ebind,
    ConversationContext.storageCall, ConversationContext.setConversations, modify.
  destruct (LocalStorageService.deleteConversation id _) as [b ls1]. simpl snd.
  cbn beta iota. rewrite H, Hrem.
  unfold ConversationContext.switchConversation. rewrite Hother.
  unfold ebind, ConversationContext.storageTry,
    ConversationContext.storageCall, ConversationContext.setCurrentConversationId,
    ConversationContext.setMessages, modify, eret, rbind. simpl.
  destruct (LocalStorageService.getConversation ls1 (conv_id first))
    as [[[meta convMessages]|]|e]; reflexivity.
Qed.

Lemma findConversation_present (convs : list Conversation) (id : string) :
  In id (map conv_id convs) ->
  exists meta, LocalStorageService.findConversation id convs = Some meta.
Proof.
  intros Hin. apply in_map_iff in Hin. destruct Hin as (c & Hc & Hin).
  unfold LocalStorageService.findConversation.
  destruct (List.find _ convs) as [meta|] eqn:E; [eauto|].
  pose proof (find_none _ _ E c Hin) as H. simpl in H.
  rewrite Hc, String.eqb_refl in H. discriminate.
Qed.

Lemma withoutId_ids (id : string) (convs : list Conversation) :
  map conv_id (withoutId id convs)
  = List.filter (fun i => negb (String.eqb i id)) (map conv_id convs).
Proof.
  unfold withoutId. induction convs as [|c convs IH]; simpl; [reflexivity|].
  destruct (negb (String.eqb (conv_id c) id)); simpl; rewrite IH; reflexivity.
Qed.

Lemma withoutId_full_length (id : string) (convs : list Conversation) :
  length (withoutId id convs) = length convs -> withoutId id convs = convs.
Proof.
  unfold withoutId. induction convs as [|c convs IH]; simpl; [reflexivity|].
  destruct (negb (String.eqb (conv_id c) id)); simpl; intros H.
  - rewrite IH by lia. reflexivity.
  - pose proof (filter_length_le (fun c => negb (String.eqb (conv_id c) id)) convs).
    lia.
Qed.

(** What [storage.deleteConversation] leaves in the conversations entry. *)
Lemma stored_after_delete (id : string) (ls : LocalStorageService.LocalStorage) :
  LocalStorageService.getConversationsOrEmpty
    (snd (LocalStorageService.deleteConversation id ls))
  = withoutId id (LocalStorageService.getConversationsOrEmpty ls).
Proof.
  unfold LocalStorageService.deleteConversation.
  set (convs := LocalStorageService.getConversationsOrEmpty ls).
  destruct (Nat.eqb _ _) eqn:E; simpl snd.
  - apply Nat.eqb_eq in E. symmetry. apply withoutId_full_length. exact E.
  - destruct (LocalStorageService.getCurrentConversationId _) as [cur|];
      [destruct (String.eqb cur id)|]; reflexivity.
Qed.

(** While the list in memory names the stored conversations, the first
    remaining conversation is found in the store after the deletion. *)
Lemma first_remaining_is_stored (id : string) (convs : list Conversation)
    (ls : LocalStorageService.LocalStorage)
    (first : Conversation) (rest : list Conversation) :
  map conv_id (LocalStorageService.getConversationsOrEmpty ls) = map conv_id convs ->
  withoutId id convs = first :: rest ->
  exists meta convMessages,
    LocalStorageService.getConversation
      (snd (LocalStorageService.deleteConversation id ls)) (conv_id first)
    = Ok (Some (meta, convMessages)).
Proof.
  intros Hids Hrem.
  pose proof (stored_after_delete id ls) as Hstored.
  assert (Hin : In (conv_id first)
                   (map conv_id (LocalStorageService.getConversationsOrEmpty
                      (snd (LocalStorageService.deleteConversation id ls))))).
  { rewrite Hstored, withoutId_ids, Hids, <- withoutId_ids, Hrem. left. reflexivity. }
  unfold LocalStorageService.getConversation.
  unfold LocalStorageService.getConversationsOrEmpty in Hin.
  destruct (LocalStorageService.getConversations _) as [stored|]; [|destruct Hin].
  destruct (findConversation_present stored (conv_id first) Hin) as [meta ->].
  eauto.
Qed.

Lemma getConversation_messages (ls : LocalStorageService.LocalStorage) (id : string)
    (meta : Conversation) (convMessages : option (list Message)) :
  LocalStorageService.getConversation ls id = Ok (Some (meta, convMessages)) ->
  convMessages = LocalStorageService.getMessages ls id.
Proof.
  unfold LocalStorageService.getConversation.
  destruct (LocalStorageService.getConversations ls) as [convs|]; [|discriminate].
  destruct (LocalStorageService.findConversation id convs); [|discriminate].
  intros [= _ <-]. reflexivity.
Qed.

(** [storage.deleteConversation] leaves the message lists of the other
    conversations alone. *)
Lemma getMessages_after_delete (id k : string)
    (ls : LocalStorageService.LocalStorage) :
  k <> id ->
  LocalStorageService.getMessages
    (snd (LocalStorageService.deleteConversation id ls)) k
  = LocalStorageService.getMessages ls k.
Proof.
  intros Hk. unfold LocalStorageService.deleteConversation.
  destruct (Nat.eqb _ _); [reflexivity|]. simpl snd.
  assert (H : LocalStorageService.getMessages
                (LocalStorageService.removeMessagesItem id
                   (LocalStorageService.setConversationsItem
                      (withoutId id (LocalStorageService.getConversationsOrEmpty ls)) ls)) k
              = LocalStorageService.getMessages ls k).
  { unfold LocalStorageService.getMessages. simpl.
    apply lookup_delete_ne. congruence. }
  destruct (LocalStorageService.getCurrentConversationId _) as [c|];
    [destruct (String.eqb c id)|]; exact H.
Qed.

Lemma backend_delete_cases (cur : option string) (convs : list Conversation)
    (id : string) (reply : option (Conversation * option (list Message)))
    (s : BackendContext.AppState) :
  BackendContext.deleteConversationHandler cur convs id reply s
  = if sameId id cur then
      match withoutId id convs with
      | first :: _ =>
          match reply with
          | Some (_, convMessages) =>
              BackendContext.mkApp (withoutId id (BackendContext.conversations s))
                (Some (conv_id first)) (default [] convMessages)
                (if JsString.truthy (conv_id first) then Some (conv_id first) else None)
          | None =>
              BackendContext.mkApp (withoutId id (BackendContext.conversations s))
                (BackendContext.currentConversationId s) (BackendContext.messages s)
                (BackendContext.storedCurrentId s)
          end
      | [] =>
          BackendContext.mkApp (withoutId id (BackendContext.conversations s))
            None [] (BackendContext.storedCurrentId s)
      end
    else
      BackendContext.mkApp (withoutId id (BackendContext.conversations s))
        (BackendContext.currentConversationId s) (BackendContext.messages s)
        (BackendContext.storedCurrentId s).
Proof.
  unfold BackendContext.deleteConversationHandler.
  destruct (sameId id cur) eqn:H; [|reflexivity].
  destruct (withoutId id convs) as [|first rest] eqn:Hrem; [reflexivity|].
  destruct (withoutId_head _ _ _ _ Hrem) as [Hne _].
  pose proof (sameId_true _ _ H) as ->.
  unfold BackendContext.switchConversation. simpl sameId.
  apply String.eqb_neq in Hne. rewrite Hne.
  destruct reply as [[meta convMessages]|]; reflexivity.
Qed.

(** C4, as the code has it.  Deleting the current conversation: when no
    conversation remains, the current id becomes null and the message list
    empty; when some remain, the handler loads the first remaining one
    from storage and, if it gets it, makes it current with its stored
    messages; if the load gives nothing, the current id and the message
    list stay as they were.  With the localStorage service the load
    succeeds whenever the list in memory names the stored conversations,
    and the message state is then what the store holds for the first
    remaining conversation: its message list, and null when the store has
    none for it (the backend container takes the empty list then).
    Deleting
    another conversation leaves the current id and the message list
    unchanged.  First the localStorage container, then the backend one. *)
Theorem delete_switches_when_next_loads :
  (forall (cur : option string) (convs : list Conversation) (id : string)
          (s : ConversationContext.AppState),
     let s' := fst (ConversationContext.deleteConversation cur convs id s) in
     (sameId id cur = false ->
      ConversationContext.currentConversationId s'
        = ConversationContext.currentConversationId s
      /\ ConversationContext.messages s' = ConversationContext.messages s)
     /\ (sameId id cur = true -> withoutId id convs = [] ->
         ConversationContext.currentConversationId s' = None
         /\ ConversationContext.messages s' = Some [])
     /\ (forall first rest,
           sameId id cur = true -> withoutId id convs = first :: rest ->
           match LocalStorageService.getConversation
                   (snd (LocalStorageService.deleteConversation id
                           (ConversationContext.localStorage s)))
                   (conv_id first) with
           | Ok (Some (_, convMessages)) =>
               ConversationContext.currentConversationId s' = Some (conv_id first)
               /\ ConversationContext.messages s' = convMessages
           | _ =>
               ConversationContext.currentConversationId s'
                 = ConversationContext.currentConversationId s
               /\ ConversationContext.messages s' = ConversationContext.messages s
           end)
     /\ (forall first rest,
           sameId id cur = true -> withoutId id convs = first :: rest ->
           map conv_id (LocalStorageService.getConversationsOrEmpty
                          (ConversationContext.localStorage s))
             = map conv_id convs ->
           ConversationContext.currentConversationId s' = Some (conv_id first)
           /\ ConversationContext.messages s'
              = LocalStorageService.getMessages (ConversationContext.localStorage s)
                  (conv_id first)))
  /\ (forall (cur : option string) (convs : list Conversation) (id : string)
             (reply : option (Conversation * option (list Message)))
             (s : BackendContext.AppState),
        let s' := BackendContext.deleteConversationHandler cur convs id reply s in
        (sameId id cur = false ->
         BackendContext.currentConversationId s' = BackendContext.currentConversationId s
         /\ BackendContext.messages s' = BackendContext.messages s)
        /\ (sameId id cur = true -> withoutId id convs = [] ->
            BackendContext.currentConversationId s' = None
            /\ BackendContext.messages s' = [])
        /\ (forall first rest,
              sameId id cur = true -> withoutId id convs = first :: rest ->
              match reply with
              | Some (_, convMessages) =>
                  BackendContext.currentConversationId s' = Some (conv_id first)
                  /\ BackendContext.messages s' = default [] convMessages
              | None =>
                  BackendContext.currentConversationId s'
                    = BackendContext.currentConversationId s
                  /\ BackendContext.messages s' = BackendContext.messages s
              end)).
Proof.
  split.
  - intros cur convs id s s'. subst s'. split; [|split; [|split]].
    + intros H. rewrite (sync_delete_other _ _ _ _ H). split; reflexivity.
    + intros H Hrem. rewrite (sync_delete_last _ _ _ _ H Hrem). split; reflexivity.
    + intros first rest H Hrem. rewrite (sync_delete_switch _ _ _ _ _ _ H Hrem).
      destruct (LocalStorageService.getConversation _ _)
        as [[[meta convMessages]|]|e]; split; reflexivity.
    + intros first rest H Hrem Hstored.
      rewrite (sync_delete_switch _ _ _ _ _ _ H Hrem).
      destruct (first_remaining_is_stored id convs _ first rest Hstored Hrem)
        as (meta & convMessages & Hload).
      rewrite Hload. cbn [ConversationContext.currentConversationId
                          ConversationContext.messages].
      split; [reflexivity|].
      rewrite (getConversation_messages _ _ _ _ Hload).
      apply getMessages_after_delete.
      destruct (withoutId_head _ _ _ _ Hrem) as [Hne _]. exact Hne.
  - intros cur convs id reply s s'. subst s'. rewrite backend_delete_cases.
    split; [|split].
    + intros ->. split; reflexivity.
    + intros -> ->. split; reflexivity.
    + intros first rest -> ->. destruct reply as [[meta convMessages]|];
        split; reflexivity.
Qed.

Lemma delete_switches_when_next_loads_witness :
  (let s' := fst (ConversationContext.deleteConversation (Some "c2")
                    (ConversationContext.conversations twoConversations) "c2"
                    twoConversations) in
   ConversationContext.currentConversationId s' = Some "c1"
   /\ ConversationContext.messages s'
      = LocalStorageService.getMessages
          (ConversationContext.localStorage twoConversations) "c1")
  /\ (let s' := BackendContext.deleteConversationHandler (Some "c1")
                  [sampleConv1; sampleConv2] "c2" None backendState in
      BackendContext.currentConversationId s' = Some "c1"
      /\ BackendContext.messages s' = sampleMessages)
  /\ (let s' := BackendContext.deleteConversationHandler (Some "c1")
                  [sampleConv1] "c1" None backendState in
      BackendContext.currentConversationId s' = None
      /\ BackendContext.messages s' = []).
Proof.
  destruct delete_switches_when_next_loads as [Hsync Hbackend].
  split; [|split].
  - destruct (Hsync (Some "c2") (ConversationContext.conversations twoConversations)
                    "c2" twoConversations) as (_ & _ & _ & H).
    apply (H (mkConversation "c1" "New Chat" "2024-01-01T00:00:00.000Z"
                             "2024-01-01T00:00:00.000Z" false 0) []);
      reflexivity.
  - destruct (Hbackend (Some "c1") [sampleConv1; sampleConv2] "c2" None backendState)
      as (H & _). apply H. reflexivity.
  - destruct (Hbackend (Some "c1") [sampleConv1] "c1" None backendState)
      as (_ & H & _). apply H; reflexivity.
Defined.

(** C4 as stated fails when the next conversation cannot be loaded: the
    backend container shows c1 of [c1; c2], c1 is deleted and the request
    for c2 fails.  c2 remains in the list, yet the current conversation is
    still the deleted c1, with its messages. *)
Lemma delete_current_counterexample :
  let s' := BackendContext.deleteConversationHandler (Some "c1")
              [sampleConv1; sampleConv2] "c1" None backendState in
  BackendContext.conversations s' = [sampleConv2]
  /\ BackendContext.currentConversationId s' = Some "c1"
  /\ BackendContext.currentConversationId s' <> Some "c2"
  /\ BackendContext.messages s' = sampleMessages.
Proof. vm_compute. repeat split. discriminate. Qed.

(** The localStorage container sets the message state to what the store
    holds, with no guard: deleting c1 when the store has no message list
    for the next conversation c2 makes c2 current and the message state
    null. *)
Example delete_switches_to_null_messages :
  let s' := fst (ConversationContext.deleteConversation (Some "c1")
                   [sampleConv1; sampleConv2] "c1" unevenApp) in
  ConversationContext.currentConversationId s' = Some "c2"
  /\ ConversationContext.messages s' = None.
Proof. vm_compute. split; reflexivity. Qed.

(** ** The first message of a session *)

(** C8, at the input where the code departs from it.  Sending the first
    message with no current conversation creates three conversations, not
    one: sendMessage creates c1, and each of its two addMessage calls still
    sees currentConversationId = null in its closure and creates another
    (c2 for the user message, c3 for the placeholder), although c1 and then
    c2 were already made current.  The user message is stored in c2, the
    placeholder in c3, which is current at the end; the message list shown
    is the welcome message and the placeholder, without the user's
    message. *)
Theorem first_message_creates_three_conversations :
  snd firstMessage = Ok (Some "bot-1")
  /\ map conv_id (ConversationContext.conversations (fst firstMessage))
     = ["c3"; "c2"; "c1"]
  /\ ConversationContext.currentConversationId (fst firstMessage) = Some "c3"
  /\ map msg_id <$> ConversationContext.messages (fst firstMessage)
     = Some ["welcome"; "bot-1"]
  /\ storedMessageIds (fst firstMessage) "c1" = Some ["welcome"]
  /\ storedMessageIds (fst firstMessage) "c2" = Some ["welcome"; "user-1"]
  /\ storedMessageIds (fst firstMessage) "c3" = Some ["welcome"; "bot-1"].
Proof. vm_compute. repeat split. Qed.

Lemma getMessages_setCurrent (id : option string) (k : string)
    (ls : LocalStorageService.LocalStorage) :
  LocalStorageService.getMessages (LocalStorageService.setCurrentConversationId id ls) k
  = LocalStorageService.getMessages ls k.
Proof.
  unfold LocalStorageService.setCurrentConversationId.
  destruct id as [i|]; [destruct (JsString.truthy i)|]; reflexivity.
Qed.

Lemma getConversations_setCurrent (id : option string)
    (ls : LocalStorageService.LocalStorage) :
  LocalStorageService.getConversationsOrEmpty
    (LocalStorageService.setCurrentConversationId id ls)
  = LocalStorageService.getConversationsOrEmpty ls.
Proof.
  unfold LocalStorageService.setCurrentConversationId.
  destruct id as [i|]; [destruct (JsString.truthy i)|]; reflexivity.
Qed.

Lemma addMessage_keeps_message (message : Message) (env : Env) :
  JsString.truthy (msg_id message) = true ->
  msg_timestamp message = env_now env ->
  {| msg_id := if JsString.truthy (msg_id message)
               then msg_id message else env_messageId env;
     msg_role := msg_role message;
     msg_content := msg_content message;
     msg_answer := msg_answer message;
     msg_displayedAnswer := msg_displayedAnswer message;
     msg_chart := msg_chart message;
     msg_table := msg_table message;
     msg_evidence := msg_evidence message;
     msg_isStreaming := msg_isStreaming message;
     msg_isThinking := msg_isThinking message;
     msg_isError := msg_isError message;
     msg_timestamp := if JsString.truthy (msg_timestamp message)
                      then msg_timestamp message else env_now env |}
  = message.
Proof.
  intros Hid Hts. rewrite Hid. destruct message; simpl in *. subst.
  destruct (JsString.truthy (env_now env)); reflexivity.
Qed.

(** What the container's createConversation does to the state: it always
    returns, with the new conversation in front, current, and holding the
    welcome message. *)
Lemma sync_create_result (title : string) (env : Env)
    (s : ConversationContext.AppState) :
  exists ls',
    ConversationContext.createConversation title env s
    = (ConversationContext.mkApp
         (fst (LocalStorageService.createConversation title env
                 (ConversationContext.localStorage s))
            :: ConversationContext.conversations s)
         (Some (env_conversationId env))
         (Some [welcomeMessage (env_now env)])
         ls',
       Ok (fst (LocalStorageService.createConversation title env
                  (ConversationContext.localStorage s))))
    /\ map conv_id (LocalStorageService.getConversationsOrEmpty ls')
       = env_conversationId env
           :: map conv_id (LocalStorageService.getConversationsOrEmpty
                             (ConversationContext.localStorage s))
    /\ LocalStorageService.getMessages ls' (env_conversationId env)
       = Some [welcomeMessage (env_now env)]
    /\ (forall k, k <> env_conversationId env ->
          LocalStorageService.getMessages ls' k
          = LocalStorageService.getMessages (ConversationContext.localStorage s) k).
Proof.
  destruct s as [convs cur msgs ls].
  unfold ConversationContext.createConversation, ebind,
    ConversationContext.storageCall, ConversationContext.storageTry,
    ConversationContext.setConversations,
    ConversationContext.setCurrentConversationId,
    ConversationContext.setMessages, modify, eret.
  cbn [ConversationContext.localStorage ConversationContext.conversations
       ConversationContext.currentConversationId ConversationContext.messages
       LocalStorageService.createConversation fst snd conv_id].
  unfold LocalStorageService.addMessage.
  set (ls2 := LocalStorageService.setCurrentConversationId _ _).
  assert (Hm : LocalStorageService.getMessages ls2 (env_conversationId env) = Some []).
  { subst ls2. rewrite getMessages_setCurrent.
    unfold LocalStorageService.getMessages. simpl. apply lookup_insert_eq. }
  rewrite Hm.
  rewrite (addMessage_keeps_message (welcomeMessage (env_now env)) env eq_refl eq_refl).
  change (LocalStorageService.getConversationsOrEmpty
            (LocalStorageService.setMessagesItem _ _ ls2))
    with (LocalStorageService.getConversationsOrEmpty ls2).
  assert (Hc : LocalStorageService.getConversationsOrEmpty ls2
               = {| conv_id := env_conversationId env;
                    conv_title := JsString.take 50 title;
                    conv_createdAt := env_now env;
                    conv_updatedAt := env_now env;
                    conv_isPinned := false;
                    conv_messageCount := 0 |}
                 :: LocalStorageService.getConversationsOrEmpty ls).
  { subst ls2. rewrite getConversations_setCurrent. reflexivity. }
  rewrite Hc. simpl LocalStorageService.findIndex. rewrite String.eqb_refl.
  cbn [lookup list_lookup].
  eexists. split; [reflexivity|]. split; [reflexivity|]. split.
  - unfold LocalStorageService.getMessages. simpl. apply lookup_insert_eq.
  - intros k Hk.
    change (LocalStorageService.getMessages
              (LocalStorageService.setConversationsItem ?l ?x) k)
      with (LocalStorageService.getMessages x k).
    unfold LocalStorageService.getMessages at 1. simpl.
    rewrite lookup_insert_ne by congruence.
    change (LocalStorageService.ls_messages ls2 !! k)
      with (LocalStorageService.getMessages ls2 k).
    subst ls2. rewrite getMessages_setCurrent.
    unfold LocalStorageService.getMessages. simpl.
    rewrite lookup_insert_ne by congruence. reflexivity.
Qed.

(** One call of the container's addMessage whose closure holds no current
    conversation: a conversation is created, made current, and receives
    the welcome message and the message. *)
Lemma sync_addMessage_without_current (cur : option string) (message : Message)
    (env : Env) (s : ConversationContext.AppState) :
  isSet cur = false ->
  exists s' newMessage,
    ConversationContext.addMessage cur message env s = (s', Ok tt)
    /\ ConversationContext.currentConversationId s' = Some (env_conversationId env)
    /\ ConversationContext.messages s' = Some [welcomeMessage (env_now env); message]
    /\ map conv_id (LocalStorageService.getConversationsOrEmpty
                      (ConversationContext.localStorage s'))
       = env_conversationId env
           :: map conv_id (LocalStorageService.getConversationsOrEmpty
                             (ConversationContext.localStorage s))
    /\ map conv_id (ConversationContext.conversations s')
       = env_conversationId env
           :: (if String.eqb (msg_role message) "user"
                  && JsString.truthy (msg_content message)
               then map conv_id (LocalStorageService.getConversationsOrEmpty
                                   (ConversationContext.localStorage s))
               else map conv_id (ConversationContext.conversations s))
    /\ LocalStorageService.getMessages (ConversationContext.localStorage s')
         (env_conversationId env)
       = Some [welcomeMessage (env_now env); newMessage]
    /\ msg_id newMessage
       = (if JsString.truthy (msg_id message) then msg_id message
          else env_messageId env).
Proof.
  intros Hcur.
  destruct (sync_create_result "New Chat" env s)
    as (ls1 & Hcreate & Hids1 & Hmsgs1 & _).
  destruct (storage_addMessage_result (env_conversationId env) message env ls1 _ Hmsgs1)
    as (newMessage & ls2 & Hadd & Htitles & Hid & Hmsgs2 & _).
  pose proof (titleKeptOrGenerated_ids _ _ _ Htitles) as Hids2.
  unfold ConversationContext.addMessage. rewrite Hcur. cbn [negb].
  unfold ebind at 1. rewrite Hcreate.
  cbn [LocalStorageService.createConversation fst conv_id].
  unfold ebind, ConversationContext.storageTry, ConversationContext.setMessages,
    ConversationContext.setConversations, modify, gets, eret.
  cbn [ConversationContext.localStorage ConversationContext.conversations
       ConversationContext.currentConversationId ConversationContext.messages].
  rewrite Hadd.
  cbn [ConversationContext.localStorage ConversationContext.conversations
       ConversationContext.currentConversationId ConversationContext.messages].
  destruct (String.eqb (msg_role message) "user" && JsString.truthy (msg_content message)).
  - eexists _, newMessage. split; [reflexivity|]. simpl.
    rewrite Hids2, Hids1. split_conj; auto.
  - eexists _, newMessage. split; [reflexivity|]. simpl.
    rewrite Hids2, Hids1. split_conj; auto.
Qed.

(** One call whose closure holds a current conversation with a messages
    entry: the message is appended there and no conversation is created. *)
Lemma sync_addMessage_with_current (cur : string) (message : Message)
    (env : Env) (s : ConversationContext.AppState) (stored : list Message) :
  JsString.truthy cur = true ->
  LocalStorageService.getMessages (ConversationContext.localStorage s) cur
    = Some stored ->
  exists s' newMessage,
    ConversationContext.addMessage (Some cur) message env s = (s', Ok tt)
    /\ ConversationContext.currentConversationId s'
       = ConversationContext.currentConversationId s
    /\ ConversationContext.messages s'
       = (fun l => l ++ [message]) <$> ConversationContext.messages s
    /\ map conv_id (LocalStorageService.getConversationsOrEmpty
                      (ConversationContext.localStorage s'))
       = map conv_id (LocalStorageService.getConversationsOrEmpty
                        (ConversationContext.localStorage s))
    /\ map conv_id (ConversationContext.conversations s')
       = (if String.eqb (msg_role message) "user"
             && JsString.truthy (msg_content message)
          then map conv_id (LocalStorageService.getConversationsOrEmpty
                              (ConversationContext.localStorage s))
          else map conv_id (ConversationContext.conversations s))
    /\ LocalStorageService.getMessages (ConversationContext.localStorage s') cur
       = Some (stored ++ [newMessage]).
Proof.
  intros Hcur Hstored.
  destruct (storage_addMessage_result cur message env _ _ Hstored)
    as (newMessage & ls2 & Hadd & Htitles & _ & Hmsgs2 & _).
  pose proof (titleKeptOrGenerated_ids _ _ _ Htitles) as Hids2.
  unfold ConversationContext.addMessage, isSet. rewrite Hcur. cbn [negb].
  change (default EmptyString (Some cur)) with cur.
  unfold ebind, ConversationContext.storageTry, ConversationContext.setMessages,
    ConversationContext.setConversations, modify, gets, eret.
  rewrite Hadd.
  cbn [ConversationContext.localStorage ConversationContext.conversations
       ConversationContext.currentConversationId ConversationContext.messages].
  destruct (String.eqb (msg_role message) "user" && JsString.truthy (msg_content message));
    eexists _, newMessage; (split; [reflexivity|]); simpl; rewrite ?Hids2;
    split_conj; auto.
Qed.

(** ** The list in memory follows the store *)

Lemma sameConversations_create (title : string) (env : Env)
    (s : ConversationContext.AppState) :
  sameConversations s ->
  sameConversations (fst (ConversationContext.createConversation title env s)).
Proof.
  unfold sameConversations. intros Hs.
  destruct (sync_create_result title env s) as (ls1 & -> & Hids & _).
  simpl. rewrite Hids, Hs. reflexivity.
Qed.

Lemma sameConversations_delete (cur : option string) (convs : list Conversation)
    (id : string) (s : ConversationContext.AppState) :
  sameConversations s ->
  sameConversations (fst (ConversationContext.deleteConversation cur convs id s)).
Proof.
  unfold sameConversations. intros Hs.
  assert (Hdel : map conv_id (LocalStorageService.getConversationsOrEmpty
                   (snd (LocalStorageService.deleteConversation id
                           (ConversationContext.localStorage s))))
                 = map conv_id (withoutId id (ConversationContext.conversations s))).
  { rewrite stored_after_delete, !withoutId_ids, Hs. reflexivity. }
  destruct (sameId id cur) eqn:H.
  - destruct (withoutId id convs) as [|first rest] eqn:Hrem.
    + rewrite (sync_delete_last _ _ _ _ H Hrem). exact Hdel.
    + rewrite (sync_delete_switch _ _ _ _ _ _ H Hrem).
      destruct (LocalStorageService.getConversation _ _)
        as [[[meta convMessages]|]|e];
        cbn [ConversationContext.localStorage ConversationContext.conversations];
        rewrite ?getConversations_setCurrent; exact Hdel.
  - rewrite (sync_delete_other _ _ _ _ H). exact Hdel.
Qed.

Lemma sameConversations_addMessage (cur : option string) (message : Message)
    (env : Env) (s : ConversationContext.AppState) :
  sameConversations s ->
  sameConversations (fst (ConversationContext.addMessage cur message env s)).
Proof.
  unfold sameConversations. intros Hs.
  destruct (isSet cur) eqn:Hcur.
  - destruct cur as [c|]; [|discriminate]. simpl in Hcur.
    destruct (LocalStorageService.getMessages (ConversationContext.localStorage s) c)
      as [stored|] eqn:Hstored.
    + destruct (sync_addMessage_with_current c message env s stored Hcur Hstored)
        as (s' & newMessage & -> & _ & _ & Hids & Hmem & _).
      simpl. rewrite Hids, Hmem.
      destruct (_ && _); [reflexivity | exact Hs].
    + unfold ConversationContext.addMessage, isSet. rewrite Hcur. cbn [negb].
      change (default EmptyString (Some c)) with c.
      unfold ebind, ConversationContext.storageTry, LocalStorageService.addMessage.
      rewrite Hstored. simpl. exact Hs.
  - destruct (sync_addMessage_without_current cur message env s Hcur)
      as (s' & newMessage & -> & _ & _ & Hids & Hmem & _).
    simpl. rewrite Hids, Hmem.
    destruct (_ && _); [reflexivity | rewrite Hs; reflexivity].
Qed.

Example sameConversations_samples :
  sameConversations emptyApp /\ sameConversations twoConversations
  /\ sameConversations (fst firstMessage).
Proof. repeat split. Qed.

(** ** addMessage of the backend container *)

Lemma backend_addMessage_without_current (cur : option string) (message : Message)
    (createReply : option Conversation) (listReply : list Conversation)
    (env : Env) (s : BackendContext.AppState) :
  isSet cur = false ->
  let newConv := BackendContext.storageCreateConversation "New Chat" createReply env in
  let r := BackendContext.addMessage cur message createReply listReply env s in
  fst r = conv_id newConv
  /\ BackendContext.currentConversationId (snd r) = Some (conv_id newConv)
  /\ BackendContext.messages (snd r) = [welcomeMessage (env_now env); message]
  /\ BackendContext.conversations (snd r)
     = (if String.eqb (msg_role message) "user" && JsString.truthy (msg_content message)
        then listReply else newConv :: BackendContext.conversations s).
Proof.
  intros Hcur newConv r. subst r newConv.
  unfold BackendContext.addMessage. rewrite Hcur. cbn [negb].
  unfold BackendContext.createNewConversation.
  destruct (String.eqb (msg_role message) "user" && JsString.truthy (msg_content message));
    simpl; auto.
Qed.

Lemma backend_addMessage_with_current (cur : option string) (message : Message)
    (createReply : option Conversation) (listReply : list Conversation)
    (env : Env) (s : BackendContext.AppState) :
  isSet cur = true ->
  let r := BackendContext.addMessage cur message createReply listReply env s in
  fst r = default EmptyString cur
  /\ BackendContext.currentConversationId (snd r) = BackendContext.currentConversationId s
  /\ BackendContext.messages (snd r) = BackendContext.messages s ++ [message]
  /\ BackendContext.conversations (snd r)
     = (if String.eqb (msg_role message) "user" && JsString.truthy (msg_content message)
        then listReply else BackendContext.conversations s).
Proof.
  intros Hcur r. subst r.
  unfold BackendContext.addMessage. rewrite Hcur. cbn [negb].
  destruct (String.eqb (msg_role message) "user" && JsString.truthy (msg_content message));
    simpl; auto.
Qed.

(** * Further properties of the storage service *)

Lemma findIndex_none (id : string) (convs : list Conversation) :
  LocalStorageService.findIndex id convs = None <->
  LocalStorageService.findConversation id convs = None.
Proof.
  unfold LocalStorageService.findConversation.
  induction convs as [|c convs IH]; simpl; [tauto|].
  destruct (String.eqb (conv_id c) id); [split; discriminate|].
  destruct (LocalStorageService.findIndex id convs); simpl.
  - split; [discriminate|]. intros H. apply IH in H. discriminate.
  - split; [|reflexivity]. intros _. apply IH. reflexivity.
Qed.

Lemma findConversation_insert_other (id id' : string) (convs : list Conversation)
    (i : nat) (c c' : Conversation) :
  convs !! i = Some c -> conv_id c' = conv_id c -> id' <> conv_id c ->
  LocalStorageService.findConversation id' (<[i := c']> convs)
  = LocalStorageService.findConversation id' convs.
Proof.
  unfold LocalStorageService.findConversation.
  revert i. induction convs as [|c0 convs IH]; intros i; [discriminate|].
  destruct i as [|i]; simpl.
  - intros [= ->] Hid Hne. rewrite Hid.
    destruct (String.eqb (conv_id c) id') eqn:E; [|reflexivity].
    apply String.eqb_eq in E. congruence.
  - intros Hi Hid Hne. destruct (String.eqb (conv_id c0) id'); [reflexivity|].
    apply (IH i); auto.
Qed.

(** X1. On a store whose conversations entry is absent or holds a list of
    conversations, a conversation that was just created is found under
    its id (getConversation returns it, also when the store had no
    conversations entry before), with the title cut to 50 characters, no
    messages counted and an empty message list.  The conversations and
    message lists stored under other ids, and the stored current id, are
    as before. *)
Theorem create_then_get (title : string) (env : Env)
    (ls : LocalStorageService.LocalStorage) :
  let created := fst (LocalStorageService.createConversation title env ls) in
  let ls' := snd (LocalStorageService.createConversation title env ls) in
  LocalStorageService.getConversation ls' (env_conversationId env)
    = Ok (Some (created, Some []))
  /\ conv_id created = env_conversationId env
  /\ conv_title created = JsString.take 50 title
  /\ conv_messageCount created = 0
  /\ conv_isPinned created = false
  /\ LocalStorageService.getCurrentConversationId ls'
     = LocalStorageService.getCurrentConversationId ls
  /\ forall id, id <> env_conversationId env ->
       LocalStorageService.findConversation id
         (LocalStorageService.getConversationsOrEmpty ls')
       = LocalStorageService.findConversation id
           (LocalStorageService.getConversationsOrEmpty ls)
       /\ LocalStorageService.getMessages ls' id
          = LocalStorageService.getMessages ls id.
Proof.
  cbn zeta. split_conj; try reflexivity.
  - unfold LocalStorageService.getConversation,
      LocalStorageService.findConversation,
      LocalStorageService.getMessages. simpl.
    rewrite String.eqb_refl, lookup_insert_eq. reflexivity.
  - intros id Hne. split.
    + unfold LocalStorageService.findConversation. simpl.
      apply not_eq_sym, String.eqb_neq in Hne. rewrite Hne. reflexivity.
    + unfold LocalStorageService.getMessages. simpl.
      apply lookup_insert_ne. congruence.
Qed.

Lemma create_then_get_witness :
  LocalStorageService.findConversation "c1"
    (LocalStorageService.getConversationsOrEmpty
       (snd (LocalStorageService.createConversation "Second"
               (mkEnv "c2" "m2" "2024-01-02T00:00:00.000Z") storedAfterCreate)))
  = LocalStorageService.findConversation "c1"
      (LocalStorageService.getConversationsOrEmpty storedAfterCreate)
  /\ LocalStorageService.getMessages
       (snd (LocalStorageService.createConversation "Second"
               (mkEnv "c2" "m2" "2024-01-02T00:00:00.000Z") storedAfterCreate)) "c1"
     = LocalStorageService.getMessages storedAfterCreate "c1".
Proof.
  destruct (create_then_get "Second" (mkEnv "c2" "m2" "2024-01-02T00:00:00.000Z")
              storedAfterCreate) as (_ & _ & _ & _ & _ & _ & H).
  apply (H "c1"). discriminate.
Defined.

Lemma withoutId_length (id : string) (convs : list Conversation) :
  Nat.eqb (length (withoutId id convs)) (length convs)
  = negb (existsb (fun c => String.eqb (conv_id c) id) convs).
Proof.
  assert (Hle : forall l, length (withoutId id l) <= length l).
  { intros l. unfold withoutId. apply filter_length_le. }
  induction convs as [|c convs IH]; [reflexivity|].
  unfold withoutId in *. simpl.
  destruct (String.eqb (conv_id c) id); simpl.
  - apply Nat.eqb_neq. specialize (Hle convs). unfold withoutId in Hle. lia.
  - exact IH.
Qed.

Lemma withoutId_find (id : string) (convs : list Conversation) :
  LocalStorageService.findConversation id (withoutId id convs) = None.
Proof.
  unfold LocalStorageService.findConversation, withoutId.
  induction convs as [|c convs IH]; simpl; [reflexivity|].
  destruct (String.eqb (conv_id c) id) eqn:E; simpl; [exact IH|].
  rewrite E. exact IH.
Qed.

(** X2. deleteConversation returns true exactly when a stored
    conversation has the id.  Afterwards the stored list is the old one
    without that id, so the id is no longer found.  When it returned true,
    the message list of the id is gone, the other message lists are kept,
    and the stored current id is not the deleted one (it is kept when it
    was another one).  When it returned false, nothing was written. *)
Theorem delete_removes_conversation (id : string)
    (ls : LocalStorageService.LocalStorage) :
  let deleted := fst (LocalStorageService.deleteConversation id ls) in
  let ls' := snd (LocalStorageService.deleteConversation id ls) in
  deleted = existsb (fun c => String.eqb (conv_id c) id)
                    (LocalStorageService.getConversationsOrEmpty ls)
  /\ LocalStorageService.getConversationsOrEmpty ls'
     = withoutId id (LocalStorageService.getConversationsOrEmpty ls)
  /\ LocalStorageService.findConversation id
       (LocalStorageService.getConversationsOrEmpty ls') = None
  /\ (deleted = true ->
      LocalStorageService.getMessages ls' id = None
      /\ LocalStorageService.getCurrentConversationId ls' <> Some id
      /\ (forall k, k <> id ->
            LocalStorageService.getMessages ls' k
            = LocalStorageService.getMessages ls k)
      /\ (LocalStorageService.getCurrentConversationId ls <> Some id ->
          LocalStorageService.getCurrentConversationId ls'
          = LocalStorageService.getCurrentConversationId ls))
  /\ (deleted = false -> ls' = ls).
Proof.
  cbn zeta.
  pose proof (stored_after_delete id ls) as Hstored.
  split; [|split; [exact Hstored|split; [rewrite Hstored; apply withoutId_find|]]].
  - unfold LocalStorageService.deleteConversation.
    rewrite withoutId_length.
    destruct (existsb _ _); reflexivity.
  - unfold LocalStorageService.deleteConversation.
    rewrite withoutId_length.
    destruct (existsb _ _); cbn [negb fst snd];
      split; try discriminate; try reflexivity.
    intros _.
    set (ls2 := LocalStorageService.removeMessagesItem id _).
    assert (Hmsgs : forall k, LocalStorageService.getMessages ls2 k
                              = if String.eqb k id then None
                                else LocalStorageService.getMessages ls k).
    { intros k. subst ls2. unfold LocalStorageService.getMessages. simpl.
      destruct (String.eqb k id) eqn:E.
      - apply String.eqb_eq in E. subst k. apply lookup_delete_eq.
      - apply String.eqb_neq in E. apply lookup_delete_ne. congruence. }
    assert (Hcur : LocalStorageService.getCurrentConversationId ls2
                   = LocalStorageService.getCurrentConversationId ls) by reflexivity.
    destruct (LocalStorageService.getCurrentConversationId ls2) as [cur|] eqn:Ecur.
    + destruct (String.eqb cur id) eqn:E.
      * apply String.eqb_eq in E. subst cur.
        split_conj.
        -- rewrite getMessages_setCurrent, Hmsgs, String.eqb_refl. reflexivity.
        -- discriminate.
        -- intros k Hk. rewrite getMessages_setCurrent, Hmsgs.
           apply String.eqb_neq in Hk. rewrite Hk. reflexivity.
        -- intros Hne. rewrite <- Hcur in Hne. congruence.
      * apply String.eqb_neq in E. split_conj.
        -- rewrite Hmsgs, String.eqb_refl. reflexivity.
        -- rewrite Ecur. congruence.
        -- intros k Hk. rewrite Hmsgs. apply String.eqb_neq in Hk.
           rewrite Hk. reflexivity.
        -- intros _. rewrite Ecur. exact Hcur.
    + split_conj.
      * rewrite Hmsgs, String.eqb_refl. reflexivity.
      * rewrite Ecur. discriminate.
      * intros k Hk. rewrite Hmsgs. apply String.eqb_neq in Hk.
        rewrite Hk. reflexivity.
      * intros _. rewrite Ecur. exact Hcur.
Qed.

Lemma delete_removes_conversation_witness :
  (LocalStorageService.getMessages
     (snd (LocalStorageService.deleteConversation "c2" twoStored)) "c2" = None
   /\ LocalStorageService.getCurrentConversationId
        (snd (LocalStorageService.deleteConversation "c2" twoStored)) <> Some "c2"
   /\ (forall k, k <> "c2" ->
         LocalStorageService.getMessages
           (snd (LocalStorageService.deleteConversation "c2" twoStored)) k
         = LocalStorageService.getMessages twoStored k)
   /\ (LocalStorageService.getCurrentConversationId twoStored <> Some "c2" ->
       LocalStorageService.getCurrentConversationId
         (snd (LocalStorageService.deleteConversation "c2" twoStored))
       = LocalStorageService.getCurrentConversationId twoStored))
  /\ snd (LocalStorageService.deleteConversation "c9" twoStored) = twoStored.
Proof.
  split.
  - destruct (delete_removes_conversation "c2" twoStored) as (_ & _ & _ & H & _).
    apply H. reflexivity.
  - destruct (delete_removes_conversation "c9" twoStored) as (_ & _ & _ & _ & H).
    apply H. reflexivity.
Defined.

(** X3. addMessage on a conversation whose message list is stored appends
    the message to that list (a message without id gets a generated one)
    and, when the conversation is in the stored list, sets its
    messageCount to the new length of the list and its updatedAt to the
    current time, keeping its id, creation date and pin.  On a
    conversation without a stored message list it throws a TypeError. *)
Theorem addMessage_keeps_count (conversationId : string) (message : Message)
    (env : Env) (ls : LocalStorageService.LocalStorage) :
  (LocalStorageService.getMessages ls conversationId = None ->
   LocalStorageService.addMessage conversationId message env ls = Throw TypeError)
  /\ (forall stored,
        LocalStorageService.getMessages ls conversationId = Some stored ->
        exists newMessage ls',
          LocalStorageService.addMessage conversationId message env ls
          = Ok (newMessage, ls')
          /\ LocalStorageService.getMessages ls' conversationId
             = Some (stored ++ [newMessage])
          /\ msg_id newMessage
             = (if JsString.truthy (msg_id message) then msg_id message
                else env_messageId env)
          /\ (forall c,
                LocalStorageService.findConversation conversationId
                  (LocalStorageService.getConversationsOrEmpty ls) = Some c ->
                exists c',
                  LocalStorageService.findConversation conversationId
                    (LocalStorageService.getConversationsOrEmpty ls') = Some c'
                  /\ conv_messageCount c' = length stored + 1
                  /\ conv_updatedAt c' = env_now env
                  /\ conv_id c' = conv_id c
                  /\ conv_createdAt c' = conv_createdAt c
                  /\ conv_isPinned c' = conv_isPinned c)).
Proof.
  split.
  - intros H. unfold LocalStorageService.addMessage. rewrite H. reflexivity.
  - intros stored Hstored.
    unfold LocalStorageService.addMessage. rewrite Hstored.
    eexists _, _. split; [reflexivity|].
    set (convs := LocalStorageService.getConversationsOrEmpty ls).
    change (LocalStorageService.getConversationsOrEmpty
              (LocalStorageService.setMessagesItem conversationId _ ls)) with convs.
    assert (Hmsgs : forall l x k,
              LocalStorageService.getMessages
                (LocalStorageService.setConversationsItem l x) k
              = LocalStorageService.getMessages x k) by reflexivity.
    destruct (LocalStorageService.findIndex conversationId convs) as [i|] eqn:Ei.
    + destruct (findIndex_spec _ _ _ Ei) as (c0 & Hc0 & Hfind & Hid0). rewrite Hc0.
      change (LocalStorageService.getConversationsOrEmpty
                (LocalStorageService.setConversationsItem ?l _)) with l.
      rewrite !Hmsgs. split_conj.
      * unfold LocalStorageService.getMessages. simpl. apply lookup_insert_eq.
      * reflexivity.
      * intros c Hc. rewrite Hfind in Hc. injection Hc as <-.
        eexists. split; [apply findConversation_insert; [exact Ei | exact Hid0]|].
        simpl. rewrite length_app. simpl. split_conj; reflexivity.
    + split_conj.
      * unfold LocalStorageService.getMessages. simpl. apply lookup_insert_eq.
      * reflexivity.
      * intros c Hc. apply findIndex_none in Ei. congruence.
Qed.

Lemma addMessage_keeps_count_witness :
  LocalStorageService.addMessage "c7"
    (ChatApp.userMessage "user-1" "hello" "2024-01-01T00:00:01.000Z")
    sampleEnv storedAfterCreate = Throw TypeError
  /\ exists newMessage ls',
       LocalStorageService.addMessage "c1"
         (ChatApp.userMessage "user-1" "hello" "2024-01-01T00:00:01.000Z")
         sampleEnv storedAfterCreate
       = Ok (newMessage, ls')
       /\ LocalStorageService.getMessages ls' "c1" = Some ([] ++ [newMessage])
       /\ msg_id newMessage = "user-1".
Proof.
  destruct (addMessage_keeps_count "c7"
              (ChatApp.userMessage "user-1" "hello" "2024-01-01T00:00:01.000Z")
              sampleEnv storedAfterCreate) as [Habsent _].
  destruct (addMessage_keeps_count "c1"
              (ChatApp.userMessage "user-1" "hello" "2024-01-01T00:00:01.000Z")
              sampleEnv storedAfterCreate) as [_ Hpresent].
  split; [apply Habsent; reflexivity|].
  destruct (Hpresent [] eq_refl) as (newMessage & ls' & H1 & H2 & H3 & _).
  exists newMessage, ls'. auto.
Defined.

Lemma findMessageIndex_none (messageId : string) (u : MessageUpdates)
    (msgs : list Message) :
  LocalStorageService.findMessageIndex messageId msgs = None ->
  updateMessage messageId u msgs = msgs.
Proof.
  unfold updateMessage.
  induction msgs as [|m msgs IH]; simpl; [reflexivity|].
  destruct (String.eqb (msg_id m) messageId); [discriminate|].
  destruct (LocalStorageService.findMessageIndex messageId msgs); [discriminate|].
  intros _. rewrite IH by reflexivity. reflexivity.
Qed.

Lemma updateMessage_absent (messageId : string) (u : MessageUpdates)
    (msgs : list Message) :
  ~ In messageId (map msg_id msgs) -> updateMessage messageId u msgs = msgs.
Proof.
  unfold updateMessage.
  induction msgs as [|m msgs IH]; simpl; [reflexivity|].
  intros Hnot. destruct (String.eqb (msg_id m) messageId) eqn:E.
  - apply String.eqb_eq in E. tauto.
  - rewrite IH by tauto. reflexivity.
Qed.

Lemma findMessageIndex_some (messageId : string) (u : MessageUpdates)
    (msgs : list Message) (i : nat) :
  LocalStorageService.findMessageIndex messageId msgs = Some i ->
  List.NoDup (map msg_id msgs) ->
  exists m, msgs !! i = Some m /\ msg_id m = messageId
            /\ <[i := spread m u]> msgs = updateMessage messageId u msgs.
Proof.
  revert i. induction msgs as [|m msgs IH]; intros i; simpl; [discriminate|].
  intros Hfind Hnodup. apply NoDup_cons_iff in Hnodup. destruct Hnodup as [Hnot Hnodup].
  destruct (String.eqb (msg_id m) messageId) eqn:E.
  - injection Hfind as <-. apply String.eqb_eq in E. exists m. simpl.
    split_conj; auto. rewrite <- E in *.
    fold (updateMessage (msg_id m) u msgs).
    rewrite updateMessage_absent by exact Hnot. reflexivity.
  - destruct (LocalStorageService.findMessageIndex messageId msgs) as [j|];
      [|discriminate].
    injection Hfind as <-. destruct (IH j eq_refl Hnodup) as (m' & Hj & Hid & Hins).
    exists m'. simpl. split_conj; auto.
    fold (updateMessage messageId u msgs). rewrite Hins. reflexivity.
Qed.

(** X4. On a stored message list with distinct ids, the store's
    updateMessage leaves exactly the list that the in-memory update
    (the map over the list) produces: the message with the id takes the
    updates, every other one is kept, and an unknown id changes nothing
    and returns null.  Other conversations' lists are never touched.
    Without a stored list it throws a TypeError. *)
Theorem stored_update_is_the_memory_update (conversationId messageId : string)
    (u : MessageUpdates) (ls : LocalStorageService.LocalStorage) :
  (LocalStorageService.getMessages ls conversationId = None ->
   LocalStorageService.updateMessage conversationId messageId u ls = Throw TypeError)
  /\ (forall stored,
        LocalStorageService.getMessages ls conversationId = Some stored ->
        List.NoDup (map msg_id stored) ->
        exists updated ls',
          LocalStorageService.updateMessage conversationId messageId u ls
          = Ok (updated, ls')
          /\ LocalStorageService.getMessages ls' conversationId
             = Some (updateMessage messageId u stored)
          /\ updated
             = (fun m => spread m u)
                 <$> List.find (fun m => String.eqb (msg_id m) messageId) stored
          /\ (forall k, k <> conversationId ->
                LocalStorageService.getMessages ls' k
                = LocalStorageService.getMessages ls k)
          /\ LocalStorageService.getConversations ls'
             = LocalStorageService.getConversations ls).
Proof.
  split.
  - intros H. unfold LocalStorageService.updateMessage. rewrite H. reflexivity.
  - intros stored Hstored Hnodup.
    unfold LocalStorageService.updateMessage. rewrite Hstored.
    destruct (LocalStorageService.findMessageIndex messageId stored) as [i|] eqn:Ei.
    + destruct (findMessageIndex_some _ u _ _ Ei Hnodup) as (m & Hi & Hid & Hins).
      rewrite Hi. eexists _, _. split; [reflexivity|]. split_conj.
      * unfold LocalStorageService.getMessages. simpl.
        rewrite lookup_insert_eq, Hins. reflexivity.
      * clear Hins Hnodup Hstored. revert i Ei Hi.
        induction stored as [|m0 stored IH]; intros i; simpl; [discriminate|].
        destruct (String.eqb (msg_id m0) messageId).
        -- intros [= <-] [= ->]. reflexivity.
        -- destruct (LocalStorageService.findMessageIndex messageId stored) as [j|];
             [|discriminate].
           intros [= <-] Hj. apply (IH j); auto.
      * intros k Hk. unfold LocalStorageService.getMessages. simpl.
        apply lookup_insert_ne. congruence.
      * reflexivity.
    + eexists _, _. split; [reflexivity|]. split_conj.
      * rewrite (findMessageIndex_none _ u _ Ei). exact Hstored.
      * clear Hnodup Hstored. induction stored as [|m0 stored IH]; simpl in *;
          [reflexivity|].
        destruct (String.eqb (msg_id m0) messageId); [discriminate|].
        destruct (LocalStorageService.findMessageIndex messageId stored);
          [discriminate|]. apply IH. reflexivity.
      * reflexivity.
      * reflexivity.
Qed.

Lemma stored_update_is_the_memory_update_witness :
  LocalStorageService.updateMessage "c7" "welcome" doneUpdates twoStored
  = Throw TypeError
  /\ exists updated ls',
       LocalStorageService.updateMessage "c1" "welcome" (textUpdates "Hi") twoStored
       = Ok (updated, ls')
       /\ LocalStorageService.getMessages ls' "c1"
          = Some (updateMessage "welcome" (textUpdates "Hi")
                    [welcomeMessage "2024-01-01T00:00:00.000Z"]).
Proof.
  destruct (stored_update_is_the_memory_update "c7" "welcome" doneUpdates twoStored)
    as [Habsent _].
  destruct (stored_update_is_the_memory_update "c1" "welcome" (textUpdates "Hi")
              twoStored) as [_ Hpresent].
  split; [apply Habsent; reflexivity|].
  destruct (Hpresent [welcomeMessage "2024-01-01T00:00:00.000Z"] eq_refl)
    as (updated & ls' & H1 & H2 & _).
  - repeat constructor. simpl. tauto.
  - exists updated, ls'. auto.
Defined.

Lemma insert_same_id (convs : list Conversation) (i : nat) (c c' : Conversation) :
  convs !! i = Some c -> conv_id c' = conv_id c ->
  map conv_id (<[i := c']> convs) = map conv_id convs.
Proof.
  revert i. induction convs as [|c0 convs IH]; intros [|i]; simpl;
    try discriminate.
  - intros [= ->] ->. reflexivity.
  - intros Hi Hid. rewrite (IH i Hi Hid). reflexivity.
Qed.

(** X5. updateConversation on an id that is not stored returns null and
    writes nothing.  On a stored id it returns the first conversation
    with that id with the given title and pin applied and updatedAt set
    to the current time, its id, creation date and message count kept;
    reading the conversation back gives exactly what was returned; the
    stored list keeps its ids and their order, conversations with another
    id are found as before, and no message list nor the current id
    changes. *)
Theorem updateConversation_round_trip (id : string) (updates : ConversationUpdates)
    (env : Env) (ls : LocalStorageService.LocalStorage) :
  let r := LocalStorageService.updateConversation id updates env ls in
  (LocalStorageService.findConversation id
     (LocalStorageService.getConversationsOrEmpty ls) = None ->
   r = (None, ls))
  /\ (forall old,
        LocalStorageService.findConversation id
          (LocalStorageService.getConversationsOrEmpty ls) = Some old ->
        let updated :=
          mkConversation (conv_id old)
            (default (conv_title old) (cu_title updates))
            (conv_createdAt old) (env_now env)
            (default (conv_isPinned old) (cu_isPinned updates))
            (conv_messageCount old) in
        fst r = Some updated
        /\ LocalStorageService.getConversation (snd r) id
           = Ok (Some (updated, LocalStorageService.getMessages ls id))
        /\ map conv_id (LocalStorageService.getConversationsOrEmpty (snd r))
           = map conv_id (LocalStorageService.getConversationsOrEmpty ls)
        /\ (forall id', id' <> id ->
              LocalStorageService.findConversation id'
                (LocalStorageService.getConversationsOrEmpty (snd r))
              = LocalStorageService.findConversation id'
                  (LocalStorageService.getConversationsOrEmpty ls))
        /\ (forall k, LocalStorageService.getMessages (snd r) k
                      = LocalStorageService.getMessages ls k)
        /\ LocalStorageService.getCurrentConversationId (snd r)
           = LocalStorageService.getCurrentConversationId ls).
Proof.
  cbn zeta. unfold LocalStorageService.updateConversation.
  set (convs := LocalStorageService.getConversationsOrEmpty ls).
  split.
  - intros Hnone. apply findIndex_none in Hnone. rewrite Hnone. reflexivity.
  - intros old Hold.
    destruct (LocalStorageService.findIndex id convs) as [i|] eqn:Ei.
    2: { apply findIndex_none in Ei. congruence. }
    destruct (findIndex_spec _ _ _ Ei) as (c & Hc & Hfind & Hid).
    rewrite Hfind in Hold. injection Hold as <-. rewrite Hc.
    cbn [fst snd].
    change (LocalStorageService.getConversationsOrEmpty
              (LocalStorageService.setConversationsItem ?l _)) with l.
    split_conj; try reflexivity.
    + unfold LocalStorageService.getConversation. simpl.
      fold convs.
      rewrite (findConversation_insert id convs i _ Ei) by exact Hid.
      reflexivity.
    + apply (insert_same_id convs i c); auto.
    + intros id' Hne. apply (findConversation_insert_other id id' convs i c); auto.
      congruence.
Qed.

Lemma updateConversation_round_trip_witness :
  LocalStorageService.updateConversation "c9" (mkConvUpdates None (Some true))
    sampleEnv twoStored = (None, twoStored)
  /\ fst (LocalStorageService.updateConversation "c1" (mkConvUpdates None (Some true))
            (mkEnv "c3" "m3" "2024-01-05T00:00:00.000Z") twoStored)
     = Some (mkConversation "c1" "New Chat" "2024-01-01T00:00:00.000Z"
               "2024-01-05T00:00:00.000Z" true 1).
Proof.
  split.
  - destruct (updateConversation_round_trip "c9" (mkConvUpdates None (Some true))
                sampleEnv twoStored) as [H _].
    apply H. reflexivity.
  - destruct (updateConversation_round_trip "c1" (mkConvUpdates None (Some true))
                (mkEnv "c3" "m3" "2024-01-05T00:00:00.000Z") twoStored) as [_ H].
    destruct (H (mkConversation "c1" "New Chat" "2024-01-01T00:00:00.000Z"
                   "2024-01-01T00:00:00.000Z" false 1) eq_refl) as [H1 _].
    exact H1.
Defined.

Lemma lookup_delete_all (convs : list Conversation) :
  forall (entries : gmap string (list Message)) (k : string),
    fold_left (fun e c => delete (conv_id c) e) convs entries !! k
    = if existsb (fun c => String.eqb (conv_id c) k) convs then None
      else entries !! k.
Proof.
  induction convs as [|c convs IH]; intros entries k; simpl; [reflexivity|].
  rewrite IH. destruct (existsb _ convs); [rewrite orb_true_r; reflexivity|].
  rewrite orb_false_r. destruct (String.eqb (conv_id c) k) eqn:E.
  - apply String.eqb_eq in E. subst k. apply lookup_delete_eq.
  - apply String.eqb_neq in E. apply lookup_delete_ne. exact E.
Qed.

(** X6. clearAllData on a store that has the conversations entry removes
    that entry, the current id and the message list of every listed
    conversation; a message list stored under an id that is not listed
    survives.  On a store without the conversations entry it throws a
    TypeError and removes nothing. *)
Theorem clearAllData_removes_listed (ls : LocalStorageService.LocalStorage) :
  (LocalStorageService.getConversations ls = None ->
   LocalStorageService.clearAllData ls = Throw TypeError)
  /\ (forall convs,
        LocalStorageService.getConversations ls = Some convs ->
        exists ls',
          LocalStorageService.clearAllData ls = Ok ls'
          /\ LocalStorageService.getConversations ls' = None
          /\ LocalStorageService.getCurrentConversationId ls' = None
          /\ forall k,
               LocalStorageService.getMessages ls' k
               = if existsb (fun c => String.eqb (conv_id c) k) convs then None
                 else LocalStorageService.getMessages ls k).
Proof.
  unfold LocalStorageService.clearAllData. split.
  - intros ->. reflexivity.
  - intros convs ->. eexists. split; [reflexivity|]. split_conj; try reflexivity.
    intros k. unfold LocalStorageService.getMessages. simpl.
    apply lookup_delete_all.
Qed.

Lemma clearAllData_removes_listed_witness :
  LocalStorageService.clearAllData LocalStorageService.emptyStorage = Throw TypeError
  /\ exists ls',
       LocalStorageService.clearAllData twoStored = Ok ls'
       /\ LocalStorageService.getConversations ls' = None
       /\ LocalStorageService.getCurrentConversationId ls' = None
       /\ LocalStorageService.getMessages ls' "c1" = None.
Proof.
  split.
  - destruct (clearAllData_removes_listed LocalStorageService.emptyStorage) as [H _].
    apply H. reflexivity.
  - destruct (clearAllData_removes_listed twoStored) as [_ H].
    destruct (H _ eq_refl) as (ls' & H1 & H2 & H3 & H4).
    exists ls'. split_conj; auto; rewrite H4; reflexivity.
Defined.

(** * Further properties of grouping and pagination *)

(** X7. A pinned conversation is in the pinned group whatever its date;
    an unpinned one whose date does not parse is in the older group.  When
    the four bounds are in order (lastMonth <= lastWeek <= yesterday <=
    today, as the day arithmetic makes them), an unpinned conversation
    never lands in an older group than an unpinned conversation updated
    before it. *)
Theorem newer_is_never_in_an_older_group (dateValue : string -> option Z)
    (todayStart yesterdayStart lastWeekStart lastMonthStart : Z) :
  (forall c, conv_isPinned c = true ->
     groupOf dateValue todayStart yesterdayStart lastWeekStart lastMonthStart c
     = Pinned)
  /\ (forall c, conv_isPinned c = false -> dateValue (conv_updatedAt c) = None ->
        groupOf dateValue todayStart yesterdayStart lastWeekStart lastMonthStart c
        = Older)
  /\ ((lastMonthStart <= lastWeekStart)%Z -> (lastWeekStart <= yesterdayStart)%Z ->
      (yesterdayStart <= todayStart)%Z ->
      forall c1 c2 t1 t2,
        conv_isPinned c1 = false -> conv_isPinned c2 = false ->
        dateValue (conv_updatedAt c1) = Some t1 ->
        dateValue (conv_updatedAt c2) = Some t2 ->
        (t1 <= t2)%Z ->
        groupRank (groupOf dateValue todayStart yesterdayStart lastWeekStart
                           lastMonthStart c2)
        <= groupRank (groupOf dateValue todayStart yesterdayStart lastWeekStart
                              lastMonthStart c1)).
Proof.
  split; [|split].
  - intros c Hp. unfold groupOf. rewrite Hp. reflexivity.
  - intros c Hp Hd. unfold groupOf. rewrite Hp, Hd. reflexivity.
  - intros H1 H2 H3 c1 c2 t1 t2 Hp1 Hp2 Hd1 Hd2 Hle.
    unfold groupOf. rewrite Hp1, Hp2, Hd1, Hd2. unfold dateGe.
    repeat match goal with
           | |- context [Z.leb ?a ?b] =>
               let E := fresh "E" in
               destruct (Z.leb a b) eqn:E;
               [apply Z.leb_le in E | apply Z.leb_gt in E]
           end; simpl; lia.
Qed.

Lemma newer_is_never_in_an_older_group_witness :
  groupOf (fun s => if String.eqb s "yesterday noon" then Some 50%Z
                    else if String.eqb s "today noon" then Some 150%Z else None)
          100 0 (-600) (-2900)
          (mkConversation "c1" "A" "x" "garbage" true 0) = Pinned
  /\ groupOf (fun s => if String.eqb s "yesterday noon" then Some 50%Z
                       else if String.eqb s "today noon" then Some 150%Z else None)
             100 0 (-600) (-2900)
             (mkConversation "c1" "A" "x" "garbage" false 0) = Older
  /\ groupRank
       (groupOf (fun s => if String.eqb s "yesterday noon" then Some 50%Z
                          else if String.eqb s "today noon" then Some 150%Z else None)
                100 0 (-600) (-2900)
                (mkConversation "c2" "B" "x" "today noon" false 0))
     <= groupRank
          (groupOf (fun s => if String.eqb s "yesterday noon" then Some 50%Z
                             else if String.eqb s "today noon" then Some 150%Z else None)
                   100 0 (-600) (-2900)
                   (mkConversation "c1" "A" "x" "yesterday noon" false 0)).
Proof.
  destruct (newer_is_never_in_an_older_group
              (fun s => if String.eqb s "yesterday noon" then Some 50%Z
                        else if String.eqb s "today noon" then Some 150%Z else None)
              100 0 (-600) (-2900)) as (Hpin & Hbad & Horder).
  split; [apply Hpin; reflexivity|]. split; [apply Hbad; reflexivity|].
  apply (Horder ltac:(lia) ltac:(lia) ltac:(lia) _ _ 50%Z 150%Z);
    try reflexivity. lia.
Defined.

Lemma totalPages_bounds (n : nat) :
  (totalPages n - 1) * ROWS_PER_PAGE < n + (if Nat.eqb n 0 then 1 else 0)
  /\ n <= totalPages n * ROWS_PER_PAGE.
Proof.
  unfold totalPages, ROWS_PER_PAGE.
  pose proof (Nat.div_mod_eq (n + (10 - 1)) 10) as H.
  pose proof (Nat.mod_upper_bound (n + (10 - 1)) 10) as Hm.
  destruct (Nat.eqb n 0) eqn:E; [apply Nat.eqb_eq in E | apply Nat.eqb_neq in E]; lia.
Qed.

Lemma currentRows_length {A} (rows : list A) (p : nat) :
  length (currentRows rows p)
  = Nat.min ROWS_PER_PAGE (length rows - (p - 1) * ROWS_PER_PAGE).
Proof.
  unfold currentRows, sliceRows.
  rewrite length_take, length_drop.
  replace ((p - 1) * ROWS_PER_PAGE + ROWS_PER_PAGE - (p - 1) * ROWS_PER_PAGE)
    with ROWS_PER_PAGE by lia.
  reflexivity.
Qed.

(** X8. Every page from 1 to the last holds at least one row and at most
    ten; every page before the last holds exactly ten, the last one the
    rows that are left; a page number beyond the last shows no row. *)
Theorem page_sizes {A} (rows : list A) (p : nat) :
  (1 <= p -> p <= totalPages (length rows) ->
   1 <= length (currentRows rows p) <= ROWS_PER_PAGE
   /\ (p < totalPages (length rows) ->
       length (currentRows rows p) = ROWS_PER_PAGE)
   /\ (p = totalPages (length rows) ->
       length (currentRows rows p) = length rows - (p - 1) * ROWS_PER_PAGE))
  /\ (totalPages (length rows) < p -> currentRows rows p = []).
Proof.
  pose proof (totalPages_bounds (length rows)) as [Hlo Hhi].
  pose proof (currentRows_length rows p) as Hlen.
  unfold ROWS_PER_PAGE in *.
  split.
  - intros H1 Hp.
    assert (Hn : length rows <> 0).
    { intros E. rewrite E in Hp. unfold totalPages, ROWS_PER_PAGE in Hp.
      simpl in Hp. lia. }
    apply Nat.eqb_neq in Hn. rewrite Hn in Hlo.
    assert (Hbelow : (p - 1) * 10 < length rows) by nia.
    split; [lia|]. split.
    + intros Hlt. assert (p * 10 <= (totalPages (length rows) - 1) * 10) by nia. lia.
    + intros ->. lia.
  - intros Hgt. apply length_zero_iff_nil.
    assert (length rows <= (p - 1) * 10) by nia. lia.
Qed.

Lemma page_sizes_witness :
  (1 <= length (currentRows (seq 0 23) 3) <= ROWS_PER_PAGE
   /\ (3 < totalPages (length (seq 0 23)) ->
       length (currentRows (seq 0 23) 3) = ROWS_PER_PAGE)
   /\ (3 = totalPages (length (seq 0 23)) ->
       length (currentRows (seq 0 23) 3) = length (seq 0 23) - (3 - 1) * ROWS_PER_PAGE))
  /\ currentRows (seq 0 23) 4 = [].
Proof.
  split.
  - apply (proj1 (page_sizes (seq 0 23) 3)); vm_compute; lia.
  - apply (proj2 (page_sizes (seq 0 23) 4)). vm_compute. lia.
Defined.

(** X9. goToPage ignores a page number outside 1 .. totalPages.  Hence a
    table with rows, opened on page 1, stays on an existing page whatever
    pages are asked for, and the page shown is never empty. *)
Theorem pager_stays_on_a_page {A} (rows : list A) (requests : list nat) :
  rows <> [] ->
  1 <= visitPages rows requests 1 <= totalPages (length rows)
  /\ currentRows rows (visitPages rows requests 1) <> [].
Proof.
  intros Hrows.
  assert (Hn : 1 <= length rows).
  { destruct rows; [congruence | simpl; lia]. }
  assert (H1 : 1 <= 1 <= totalPages (length rows)).
  { pose proof (totalPages_bounds (length rows)) as [_ Hhi].
    unfold ROWS_PER_PAGE in Hhi. lia. }
  assert (Hin : forall requests page,
             1 <= page <= totalPages (length rows) ->
             1 <= visitPages rows requests page <= totalPages (length rows)).
  { clear requests. unfold visitPages.
    induction requests as [|r requests IH]; intros page Hpage; simpl; [exact Hpage|].
    apply IH. apply goToPage_in_range. exact Hpage. }
  specialize (Hin requests 1 H1). split; [exact Hin|].
  intros Hnil.
  pose proof (currentRows_length rows (visitPages rows requests 1)) as Hlen.
  rewrite Hnil in Hlen. cbn [length] in Hlen.
  pose proof (totalPages_bounds (length rows)) as [Hlo _].
  assert (Hne : Nat.eqb (length rows) 0 = false) by (apply Nat.eqb_neq; lia).
  rewrite Hne in Hlo. unfold ROWS_PER_PAGE in *.
  assert ((visitPages rows requests 1 - 1) * 10 < length rows) by nia.
  lia.
Qed.

Lemma pager_stays_on_a_page_witness :
  1 <= visitPages (seq 0 23) [0; 3; 7; 2; 4] 1 <= totalPages (length (seq 0 23))
  /\ currentRows (seq 0 23) (visitPages (seq 0 23) [0; 3; 7; 2; 4] 1) <> [].
Proof. apply (pager_stays_on_a_page (seq 0 23) [0; 3; 7; 2; 4]). discriminate. Defined.

(** * Further properties of the ingestion loop *)

Lemma applyFrames_lookup (botMessageId : string) (frames : list Frame) :
  forall (msgs : list Message) (i : nat) (m : Message),
    msgs !! i = Some m -> msg_id m = botMessageId ->
    applyFrames botMessageId frames msgs !! i = Some (applyToMessage frames m).
Proof.
  unfold applyFrames, applyToMessage.
  induction frames as [|f frames IH]; intros msgs i m Hi Hid; simpl; [exact Hi|].
  apply IH; [|exact Hid]. apply updateMessage_hit; assumption.
Qed.

Lemma applyToMessage_payloads (frames : list Frame) :
  forall m : Message,
    msg_table (applyToMessage frames m)
      = default (msg_table m) (lastPayload tableOf frames)
    /\ msg_chart (applyToMessage frames m)
       = default (msg_chart m) (lastPayload chartOf frames)
    /\ msg_evidence (applyToMessage frames m)
       = default (msg_evidence m) (lastPayload evidenceOf frames).
Proof.
  unfold applyToMessage.
  induction frames as [|f frames IH]; intros m; simpl; [auto|].
  destruct (IH (spread m (frameUpdates f))) as (Ht & Hc & He).
  rewrite Ht, Hc, He.
  destruct (lastPayload tableOf frames), (lastPayload chartOf frames),
    (lastPayload evidenceOf frames); destruct f; auto.
Qed.

(** X10. After a run of lines made of well-formed frames and lines that
    are passed over, the placeholder's table, chart and evidence are the
    payloads of the last table, chart and evidence frame; a kind of frame
    that did not occur leaves its field as it was. *)
Theorem last_payload_wins (JSON_parse : string -> option jsval)
    (botMessageId : string) (lines : list string) (frames : list Frame)
    (msgs : list Message) (i : nat) (m : Message) :
  linesFrames JSON_parse lines frames ->
  msgs !! i = Some m -> msg_id m = botMessageId ->
  exists msgs' m',
    processLines JSON_parse botMessageId lines msgs = Some msgs'
    /\ msgs' !! i = Some m'
    /\ msg_table m' = default (msg_table m) (lastPayload tableOf frames)
    /\ msg_chart m' = default (msg_chart m) (lastPayload chartOf frames)
    /\ msg_evidence m' = default (msg_evidence m) (lastPayload evidenceOf frames).
Proof.
  intros Hlines Hi Hid.
  exists (applyFrames botMessageId frames msgs), (applyToMessage frames m).
  split; [apply processLines_frames; exact Hlines|].
  split; [apply applyFrames_lookup; assumption|].
  apply applyToMessage_payloads.
Qed.

Lemma sampleLines_frames :
  linesFrames sampleParseTables sampleLines [TableFrame (JArr []); TextFrame "Hi"].
Proof.
  unfold sampleLines.
  apply lines_frame.
  { split; [reflexivity|]. eexists. split; [reflexivity|]. split; reflexivity. }
  apply lines_skip; [left; reflexivity|].
  apply lines_frame; [|apply lines_nil].
  split; [reflexivity|]. eexists. split; [reflexivity|]. split; reflexivity.
Qed.

Lemma tableOnlyLines_frames :
  linesFrames sampleParseTables tableOnlyLines [TableFrame (JArr [])].
Proof.
  unfold tableOnlyLines.
  apply lines_frame.
  { split; [reflexivity|]. eexists. split; [reflexivity|]. split; reflexivity. }
  apply lines_skip; [left; reflexivity|]. apply lines_nil.
Qed.

Lemma last_payload_wins_witness :
  exists msgs' m',
    processLines sampleParseTables "bot-1" sampleLines sampleMessages = Some msgs'
    /\ msgs' !! 2 = Some m'
    /\ msg_table m'
       = default (msg_table (ChatApp.botMessage "bot-1" "2024-01-01T00:00:01.000Z"))
           (lastPayload tableOf [TableFrame (JArr []); TextFrame "Hi"])
    /\ msg_chart m'
       = default (msg_chart (ChatApp.botMessage "bot-1" "2024-01-01T00:00:01.000Z"))
           (lastPayload chartOf [TableFrame (JArr []); TextFrame "Hi"])
    /\ msg_evidence m'
       = default (msg_evidence (ChatApp.botMessage "bot-1" "2024-01-01T00:00:01.000Z"))
           (lastPayload evidenceOf [TableFrame (JArr []); TextFrame "Hi"]).
Proof.
  apply (last_payload_wins sampleParseTables "bot-1" sampleLines
           [TableFrame (JArr []); TextFrame "Hi"] sampleMessages 2
           (ChatApp.botMessage "bot-1" "2024-01-01T00:00:01.000Z")).
  - exact sampleLines_frames.
  - reflexivity.
  - reflexivity.
Defined.

Lemma applyToMessage_flags (frames : list Frame) :
  forall m : Message,
    msg_isThinking (applyToMessage frames m)
      = (if forallb isPayloadFrame frames then msg_isThinking m else false)
    /\ (forallb isPayloadFrame frames = true ->
        msg_answer (applyToMessage frames m) = msg_answer m
        /\ msg_isStreaming (applyToMessage frames m) = msg_isStreaming m)
    /\ msg_displayedAnswer (applyToMessage frames m) = msg_displayedAnswer m
    /\ msg_isError (applyToMessage frames m) = msg_isError m.
Proof.
  unfold applyToMessage.
  induction frames as [|f frames IH]; intros m; simpl; [auto|].
  destruct (IH (spread m (frameUpdates f))) as (Hth & Hans & Hdisp & Herr).
  rewrite Hth, Hdisp, Herr.
  destruct f; simpl; split_conj; auto;
    try (destruct (forallb isPayloadFrame frames); reflexivity);
    try discriminate;
    intros Hall; destruct (Hans Hall) as [-> ->]; auto.
Qed.

(** X11. The thinking state of the placeholder ends with the first text
    or done frame and with nothing else: after lines that carry only
    table, chart and evidence frames isThinking, the answer and the
    streaming flag are what they were, and after lines with a text or a
    done frame isThinking is false.  No frame writes displayedAnswer or
    isError. *)
Theorem thinking_ends_at_text_or_done (JSON_parse : string -> option jsval)
    (botMessageId : string) (lines : list string) (frames : list Frame)
    (msgs : list Message) (i : nat) (m : Message) :
  linesFrames JSON_parse lines frames ->
  msgs !! i = Some m -> msg_id m = botMessageId ->
  exists msgs' m',
    processLines JSON_parse botMessageId lines msgs = Some msgs'
    /\ msgs' !! i = Some m'
    /\ msg_isThinking m'
       = (if forallb isPayloadFrame frames then msg_isThinking m else false)
    /\ (forallb isPayloadFrame frames = true ->
        msg_answer m' = msg_answer m /\ msg_isStreaming m' = msg_isStreaming m)
    /\ msg_displayedAnswer m' = msg_displayedAnswer m
    /\ msg_isError m' = msg_isError m.
Proof.
  intros Hlines Hi Hid.
  exists (applyFrames botMessageId frames msgs), (applyToMessage frames m).
  split; [apply processLines_frames; exact Hlines|].
  split; [apply applyFrames_lookup; assumption|].
  apply applyToMessage_flags.
Qed.

Lemma thinking_ends_at_text_or_done_witness :
  (exists msgs' m',
     processLines sampleParseTables "bot-1" tableOnlyLines sampleMessages = Some msgs'
     /\ msgs' !! 2 = Some m'
     /\ msg_isThinking m' = true
     /\ msg_answer m' = EmptyString)
  /\ (exists msgs' m',
        processLines sampleParseTables "bot-1" sampleLines sampleMessages = Some msgs'
        /\ msgs' !! 2 = Some m'
        /\ msg_isThinking m' = false).
Proof.
  split.
  - destruct (thinking_ends_at_text_or_done sampleParseTables "bot-1" tableOnlyLines
                [TableFrame (JArr [])] sampleMessages 2
                (ChatApp.botMessage "bot-1" "2024-01-01T00:00:01.000Z")
                tableOnlyLines_frames eq_refl eq_refl)
      as (msgs' & m' & H1 & H2 & H3 & H4 & _).
    exists msgs', m'. destruct (H4 eq_refl) as [H5 _]. auto.
  - destruct (thinking_ends_at_text_or_done sampleParseTables "bot-1" sampleLines
                [TableFrame (JArr []); TextFrame "Hi"] sampleMessages 2
                (ChatApp.botMessage "bot-1" "2024-01-01T00:00:01.000Z")
                sampleLines_frames eq_refl eq_refl)
      as (msgs' & m' & H1 & H2 & H3 & _).
    exists msgs', m'. auto.
Defined.

Lemma touchesOnly_refl (botMessageId : string) (msgs : list Message) :
  Forall2 (touchesOnly botMessageId) msgs msgs.
Proof.
  induction msgs; constructor; auto. unfold touchesOnly. auto.
Qed.

Lemma touchesOnly_trans (botMessageId : string) (l1 l2 : list Message) :
  Forall2 (touchesOnly botMessageId) l1 l2 ->
  forall l3, Forall2 (touchesOnly botMessageId) l2 l3 ->
  Forall2 (touchesOnly botMessageId) l1 l3.
Proof.
  induction 1 as [|a b l1 l2 Hab _ IH]; intros l3 H23; inversion H23; subst;
    constructor; [|apply IH; assumption].
  destruct Hab as (Hab & Hid & Hrole & Hcontent & Hts).
  match goal with H : touchesOnly _ b _ |- _ =>
    destruct H as (Hbc & Hid' & Hrole' & Hcontent' & Hts') end.
  unfold touchesOnly. split_conj; try congruence.
  intros Hne. rewrite Hbc by congruence. apply Hab. exact Hne.
Qed.

Lemma updateMessage_touchesOnly (botMessageId : string) (u : MessageUpdates)
    (msgs : list Message) :
  Forall2 (touchesOnly botMessageId) msgs (updateMessage botMessageId u msgs).
Proof.
  induction msgs as [|m msgs IH]; simpl; constructor; [|exact IH].
  unfold touchesOnly.
  destruct (String.eqb (msg_id m) botMessageId) eqn:E; simpl; split_conj; auto.
  apply String.eqb_eq in E. intros Hne. contradiction.
Qed.

Lemma processLine_cases (JSON_parse : string -> option jsval)
    (botMessageId line : string) (msgs msgs' : list Message) :
  processLine JSON_parse botMessageId line msgs = Some msgs' ->
  msgs' = msgs \/ exists u, msgs' = updateMessage botMessageId u msgs.
Proof.
  unfold processLine, parseJson.
  destruct (JsString.startsWith "data: " line); [|intros [= <-]; auto].
  destruct (JSON_parse (JsString.drop 6 line)) as [data|]; simpl;
    [|intros [= <-]; auto].
  destruct (frameAction data) as [[u| |]|e]; simpl; intros [= <-]; eauto.
Qed.

Lemma processLines_touchesOnly (JSON_parse : string -> option jsval)
    (botMessageId : string) (lines : list string) :
  forall msgs msgs',
    processLines JSON_parse botMessageId lines msgs = Some msgs' ->
    Forall2 (touchesOnly botMessageId) msgs msgs'.
Proof.
  induction lines as [|line lines IH]; simpl; intros msgs msgs' H.
  - injection H as <-. apply touchesOnly_refl.
  - destruct (processLine JSON_parse botMessageId line msgs) as [msgs1|] eqn:E;
      [|discriminate].
    apply touchesOnly_trans with msgs1; [|apply IH; exact H].
    destruct (processLine_cases _ _ _ _ _ E) as [->|[u ->]];
      [apply touchesOnly_refl|apply updateMessage_touchesOnly].
Qed.

Lemma processChunks_touchesOnly (JSON_parse : string -> option jsval)
    (botMessageId : string) (chunks : list string) :
  forall msgs msgs',
    processChunks JSON_parse botMessageId chunks msgs = Some msgs' ->
    Forall2 (touchesOnly botMessageId) msgs msgs'.
Proof.
  induction chunks as [|chunk chunks IH]; simpl; intros msgs msgs' H.
  - injection H as <-. apply touchesOnly_refl.
  - destruct (processChunk JSON_parse botMessageId chunk msgs) as [msgs1|] eqn:E;
      [|discriminate].
    apply touchesOnly_trans with msgs1; [|apply IH; exact H].
    apply (processLines_touchesOnly _ _ _ _ _ E).
Qed.

(** X12. Whatever the server sends and however the request ends, the
    request of sendMessage changes no message but the placeholder: the
    message list keeps its length and order, every message with another id
    is exactly what it was, and the placeholder keeps its id, role, content
    and timestamp. *)
Theorem request_touches_only_the_placeholder
    (JSON_parse : string -> option jsval) (botMessageId : string)
    (net : FetchOutcome) (msgs msgs' : list Message) :
  streamResponse JSON_parse botMessageId net msgs = Some msgs' ->
  Forall2 (touchesOnly botMessageId) msgs msgs'.
Proof.
  destruct net as [|[|] chunks readFails]; simpl.
  - intros [= <-]. apply updateMessage_touchesOnly.
  - destruct (processChunks JSON_parse botMessageId chunks msgs) as [msgs1|] eqn:E;
      [|discriminate].
    pose proof (processChunks_touchesOnly _ _ _ _ _ E) as H1.
    destruct readFails; intros [= <-]; [|exact H1].
    apply touchesOnly_trans with msgs1; [exact H1|].
    apply updateMessage_touchesOnly.
  - intros [= <-]. apply updateMessage_touchesOnly.
Qed.

Lemma request_touches_only_the_placeholder_witness :
  Forall2 (touchesOnly "bot-1") sampleMessages
    (updateMessage "bot-1" errorUpdates
       (updateMessage "bot-1" (textUpdates "Hi") sampleMessages)).
Proof.
  apply (request_touches_only_the_placeholder sampleParse "bot-1"
           (FetchResponse true [sampleChunk] true) sampleMessages).
  reflexivity.
Defined.

Lemma splitLines_nonempty (s : string) : JsString.splitLines s <> [].
Proof.
  destruct s as [|c s]; simpl; [discriminate|].
  destruct (Ascii.eqb c JsString.newline); [discriminate|].
  destruct (JsString.splitLines s); discriminate.
Qed.

Lemma splitLines_newline (s t : string) :
  JsString.splitLines (s ++ String JsString.newline t)
  = JsString.splitLines s ++ JsString.splitLines t.
Proof.
  induction s as [|c s IH].
  - reflexivity.
  - change (String c s ++ String JsString.newline t)%string
      with (String c (s ++ String JsString.newline t)).
    cbn [JsString.splitLines].
    destruct (Ascii.eqb c JsString.newline); rewrite IH; [reflexivity|].
    pose proof (splitLines_nonempty s) as Hne.
    destruct (JsString.splitLines s); [contradiction|reflexivity].
Qed.

Lemma processLines_app (JSON_parse : string -> option jsval)
    (botMessageId : string) (l1 l2 : list string) :
  forall msgs,
    processLines JSON_parse botMessageId (l1 ++ l2) msgs
    = match processLines JSON_parse botMessageId l1 msgs with
      | Some msgs' => processLines JSON_parse botMessageId l2 msgs'
      | None => None
      end.
Proof.
  induction l1 as [|line l1 IH]; simpl; intros msgs; [reflexivity|].
  destruct (processLine JSON_parse botMessageId line msgs); [apply IH|reflexivity].
Qed.

(** X13. A response cut into chunks at a line end is ingested as the
    uncut response: reading a chunk that ends in a newline and then the
    next chunk leaves the message list that the two read as one chunk
    leave (the empty line the cut adds is passed over). *)
Theorem chunks_cut_at_a_newline (JSON_parse : string -> option jsval)
    (botMessageId : string) (c1 c2 : string) (rest : list string)
    (msgs : list Message) :
  processChunks JSON_parse botMessageId
    ((c1 ++ String JsString.newline EmptyString)%string :: c2 :: rest) msgs
  = processChunks JSON_parse botMessageId
      ((c1 ++ String JsString.newline c2)%string :: rest) msgs.
Proof.
  simpl. unfold processChunk.
  rewrite !splitLines_newline, !processLines_app.
  destruct (processLines JSON_parse botMessageId (JsString.splitLines c1) msgs)
    as [msgs1|]; [|reflexivity].
  simpl. reflexivity.
Qed.

(** * Further properties of the typing animator *)

Lemma withoutDisplayed_updateMessage (messageId : string) (u : MessageUpdates)
    (msgs : list Message) :
  upd_answer u = None -> upd_chart u = None -> upd_table u = None ->
  upd_evidence u = None -> upd_isStreaming u = None ->
  upd_isThinking u = None -> upd_isError u = None ->
  map withoutDisplayed (updateMessage messageId u msgs) = map withoutDisplayed msgs.
Proof.
  intros Ha Hc Ht He Hs Hth Herr. unfold updateMessage. rewrite map_map.
  apply map_ext. intros m.
  destruct (String.eqb (msg_id m) messageId); [|reflexivity].
  unfold withoutDisplayed, spread. simpl.
  rewrite Ha, Hc, Ht, He, Hs, Hth, Herr. reflexivity.
Qed.

Lemma tick_withoutDisplayed (st : ChatState) :
  map withoutDisplayed (messages (tick st)) = map withoutDisplayed (messages st).
Proof.
  unfold tick. destruct (typingInterval st) as [t|]; [|reflexivity].
  destruct (Nat.ltb _ _); simpl; [|reflexivity].
  apply withoutDisplayed_updateMessage; reflexivity.
Qed.

Lemma typingEffect_withoutDisplayed (st : ChatState) :
  map withoutDisplayed (messages (typingEffect st))
  = map withoutDisplayed (messages st).
Proof.
  unfold typingEffect. destruct (last (messages st)) as [m|]; [|reflexivity].
  destruct (negb (String.eqb (msg_role m) "bot")); [reflexivity|].
  destruct (_ && _ && msg_isStreaming m); [reflexivity|].
  destruct (negb (msg_isStreaming m) && _ && _); [|reflexivity].
  simpl. apply withoutDisplayed_updateMessage; reflexivity.
Qed.

Lemma tickAndRender_withoutDisplayed (st : ChatState) :
  map withoutDisplayed (messages (tickAndRender st))
  = map withoutDisplayed (messages st).
Proof.
  unfold tickAndRender. destruct (typingInterval st) as [t|] eqn:E; [|reflexivity].
  destruct (Nat.ltb _ _).
  - rewrite typingEffect_withoutDisplayed. apply tick_withoutDisplayed.
  - apply tick_withoutDisplayed.
Qed.

(** X14. The typing animator writes nothing but displayedAnswer: after an
    effect run and any number of interval firings, rendered or not, the
    message list has the same messages in the same order, each with every
    field other than displayedAnswer as it was. *)
Theorem animation_writes_only_displayedAnswer (renders : list bool) (st : ChatState) :
  map withoutDisplayed (messages (animate renders (typingEffect st)))
  = map withoutDisplayed (messages st).
Proof.
  rewrite <- (typingEffect_withoutDisplayed st).
  generalize (typingEffect st). clear st.
  unfold animate.
  induction renders as [|r renders IH]; intros st; simpl; [reflexivity|].
  rewrite IH. destruct r;
    [apply tickAndRender_withoutDisplayed|apply tick_withoutDisplayed].
Qed.

(** X15. The effect settles in one run: the render its own update of
    displayedAnswer causes runs the effect again on the updated list, and
    that second run leaves the message list and the interval as the first
    run left them, so the effect cannot feed itself. *)
Theorem typingEffect_settles (st : ChatState) :
  typingEffect (typingEffect st) = typingEffect st.
Proof.
  unfold typingEffect at 2 3.
  destruct (last (messages st)) as [m|] eqn:Hlast.
  2: { unfold typingEffect. simpl. rewrite Hlast. reflexivity. }
  destruct (negb (String.eqb (msg_role m) "bot")) eqn:Hrole.
  { unfold typingEffect. simpl. rewrite Hlast, Hrole. reflexivity. }
  destruct (JsString.truthy (msg_answer m)
            && negb (String.eqb (msg_displayedAnswer m) (msg_answer m))
            && msg_isStreaming m) eqn:Hstream.
  { unfold typingEffect. simpl. rewrite Hlast, Hrole, Hstream. reflexivity. }
  destruct (negb (msg_isStreaming m) && JsString.truthy (msg_answer m)
            && negb (String.eqb (msg_displayedAnswer m) (msg_answer m))) eqn:Hsnap.
  2: { unfold typingEffect. simpl. rewrite Hlast, Hrole, Hstream, Hsnap. reflexivity. }
  unfold typingEffect. cbn [messages].
  rewrite last_updateMessage, Hlast. simpl.
  rewrite String.eqb_refl. simpl. rewrite Hrole.
  rewrite String.eqb_refl. simpl.
  rewrite !andb_false_r. simpl. reflexivity.
Qed.

(** * Properties of the request that sendMessage builds *)

Lemma lastTwenty_length (msgs : list Message) :
  length (ChatApp.lastTwenty msgs) <= 20.
Proof. unfold ChatApp.lastTwenty. rewrite length_drop. lia. Qed.

(** X16. The conversation history sent with a request has at most 20
    entries; every entry has the role user or assistant, and an assistant
    entry never has empty content (a placeholder that is still thinking is
    not sent); every user message among the last 20 messages is sent with
    its content. *)
Theorem history_entries (msgs : list Message) :
  length (ChatApp.conversationHistory msgs) <= 20
  /\ Forall (fun entry =>
               fst entry = "user"
               \/ (fst entry = "assistant" /\ snd entry <> EmptyString))
            (ChatApp.conversationHistory msgs)
  /\ Forall (fun m => msg_role m = "user" ->
                      In ("user", msg_content m) (ChatApp.conversationHistory msgs))
            (ChatApp.lastTwenty msgs).
Proof.
  unfold ChatApp.conversationHistory. split_conj.
  - rewrite length_map.
    pose proof (List.filter_length_le
                  (fun msg => String.eqb (msg_role msg) "user"
                              || (String.eqb (msg_role msg) "bot"
                                  && JsString.truthy (msg_answer msg)))
                  (ChatApp.lastTwenty msgs)) as H.
    pose proof (lastTwenty_length msgs). lia.
  - apply List.Forall_forall. intros entry Hin.
    apply List.in_map_iff in Hin. destruct Hin as (m & <- & Hin).
    apply List.filter_In in Hin. destruct Hin as [_ Hkeep]. simpl.
    destruct (String.eqb (msg_role m) "user"); [left; reflexivity|].
    right. split; [reflexivity|].
    simpl in Hkeep. apply andb_true_iff in Hkeep. destruct Hkeep as [_ Ht].
    intros Hempty. rewrite Hempty in Ht. discriminate.
  - apply List.Forall_forall. intros m Hin Hrole.
    apply List.in_map_iff. exists m.
    assert (Huser : String.eqb (msg_role m) "user" = true)
      by (apply String.eqb_eq; exact Hrole).
    rewrite Huser. split; [reflexivity|].
    apply List.filter_In. split; [exact Hin|]. rewrite Huser. reflexivity.
Qed.

Lemma storage_addMessage_as_given (conversationId : string) (message : Message)
    (env : Env) (ls ls' : LocalStorageService.LocalStorage) (newMessage : Message) :
  LocalStorageService.addMessage conversationId message env ls
    = Ok (newMessage, ls') ->
  JsString.truthy (msg_id message) = true ->
  JsString.truthy (msg_timestamp message) = true ->
  newMessage = message.
Proof.
  unfold LocalStorageService.addMessage.
  destruct (LocalStorageService.getMessages ls conversationId); [|discriminate].
  intros [= <- _] Hid Hts. rewrite Hid, Hts. destruct message; reflexivity.
Qed.

Lemma sync_addMessage_stores_message (cur : string) (message : Message)
    (env : Env) (s : ConversationContext.AppState) (stored : list Message) :
  JsString.truthy cur = true ->
  JsString.truthy (msg_id message) = true ->
  JsString.truthy (msg_timestamp message) = true ->
  LocalStorageService.getMessages (ConversationContext.localStorage s) cur
    = Some stored ->
  exists s',
    ConversationContext.addMessage (Some cur) message env s = (s', Ok tt)
    /\ ConversationContext.currentConversationId s'
       = ConversationContext.currentConversationId s
    /\ ConversationContext.messages s'
       = (fun l => l ++ [message]) <$> ConversationContext.messages s
    /\ map conv_id (LocalStorageService.getConversationsOrEmpty
                      (ConversationContext.localStorage s'))
       = map conv_id (LocalStorageService.getConversationsOrEmpty
                        (ConversationContext.localStorage s))
    /\ LocalStorageService.getMessages (ConversationContext.localStorage s') cur
       = Some (stored ++ [message])
    /\ LocalStorageService.getCurrentConversationId (ConversationContext.localStorage s')
       = LocalStorageService.getCurrentConversationId (ConversationContext.localStorage s).
Proof.
  intros Hcur Hid Hts Hstored.
  destruct (storage_addMessage_result cur message env _ _ Hstored)
    as (newMessage & ls2 & Hadd & Htitles & _ & Hmsgs2 & _).
  pose proof (storage_addMessage_as_given _ _ _ _ _ _ Hadd Hid Hts) as ->.
  pose proof (titleKeptOrGenerated_ids _ _ _ Htitles) as Hids2.
  assert (Hcurrent : LocalStorageService.getCurrentConversationId ls2
                     = LocalStorageService.getCurrentConversationId
                         (ConversationContext.localStorage s)).
  { revert Hadd. unfold LocalStorageService.addMessage. rewrite Hstored.
    intros [= _ <-].
    destruct (LocalStorageService.findIndex _ _); [|reflexivity].
    destruct (_ !! _); reflexivity. }
  unfold ConversationContext.addMessage, isSet. rewrite Hcur. cbn [negb].
  change (default EmptyString (Some cur)) with cur.
  unfold ebind, ConversationContext.storageTry, ConversationContext.setMessages,
    ConversationContext.setConversations, modify, gets, eret.
  rewrite Hadd.
  cbn [ConversationContext.localStorage ConversationContext.conversations
       ConversationContext.currentConversationId ConversationContext.messages].
  destruct (String.eqb (msg_role message) "user" && JsString.truthy (msg_content message));
    eexists; (split; [reflexivity|]); simpl; rewrite ?Hids2;
    split_conj; auto.
Qed.

(** X17. Sending a message while a conversation is current (its messages
    are in the store) creates no conversation: sendMessage returns the
    placeholder's id, the current conversation stays current in memory and
    in the store, the store lists the same conversations, and the user
    message and the thinking placeholder are appended, in this order, to
    the messages in memory (a message state that is null stays null) and
    to the stored messages of the current conversation. *)
Theorem send_in_current_conversation (cur content userId botMessageId : string)
    (envCreate envUser envBot : Env) (s : ConversationContext.AppState)
    (stored : list Message) :
  JsString.truthy cur = true ->
  JsString.truthy content = true ->
  JsString.truthy userId = true -> JsString.truthy botMessageId = true ->
  JsString.truthy (env_now envUser) = true ->
  JsString.truthy (env_now envBot) = true ->
  LocalStorageService.getMessages (ConversationContext.localStorage s) cur
    = Some stored ->
  exists s',
    ChatApp.sendMessageStart (Some cur) false content userId botMessageId
      envCreate envUser envBot s = (s', Ok (Some botMessageId))
    /\ ConversationContext.currentConversationId s'
       = ConversationContext.currentConversationId s
    /\ LocalStorageService.getCurrentConversationId (ConversationContext.localStorage s')
       = LocalStorageService.getCurrentConversationId (ConversationContext.localStorage s)
    /\ map conv_id (LocalStorageService.getConversationsOrEmpty
                      (ConversationContext.localStorage s'))
       = map conv_id (LocalStorageService.getConversationsOrEmpty
                        (ConversationContext.localStorage s))
    /\ ConversationContext.messages s'
       = (fun l => l ++ [ChatApp.userMessage userId content (env_now envUser);
                         ChatApp.botMessage botMessageId (env_now envBot)])
           <$> ConversationContext.messages s
    /\ LocalStorageService.getMessages (ConversationContext.localStorage s') cur
       = Some (stored
               ++ [ChatApp.userMessage userId content (env_now envUser);
                   ChatApp.botMessage botMessageId (env_now envBot)]).
Proof.
  intros Hcur Hcontent Huser Hbot HnowU HnowB Hstored.
  destruct (sync_addMessage_stores_message cur
              (ChatApp.userMessage userId content (env_now envUser)) envUser s stored
              Hcur Huser HnowU Hstored)
    as (s1 & Hrun1 & Hcur1 & Hmsgs1 & Hids1 & Hstored1 & Hsc1).
  destruct (sync_addMessage_stores_message cur
              (ChatApp.botMessage botMessageId (env_now envBot)) envBot s1 _
              Hcur Hbot HnowB Hstored1)
    as (s2 & Hrun2 & Hcur2 & Hmsgs2 & Hids2 & Hstored2 & Hsc2).
  exists s2.
  split.
  - unfold ChatApp.sendMessageStart. rewrite Hcontent. cbn [negb orb].
    unfold isSet at 1. rewrite Hcur. cbn [negb].
    unfold ebind at 1 2 3. unfold eret at 1.
    rewrite Hrun1. unfold ebind. rewrite Hrun2. reflexivity.
  - split_conj.
    + congruence.
    + congruence.
    + congruence.
    + rewrite Hmsgs2, Hmsgs1.
      destruct (ConversationContext.messages s) as [l|]; simpl; [|reflexivity].
      rewrite <- app_assoc. reflexivity.
    + rewrite Hstored2, <- app_assoc. reflexivity.
Qed.

Lemma send_in_current_conversation_witness :
  exists s',
    ChatApp.sendMessageStart (Some "c2") false "hi" "user-1" "bot-1"
      sampleEnv sampleEnv sampleEnv twoConversations = (s', Ok (Some "bot-1"))
    /\ ConversationContext.currentConversationId s' = Some "c2"
    /\ length <$> ConversationContext.messages s' = Some 3.
Proof.
  destruct (send_in_current_conversation "c2" "hi" "user-1" "bot-1"
              sampleEnv sampleEnv sampleEnv twoConversations
              [welcomeMessage "2024-01-02T00:00:00.000Z"]
              eq_refl eq_refl eq_refl eq_refl eq_refl eq_refl
              ltac:(vm_compute; reflexivity))
    as (s' & Hrun & Hcur & _ & _ & Hmsgs & _).
  exists s'. split_conj.
  - exact Hrun.
  - rewrite Hcur. reflexivity.
  - rewrite Hmsgs. reflexivity.
Defined.

(** * The container's lists follow the store *)

Lemma sameConversations_switch (cur : option string) (id : string)
    (s : ConversationContext.AppState) :
  sameConversations s ->
  sameConversations (fst (ConversationContext.switchConversation cur id s)).
Proof.
  unfold sameConversations, ConversationContext.switchConversation. intros Hs.
  destruct (sameId id cur); [exact Hs|].
  unfold ebind, ConversationContext.storageTry, ConversationContext.storageCall,
    ConversationContext.setCurrentConversationId, ConversationContext.setMessages,
    modify, eret.
  destruct (LocalStorageService.getConversation (ConversationContext.localStorage s) id)
    as [[[meta convMessages]|]|e];
    cbn -[LocalStorageService.setCurrentConversationId
          LocalStorageService.getConversationsOrEmpty];
    try exact Hs.
  rewrite getConversations_setCurrent. exact Hs.
Qed.

Lemma updateConversation_ids (id : string) (updates : ConversationUpdates)
    (env : Env) (ls : LocalStorageService.LocalStorage) :
  map conv_id (LocalStorageService.getConversationsOrEmpty
                 (snd (LocalStorageService.updateConversation id updates env ls)))
  = map conv_id (LocalStorageService.getConversationsOrEmpty ls)
  /\ forall u, fst (LocalStorageService.updateConversation id updates env ls) = Some u ->
               conv_id u = id.
Proof.
  unfold LocalStorageService.updateConversation.
  destruct (LocalStorageService.findIndex id
              (LocalStorageService.getConversationsOrEmpty ls)) as [i|] eqn:Ei;
    [|split; [reflexivity|discriminate]].
  destruct (findIndex_spec _ _ _ Ei) as (c & Hi & _ & Hid).
  rewrite Hi. simpl. split.
  - change (LocalStorageService.getConversationsOrEmpty
              (LocalStorageService.setConversationsItem ?l _)) with l.
    apply insert_same_id with c; [exact Hi|reflexivity].
  - intros u [= <-]. exact Hid.
Qed.

Lemma replace_same_id (id : string) (u : Conversation) (convs : list Conversation) :
  conv_id u = id ->
  map conv_id (map (fun c => if String.eqb (conv_id c) id then u else c) convs)
  = map conv_id convs.
Proof.
  intros Hu. rewrite map_map. apply map_ext. intros c.
  destruct (String.eqb (conv_id c) id) eqn:E; [|reflexivity].
  apply String.eqb_eq in E. congruence.
Qed.

Lemma sameConversations_update (id : string) (updates : ConversationUpdates)
    (env : Env) (s : ConversationContext.AppState) :
  sameConversations s ->
  sameConversations (fst (ConversationContext.updateConversation id updates env s)).
Proof.
  unfold sameConversations, ConversationContext.updateConversation. intros Hs.
  destruct (updateConversation_ids id updates env (ConversationContext.localStorage s))
    as [Hids Hid].
  unfold ebind, ConversationContext.storageCall, ConversationContext.setConversations,
    modify, eret.
  destruct (LocalStorageService.updateConversation id updates env
              (ConversationContext.localStorage s)) as [[u|] ls'] eqn:E; simpl in *.
  - rewrite Hids, Hs, (replace_same_id id u _ (Hid u eq_refl)). reflexivity.
  - rewrite Hids. exact Hs.
Qed.

Lemma storage_updateMessage_conversations (conversationId messageId : string)
    (u : MessageUpdates) (ls ls' : LocalStorageService.LocalStorage)
    (r : option Message) :
  LocalStorageService.updateMessage conversationId messageId u ls = Ok (r, ls') ->
  LocalStorageService.getConversationsOrEmpty ls'
  = LocalStorageService.getConversationsOrEmpty ls.
Proof.
  unfold LocalStorageService.updateMessage.
  destruct (LocalStorageService.getMessages ls conversationId) as [stored|];
    [|discriminate].
  destruct (LocalStorageService.findMessageIndex messageId stored) as [i|];
    [|intros [= _ <-]; reflexivity].
  destruct (stored !! i); intros [= _ <-]; reflexivity.
Qed.

Lemma sameConversations_updateMessage (cur : option string) (messageId : string)
    (u : MessageUpdates) (s : ConversationContext.AppState) :
  sameConversations s ->
  sameConversations (fst (ConversationContext.updateMessageHandler cur messageId u s)).
Proof.
  unfold sameConversations, ConversationContext.updateMessageHandler. intros Hs.
  unfold ebind, ConversationContext.storageTry, ConversationContext.setMessages,
    modify, eret.
  destruct (isSet cur); simpl; [|exact Hs].
  destruct (LocalStorageService.updateMessage (default EmptyString cur) messageId u
              (ConversationContext.localStorage s)) as [[r ls']|e] eqn:E;
    simpl; [|exact Hs].
  rewrite (storage_updateMessage_conversations _ _ _ _ _ _ E). exact Hs.
Qed.

Lemma sameConversations_mount (ls : LocalStorageService.LocalStorage) :
  sameConversations
    (fst (ConversationContext.loadOnMount (ConversationContext.initialState ls))).
Proof.
  unfold sameConversations, ConversationContext.loadOnMount,
    ConversationContext.initialState.
  unfold ebind, gets, ConversationContext.storageTry,
    ConversationContext.setConversations,
    ConversationContext.setCurrentConversationId, ConversationContext.setMessages,
    modify, eret.
  simpl.
  destruct (LocalStorageService.getCurrentConversationId ls) as [cid|];
    [|reflexivity].
  destruct (LocalStorageService.findConversation cid _); [|reflexivity].
  simpl.
  destruct (LocalStorageService.getConversation ls cid)
    as [[[meta [convMessages|]]|]|e]; reflexivity.
Qed.

(** X18. The conversation list in memory names the conversations of the
    store, in the store's order, after the mount effect, and every handler
    of the container keeps it so whatever its arguments and whatever the
    closure it runs in: createConversation, switchConversation,
    deleteConversation, updateConversation, addMessage and updateMessage,
    also when the handler ends in a throw. *)
Theorem lists_follow_the_store (s : ConversationContext.AppState) :
  sameConversations s ->
  (forall title env,
     sameConversations (fst (ConversationContext.createConversation title env s)))
  /\ (forall cur id,
        sameConversations (fst (ConversationContext.switchConversation cur id s)))
  /\ (forall cur convs id,
        sameConversations (fst (ConversationContext.deleteConversation cur convs id s)))
  /\ (forall id updates env,
        sameConversations (fst (ConversationContext.updateConversation id updates env s)))
  /\ (forall cur message env,
        sameConversations (fst (ConversationContext.addMessage cur message env s)))
  /\ (forall cur messageId u,
        sameConversations
          (fst (ConversationContext.updateMessageHandler cur messageId u s)))
  /\ (forall ls,
        sameConversations
          (fst (ConversationContext.loadOnMount (ConversationContext.initialState ls)))).
Proof.
  intros Hs. split_conj; intros.
  - apply sameConversations_create; exact Hs.
  - apply sameConversations_switch; exact Hs.
  - apply sameConversations_delete; exact Hs.
  - apply sameConversations_update; exact Hs.
  - apply sameConversations_addMessage; exact Hs.
  - apply sameConversations_updateMessage; exact Hs.
  - apply sameConversations_mount.
Qed.

Lemma lists_follow_the_store_witness :
  sameConversations twoConversations
  /\ sameConversations
       (fst (ConversationContext.deleteConversation (Some "c2")
               (ConversationContext.conversations twoConversations) "c2"
               twoConversations)).
Proof.
  assert (H : sameConversations twoConversations) by reflexivity.
  split; [exact H|].
  apply (lists_follow_the_store twoConversations H).
Defined.

(** * The mount effect *)

Lemma findConversation_listed (id : string) (convs : list Conversation) :
  (exists meta, LocalStorageService.findConversation id convs = Some meta)
  <-> In id (map conv_id convs).
Proof.
  split; [|apply findConversation_present].
  intros [meta H]. unfold LocalStorageService.findConversation in H.
  apply find_some in H. destruct H as [Hin Heq].
  apply String.eqb_eq in Heq. apply in_map_iff. exists meta. auto.
Qed.

(** X19. On a localStorage whose conversations entry is absent or holds a
    list of conversations, and whose message entries hold lists of
    messages, the mount effect returns without a throw (also on an empty
    store and on a current id that names no conversation) and writes
    nothing.  It loads the stored conversation list (the empty list when
    there is none); the stored current id becomes current exactly when the
    loaded list has a conversation with it, so an id left behind by a
    deleted conversation is dropped; the message list is then the stored
    messages of that conversation and is empty otherwise. *)
Theorem mount_restores (ls : LocalStorageService.LocalStorage) :
  exists s',
    ConversationContext.loadOnMount (ConversationContext.initialState ls) = (s', Ok tt)
    /\ ConversationContext.localStorage s' = ls
    /\ ConversationContext.conversations s'
       = LocalStorageService.getConversationsOrEmpty ls
    /\ (forall cid,
          ConversationContext.currentConversationId s' = Some cid
          <-> LocalStorageService.getCurrentConversationId ls = Some cid
              /\ In cid (map conv_id (LocalStorageService.getConversationsOrEmpty ls)))
    /\ ConversationContext.messages s'
       = Some match ConversationContext.currentConversationId s' with
              | Some cid => default [] (LocalStorageService.getMessages ls cid)
              | None => []
              end.
Proof.
  unfold ConversationContext.loadOnMount, ConversationContext.initialState.
  unfold ebind, gets, ConversationContext.storageTry,
    ConversationContext.setConversations,
    ConversationContext.setCurrentConversationId, ConversationContext.setMessages,
    modify, eret.
  cbn [ConversationContext.localStorage ConversationContext.conversations
       ConversationContext.currentConversationId ConversationContext.messages].
  destruct (LocalStorageService.getCurrentConversationId ls) as [cur|] eqn:Hcur.
  2: { eexists. split; [reflexivity|]. simpl. split_conj; auto.
       intros cid. split; [discriminate|]. intros [H _]. discriminate. }
  destruct (LocalStorageService.findConversation cur
              (LocalStorageService.getConversationsOrEmpty ls)) as [meta|] eqn:Hfind.
  2: { eexists. split; [reflexivity|]. simpl. split_conj; auto.
       intros cid. split; [discriminate|]. intros [[= ->] Hin].
       apply findConversation_listed in Hin. destruct Hin as [meta Hmeta].
       congruence. }
  assert (Hlisted : In cur (map conv_id (LocalStorageService.getConversationsOrEmpty ls)))
    by (apply findConversation_listed; eauto).
  unfold LocalStorageService.getConversation.
  unfold LocalStorageService.getConversationsOrEmpty in Hfind.
  destruct (LocalStorageService.getConversations ls) as [convs|] eqn:Hconvs;
    [|discriminate].
  simpl in Hfind. cbn [ConversationContext.localStorage]. cbv beta.
  rewrite Hconvs, Hfind. simpl.
  destruct (LocalStorageService.getMessages ls cur) as [stored|] eqn:Hstored;
    (eexists; split; [reflexivity|]); simpl; rewrite ?Hstored; split_conj; auto;
    intros cid; (split; [intros [= <-]; auto | intros [[= ->] _]; reflexivity]).
Qed.

Lemma storage_addMessage_current (conversationId : string) (message : Message)
    (env : Env) (ls ls' : LocalStorageService.LocalStorage) (newMessage : Message) :
  LocalStorageService.addMessage conversationId message env ls
    = Ok (newMessage, ls') ->
  LocalStorageService.getCurrentConversationId ls'
  = LocalStorageService.getCurrentConversationId ls.
Proof.
  unfold LocalStorageService.addMessage.
  destruct (LocalStorageService.getMessages ls conversationId); [|discriminate].
  intros [= _ <-].
  destruct (LocalStorageService.findIndex _ _); [|reflexivity].
  destruct (_ !! _); reflexivity.
Qed.

Lemma sync_create_current (title : string) (env : Env)
    (s : ConversationContext.AppState) :
  JsString.truthy (env_conversationId env) = true ->
  LocalStorageService.getCurrentConversationId
    (ConversationContext.localStorage
       (fst (ConversationContext.createConversation title env s)))
  = Some (env_conversationId env).
Proof.
  intros Hid. destruct s as [convs cur msgs ls].
  unfold ConversationContext.createConversation, ebind,
    ConversationContext.storageCall, ConversationContext.storageTry,
    ConversationContext.setConversations,
    ConversationContext.setCurrentConversationId,
    ConversationContext.setMessages, modify, eret.
  cbn [ConversationContext.localStorage ConversationContext.conversations
       ConversationContext.currentConversationId ConversationContext.messages
       LocalStorageService.createConversation fst snd conv_id].
  set (ls2 := LocalStorageService.setCurrentConversationId _ _).
  assert (Hcur2 : LocalStorageService.getCurrentConversationId ls2
                  = Some (env_conversationId env)).
  { subst ls2. unfold LocalStorageService.setCurrentConversationId.
    rewrite Hid. unfold LocalStorageService.getCurrentConversationId. simpl.
    rewrite Hid. reflexivity. }
  destruct (LocalStorageService.addMessage (env_conversationId env)
              (welcomeMessage (env_now env)) env ls2) as [[nm ls3]|e] eqn:Hadd.
  - cbn [fst ConversationContext.localStorage].
    rewrite (storage_addMessage_current _ _ _ _ _ _ Hadd). exact Hcur2.
  - cbn [fst ConversationContext.localStorage]. exact Hcur2.
Qed.

(** X20. A new conversation survives a reload: after createConversation
    (with a non-empty generated id), mounting the container again over the
    localStorage it left restores the new conversation as the current one,
    with the welcome message as its only message, and lists it first
    before the conversations that were stored. *)
Theorem created_conversation_survives_reload (title : string) (env : Env)
    (s : ConversationContext.AppState) :
  JsString.truthy (env_conversationId env) = true ->
  exists s',
    ConversationContext.loadOnMount
      (ConversationContext.initialState
         (ConversationContext.localStorage
            (fst (ConversationContext.createConversation title env s))))
    = (s', Ok tt)
    /\ ConversationContext.currentConversationId s' = Some (env_conversationId env)
    /\ ConversationContext.messages s' = Some [welcomeMessage (env_now env)]
    /\ map conv_id (ConversationContext.conversations s')
       = env_conversationId env
           :: map conv_id (LocalStorageService.getConversationsOrEmpty
                             (ConversationContext.localStorage s)).
Proof.
  intros Hid.
  pose proof (sync_create_current title env s Hid) as Hcur.
  destruct (sync_create_result title env s) as (ls1 & Hrun & Hids & Hmsgs & _).
  rewrite Hrun in Hcur |- *. cbn [fst ConversationContext.localStorage] in Hcur |- *.
  destruct (mount_restores ls1) as (s' & Hmount & _ & Hconvs & Hcurrent & Hmessages).
  exists s'. split; [exact Hmount|].
  assert (Hc : ConversationContext.currentConversationId s'
               = Some (env_conversationId env)).
  { apply Hcurrent. split; [exact Hcur|]. rewrite Hids. left. reflexivity. }
  split_conj.
  - exact Hc.
  - rewrite Hmessages, Hc, Hmsgs. reflexivity.
  - rewrite Hconvs. exact Hids.
Qed.

Lemma created_conversation_survives_reload_witness :
  exists s',
    ConversationContext.loadOnMount
      (ConversationContext.initialState
         (ConversationContext.localStorage
            (fst (ConversationContext.createConversation "New Chat" sampleEnv emptyApp))))
    = (s', Ok tt)
    /\ ConversationContext.currentConversationId s' = Some "c1"
    /\ ConversationContext.messages s'
       = Some [welcomeMessage "2024-01-01T00:00:00.000Z"].
Proof.
  destruct (created_conversation_survives_reload "New Chat" sampleEnv emptyApp eq_refl)
    as (s' & Hrun & Hcur & Hmsgs & _).
  exists s'. auto.
Defined.

(** * The container's updateMessage *)

Lemma storage_updateMessage_result (conversationId messageId : string)
    (u : MessageUpdates) (ls : LocalStorageService.LocalStorage)
    (stored : list Message) :
  LocalStorageService.getMessages ls conversationId = Some stored ->
  List.NoDup (map msg_id stored) ->
  exists r ls',
    LocalStorageService.updateMessage conversationId messageId u ls = Ok (r, ls')
    /\ LocalStorageService.getMessages ls' conversationId
       = Some (updateMessage messageId u stored).
Proof.
  intros Hstored Hnodup.
  unfold LocalStorageService.updateMessage. rewrite Hstored.
  destruct (LocalStorageService.findMessageIndex messageId stored) as [i|] eqn:Ei.
  - destruct (findMessageIndex_some _ u _ _ Ei Hnodup) as (m & Hi & Hid & Hins).
    rewrite Hi. eexists _, _. split; [reflexivity|].
    unfold LocalStorageService.getMessages. simpl.
    rewrite lookup_insert_eq, Hins. reflexivity.
  - eexists _, _. split; [reflexivity|].
    rewrite (findMessageIndex_none _ u _ Ei). exact Hstored.
Qed.

(** X21. While the message list in memory is the stored list of the
    current conversation and its ids are distinct, the container's
    updateMessage keeps the two equal: it returns, and both are the old
    list with the updates applied to the message with the given id.  When
    the current conversation has no stored message list the call throws a
    TypeError out of the store and the list in memory is not updated. *)
Theorem updateMessage_keeps_memory_and_store_equal (cur messageId : string)
    (u : MessageUpdates) (s : ConversationContext.AppState)
    (memory : list Message) :
  JsString.truthy cur = true ->
  (ConversationContext.messages s = Some memory ->
   LocalStorageService.getMessages (ConversationContext.localStorage s) cur
     = Some memory ->
   List.NoDup (map msg_id memory) ->
   exists s',
     ConversationContext.updateMessageHandler (Some cur) messageId u s = (s', Ok tt)
     /\ ConversationContext.messages s' = Some (updateMessage messageId u memory)
     /\ LocalStorageService.getMessages (ConversationContext.localStorage s') cur
        = ConversationContext.messages s')
  /\ (LocalStorageService.getMessages (ConversationContext.localStorage s) cur = None ->
      ConversationContext.updateMessageHandler (Some cur) messageId u s
      = (s, Throw TypeError)).
Proof.
  intros Hcur.
  unfold ConversationContext.updateMessageHandler, isSet. rewrite Hcur.
  change (default EmptyString (Some cur)) with cur.
  unfold ebind, ConversationContext.storageTry, ConversationContext.setMessages,
    modify, eret.
  split.
  - intros Hmemory Hstored Hnodup.
    destruct (storage_updateMessage_result cur messageId u _ _ Hstored Hnodup)
      as (r & ls' & Hrun & Hstored').
    rewrite Hrun. eexists. split; [reflexivity|]. simpl.
    rewrite Hmemory. simpl. auto.
  - intros Hnone. unfold LocalStorageService.updateMessage. rewrite Hnone.
    reflexivity.
Qed.

Lemma updateMessage_keeps_memory_and_store_equal_witness :
  exists s',
    ConversationContext.updateMessageHandler (Some "c2") "welcome"
      (textUpdates "Hi") twoConversations = (s', Ok tt)
    /\ LocalStorageService.getMessages (ConversationContext.localStorage s') "c2"
       = ConversationContext.messages s'.
Proof.
  destruct (updateMessage_keeps_memory_and_store_equal "c2" "welcome"
              (textUpdates "Hi") twoConversations
              [welcomeMessage "2024-01-02T00:00:00.000Z"] eq_refl) as [H _].
  destruct (H eq_refl ltac:(vm_compute; reflexivity)
              ltac:(repeat constructor; simpl; tauto))
    as (s' & Hrun & _ & Hstored).
  exists s'. auto.
Defined.

(** * Header and GroupedTable *)

Lemma isAlnum_underscore : isAlnum underscore = false.
Proof. reflexivity. Qed.

(** X22. The stem of the export file name (what precedes the suffix
    _export.json) is the title with every character other than a letter
    or a digit replaced by an underscore: it has the length of the title,
    holds only letters, digits and underscores, and is the title itself
    exactly when the title holds only those. *)
Theorem export_name_is_safe (title : string) :
  exportFileName title = (replaceNonAlnum title ++ "_export.json")%string
  /\ JsString.len (replaceNonAlnum title) = JsString.len title
  /\ fileNameSafe (replaceNonAlnum title) = true
  /\ (replaceNonAlnum title = title <-> fileNameSafe title = true).
Proof.
  split; [reflexivity|].
  unfold JsString.len.
  induction title as [|c rest (Hlen & Hsafe & Hsame)]; simpl.
  - split_conj; try reflexivity. tauto.
  - split_conj.
    + rewrite Hlen. reflexivity.
    + rewrite Hsafe, andb_true_r.
      destruct (isAlnum c) eqn:E; [rewrite E; reflexivity|].
      rewrite Ascii.eqb_refl. apply orb_true_r.
    + split.
      * intros [= Hc Hrest]. rewrite (proj1 Hsame Hrest), andb_true_r.
        destruct (isAlnum c); [reflexivity|]. rewrite <- Hc.
        rewrite Ascii.eqb_refl. reflexivity.
      * intros H. apply andb_true_iff in H. destruct H as [Hc Hrest].
        rewrite (proj2 Hsame Hrest).
        destruct (isAlnum c); [reflexivity|].
        simpl in Hc. apply Ascii.eqb_eq in Hc. rewrite Hc. reflexivity.
Qed.

#[local] Set Warnings "-clear-no-such-hyp".

(** X23. toggleGroup flips the expanded state of the group it is given
    and of no other group, so toggling a group twice restores the set;
    after expandAll exactly the groups of the data are expanded and after
    collapseAll none is. *)
Theorem toggle_flips_one_group (groupKey : string) (expandedGroups : gset string)
    (groupKeys : list string) :
  (forall k,
     GroupedTable.isExpanded k (GroupedTable.toggleGroup groupKey expandedGroups)
     = if String.eqb k groupKey
       then negb (GroupedTable.isExpanded k expandedGroups)
       else GroupedTable.isExpanded k expandedGroups)
  /\ GroupedTable.toggleGroup groupKey
       (GroupedTable.toggleGroup groupKey expandedGroups) = expandedGroups
  /\ (forall k, GroupedTable.isExpanded k (GroupedTable.expandAll groupKeys) = true
                <-> In k groupKeys)
  /\ (forall k, GroupedTable.isExpanded k GroupedTable.collapseAll = false).
Proof.
  unfold GroupedTable.isExpanded, GroupedTable.toggleGroup, GroupedTable.expandAll,
    GroupedTable.collapseAll.
  split_conj.
  - intros k. destruct (String.eqb k groupKey) eqn:E.
    + apply String.eqb_eq in E. subst k.
      destruct (decide (groupKey ∈ expandedGroups)) as [Hin|Hnot].
      * rewrite (bool_decide_eq_true_2 _ Hin). simpl.
        apply bool_decide_eq_false_2. set_solver.
      * rewrite (bool_decide_eq_false_2 _ Hnot). simpl.
        apply bool_decide_eq_true_2. set_solver.
    + apply String.eqb_neq in E.
      destruct (decide (groupKey ∈ expandedGroups)); apply bool_decide_ext; set_solver.
  - destruct (decide (groupKey ∈ expandedGroups)) as [Hin|Hnot].
    + destruct (decide (groupKey ∈ expandedGroups ∖ {[groupKey]})) as [H|H];
        [set_solver|].
      apply set_eq. intros x. destruct (decide (x = groupKey)); set_solver.
    + destruct (decide (groupKey ∈ expandedGroups ∪ {[groupKey]})) as [H|H];
        [|set_solver].
      apply set_eq. intros x. destruct (decide (x = groupKey)); set_solver.
  - intros k. rewrite bool_decide_eq_true, elem_of_list_to_set.
    apply list_elem_of_In.
  - intros k. apply bool_decide_eq_false_2. set_solver.
Qed.

Lemma find_replaced (id : string) (u : Conversation) (convs : list Conversation) :
  In id (map conv_id convs) -> conv_id u = id ->
  List.find (fun c => sameId (conv_id c) (Some id))
    (map (fun c => if String.eqb (conv_id c) id then u else c) convs)
  = Some u.
Proof.
  intros Hin Hu. induction convs as [|c convs IH]; simpl in *; [contradiction|].
  destruct (String.eqb (conv_id c) id) eqn:E.
  - rewrite Hu, String.eqb_refl. reflexivity.
  - rewrite E. apply IH. destruct Hin as [Hc|Hin]; [|exact Hin].
    apply String.eqb_neq in E. contradiction.
Qed.

(** X24. A title saved in the Header reaches the screen and the store:
    for a non-empty trimmed title and a current conversation that the list
    in memory (in step with the store) has, handleTitleSave returns, the
    Header then shows the saved title, the store holds it for the current
    conversation, and the current conversation and the message list are
    not touched. *)
Theorem saved_title_is_shown (editedTitle cur : string) (env : Env)
    (s : ConversationContext.AppState) :
  JsString.truthy editedTitle = true ->
  JsString.truthy cur = true ->
  sameConversations s ->
  In cur (map conv_id (ConversationContext.conversations s)) ->
  exists s' stored,
    handleTitleSave editedTitle (Some cur) env s = (s', Ok tt)
    /\ headerTitle (ConversationContext.conversations s') (Some cur) = editedTitle
    /\ LocalStorageService.findConversation cur
         (LocalStorageService.getConversationsOrEmpty
            (ConversationContext.localStorage s')) = Some stored
    /\ conv_title stored = editedTitle
    /\ ConversationContext.currentConversationId s'
       = ConversationContext.currentConversationId s
    /\ ConversationContext.messages s' = ConversationContext.messages s.
Proof.
  intros Htitle Hcur Hsame Hin.
  unfold sameConversations in Hsame.
  assert (Hstored : In cur (map conv_id (LocalStorageService.getConversationsOrEmpty
                                           (ConversationContext.localStorage s))))
    by (rewrite Hsame; exact Hin).
  destruct (findConversation_present _ _ Hstored) as [meta Hmeta].
  destruct (LocalStorageService.findIndex cur
              (LocalStorageService.getConversationsOrEmpty
                 (ConversationContext.localStorage s))) as [i|] eqn:Ei.
  2: { apply findIndex_none in Ei. congruence. }
  destruct (findIndex_spec _ _ _ Ei) as (c & Hi & _ & Hid).
  unfold handleTitleSave, isSet. rewrite Htitle, Hcur. cbn [andb].
  change (default EmptyString (Some cur)) with cur.
  unfold ConversationContext.updateConversation, ebind,
    ConversationContext.storageCall, ConversationContext.setConversations,
    modify, eret.
  unfold LocalStorageService.updateConversation. rewrite Ei, Hi.
  cbn -[LocalStorageService.getConversationsOrEmpty headerTitle
        LocalStorageService.findConversation].
  eexists _, _. split; [reflexivity|].
  cbn [ConversationContext.conversations ConversationContext.localStorage
       ConversationContext.currentConversationId ConversationContext.messages].
  change (LocalStorageService.getConversationsOrEmpty
            (LocalStorageService.setConversationsItem ?l _)) with l.
  split_conj.
  - unfold headerTitle. rewrite find_replaced by (assumption || exact Hid).
    simpl. rewrite Htitle. reflexivity.
  - apply findConversation_insert; [exact Ei|exact Hid].
  - reflexivity.
  - reflexivity.
  - reflexivity.
Qed.

Lemma saved_title_is_shown_witness :
  exists s',
    handleTitleSave "Budget" (Some "c2") sampleEnv twoConversations = (s', Ok tt)
    /\ headerTitle (ConversationContext.conversations s') (Some "c2") = "Budget".
Proof.
  destruct (saved_title_is_shown "Budget" "c2" sampleEnv twoConversations
              eq_refl eq_refl ltac:(reflexivity) ltac:(vm_compute; left; reflexivity))
    as (s' & stored & Hrun & Hshown & _).
  exists s'. auto.
Defined.
